(** * drizzle-to-typeorm: the schema converter of [src/converter.js]

    A shallow embedding of [convertSchemas] and of the functions it is built
    from ([getColumn], the table extras, the relation collector, the relation
    resolver and the emitter), followed by the properties proved about them.

    Conventions of the embedding.
    - A JavaScript string is a [string], one [ascii] per code unit.
    - [undefined] is [None]; a value that can also be [null] is a
      [Nullable].  A flag that the code only ever sets to [true] is a [bool]
      whose [false] stands for an absent property.
    - A number is only ever obtained as [+node.text] from a numeric literal
      and only ever printed; it is kept as [NumberOf text].
    - A plain object used as a dictionary is an association list in insertion
      order ([Obj]); a property key that is [undefined] or [null] is coerced
      to the strings ["undefined"] and ["null"], as JavaScript does.  Reading
      a property by a computed key ([read], [lookup]) finds the properties
      that the code has set and, for a key that was never set, the member of
      that name that every plain object inherits from [Object.prototype];
      such a member is a [Member] among the [Value]s.  The property
      [__proto__] is never assigned: the parser escapes a name that starts
      with two underscores, so no [escapedText] is [__proto__], and the
      entity names have their first letter in upper case.
    - A [TypeError] raised by the code is the [Throw] of [result].
    - Arrays of records that are mutated through aliases ([relationStubs]) are
      lists updated by index.
    - What the code obtains from its host (the text of a node, the printing of
      a number, Unicode case mapping, [trim]) is a member of [Host].
    - The parser, [ts.createSourceFile], is a function from the name and the
      text of a file to its syntax tree; [convert] is the conversion of
      parsed files, and [convertSchemas] its composition with the parser. *)

From Stdlib Require Import String Ascii List Bool Arith NArith Lia.
Import ListNotations.
Local Open Scope list_scope.
Local Open Scope string_scope.

Set Implicit Arguments.
Set Warnings "-register-all".

(** ** Exceptions *)

Inductive exn : Type :=
| TypeError (message : string).

Inductive result (A : Type) : Type :=
| Ok (value : A)
| Throw (e : exn).

Arguments Ok {A} value.
Arguments Throw {A} e.

Definition bind {A B : Type} (m : result A) (k : A -> result B) : result B :=
  match m with
  | Ok a => k a
  | Throw e => Throw e
  end.

Notation "x <- m ;; k" := (bind m (fun x => k))
  (at level 61, m at next level, right associativity).

(** [arr.forEach(f)] where [f] updates a state and may throw. *)
Fixpoint forEach {A S : Type} (f : S -> A -> result S) (l : list A) (s : S)
  : result S :=
  match l with
  | [] => Ok s
  | a :: l' => s' <- f s a ;; forEach f l' s'
  end.

Definition returns {A : Type} (m : result A) : Prop := exists a, m = Ok a.

Definition cannot_read_kind : exn :=
  TypeError "Cannot read properties of undefined (reading 'kind')".
Definition not_iterable : exn :=
  TypeError "undefined is not iterable".
Definition cannot_read_relations : exn :=
  TypeError "Cannot read properties of undefined (reading 'relations')".
Definition cannot_read_some : exn :=
  TypeError "Cannot read properties of undefined (reading 'some')".
Definition cannot_read_push : exn :=
  TypeError "Cannot read properties of undefined (reading 'push')".
Definition push_not_a_function : exn :=
  TypeError "fileOutputMap[tsFile].push is not a function".

(** ** Values that can be [null] *)

Inductive Nullable (A : Type) : Type :=
| Null
| NotNull (a : A).

Arguments Null {A}.
Arguments NotNull {A} a.

(** ** Strings *)

Definition truthy (s : option string) : bool :=
  match s with
  | Some (String _ _) => true
  | _ => false
  end.

Definition opt_eqb (a b : option string) : bool :=
  match a, b with
  | Some x, Some y => String.eqb x y
  | None, None => true
  | _, _ => false
  end.

(** [x === "lit"] for an [x] that may be [undefined]. *)
Definition equals (x : option string) (lit : string) : bool :=
  opt_eqb x (Some lit).

(** The template [`${x}`]. *)
Definition show (x : option string) : string :=
  match x with
  | Some s => s
  | None => "undefined"
  end.

Definition in_range (lo hi : nat) (c : ascii) : bool :=
  Nat.leb lo (nat_of_ascii c) && Nat.leb (nat_of_ascii c) hi.

Definition is_lower (c : ascii) : bool := in_range 97 122 c.
Definition is_upper (c : ascii) : bool := in_range 65 90 c.
Definition is_digit (c : ascii) : bool := in_range 48 57 c.

(** Case folding of a regular expression with the [i] flag and no [u] flag:
    only the ASCII letters are identified with each other. *)
Definition fold_case (c : ascii) : ascii :=
  if is_upper c then ascii_of_nat (nat_of_ascii c + 32) else c.

Fixpoint fold_case_string (s : string) : string :=
  match s with
  | EmptyString => EmptyString
  | String c s' => String (fold_case c) (fold_case_string s')
  end.

Fixpoint starts_with (p s : string) : bool :=
  match p, s with
  | EmptyString, _ => true
  | String a p', String b s' => Ascii.eqb a b && starts_with p' s'
  | String _ _, EmptyString => false
  end.

(** [s.includes(p)]. *)
Fixpoint includes (p s : string) : bool :=
  starts_with p s ||
  match s with
  | EmptyString => false
  | String _ s' => includes p s'
  end.

Fixpoint rev_string (s : string) : string :=
  match s with
  | EmptyString => EmptyString
  | String c s' => rev_string s' ++ String c EmptyString
  end.

Definition ends_with (p s : string) : bool :=
  starts_with (rev_string p) (rev_string s).

Fixpoint drop_while (f : ascii -> bool) (s : string) : string :=
  match s with
  | EmptyString => EmptyString
  | String c s' => if f c then drop_while f s' else s
  end.

Definition is_underscore (c : ascii) : bool := Ascii.eqb c "_".

(** [s.split("_")]. *)
Fixpoint split_underscore (s : string) : list string :=
  match s with
  | EmptyString => [EmptyString]
  | String c s' =>
      if is_underscore c then EmptyString :: split_underscore s'
      else match split_underscore s' with
           | w :: ws => String c w :: ws
           | [] => [String c EmptyString]
           end
  end.

Definition nonempty (s : string) : bool :=
  match s with
  | EmptyString => false
  | String _ _ => true
  end.

(** [l.join(sep)]. *)
Fixpoint join (sep : string) (l : list string) : string :=
  match l with
  | [] => ""
  | [x] => x
  | x :: l' => x ++ sep ++ join sep l'
  end.

Definition quote (s : string) : string := "'" ++ s ++ "'".

(** ** Syntax trees, as the TypeScript compiler API presents them *)

Module ts.

(** The node kinds that the converter tells apart, and [OtherNode] for a
    node of any other kind, with those of its properties that the converter
    reads without first testing the kind. *)
Inductive node : Type :=
| Identifier (escapedText : string)
| StringLiteral (text : string)
| NumericLiteral (text : string)
| NoSubstitutionTemplateLiteral (text : string)
| TrueKeyword
| FalseKeyword
| ArrayLiteralExpression (elements : list node)
| ObjectLiteralExpression (properties : list node)
| PropertyAssignment (name initializer : node)
| ParenthesizedExpression (expression : node)
| TaggedTemplateExpression (tag template : node)
| CallExpression (expression : node) (arguments : list node)
| PropertyAccessExpression (expression name : node)
| ArrowFunction (body : node)
| OtherNode (expression name : option node) (escapedText text : option string)
            (arguments : option (list node)).

Record VariableDeclaration : Type := {
  decl_name : node;
  decl_initializer : option node
}.

Inductive statement : Type :=
| VariableStatement (declarations : list VariableDeclaration)
| OtherStatement.

Definition SourceFile : Type := list statement.

(** [idText]: an [escapedText] that starts with three underscores stands for
    a name that starts with two. *)
Definition idText (escaped : string) : string :=
  match escaped with
  | String "_" (String "_" (String "_" rest)) => String "_" (String "_" rest)
  | _ => escaped
  end.

Definition escapedText (n : node) : option string :=
  match n with
  | Identifier s => Some s
  | OtherNode _ _ s _ _ => s
  | _ => None
  end.

Definition text (n : node) : option string :=
  match n with
  | StringLiteral s | NumericLiteral s | NoSubstitutionTemplateLiteral s => Some s
  | Identifier s => Some (idText s)
  | OtherNode _ _ _ s _ => s
  | _ => None
  end.

Definition expression (n : node) : option node :=
  match n with
  | ParenthesizedExpression e | CallExpression e _
  | PropertyAccessExpression e _ => Some e
  | OtherNode e _ _ _ _ => e
  | _ => None
  end.

Definition name (n : node) : option node :=
  match n with
  | PropertyAssignment p _ | PropertyAccessExpression _ p => Some p
  | OtherNode _ p _ _ _ => p
  | _ => None
  end.

Definition arguments (n : node) : option (list node) :=
  match n with
  | CallExpression _ args => Some args
  | OtherNode _ _ _ _ args => args
  | _ => None
  end.

Definition isCallExpression (n : node) : bool :=
  match n with CallExpression _ _ => true | _ => false end.
Definition isPropertyAccessExpression (n : node) : bool :=
  match n with PropertyAccessExpression _ _ => true | _ => false end.
Definition isArrowFunction (n : node) : bool :=
  match n with ArrowFunction _ => true | _ => false end.
Definition isTrue (n : node) : bool :=
  match n with TrueKeyword => true | _ => false end.

(** A kind test of the API applied to a value that may be [undefined]: the
    test reads [node.kind], so it throws on [undefined]. *)
Definition test (is_kind : node -> bool) (n : option node) : result bool :=
  match n with
  | Some n => Ok (is_kind n)
  | None => Throw cannot_read_kind
  end.

End ts.

Import ts.

(** [x.name.escapedText] for a node [x] that has a [name]. *)
Definition nameText (n : node) : option string :=
  match ts.name n with
  | Some p => escapedText p
  | None => None
  end.

(** ** The host *)

Class Host : Type := {
  getText : node -> string;
  numberToString : string -> string;
  toUpperCase : string -> string;
  toLowerCase : string -> string;
  trim : string -> string
}.

(** ** Plain objects used as dictionaries *)

Definition Obj (V : Type) : Type := list (string * V).

(** The property key that a value used as a key is coerced to. *)
Definition key (k : option string) : string := show k.

Definition keyOf (k : Nullable (option string)) : string :=
  match k with
  | Null => "null"
  | NotNull k => key k
  end.

(** [o[k]]. *)
Fixpoint get {V : Type} (k : string) (o : Obj V) : option V :=
  match o with
  | [] => None
  | (k', v) :: o' => if String.eqb k k' then Some v else get k o'
  end.

(** [o[k] = v]: an existing property keeps its place, a new one goes last. *)
Fixpoint set {V : Type} (k : string) (v : V) (o : Obj V) : Obj V :=
  match o with
  | [] => [(k, v)]
  | (k', v') :: o' =>
      if String.eqb k k' then (k, v) :: o' else (k', v') :: set k v o'
  end.

(** An array index is the canonical decimal form of an integer below
    [2^32 - 1]. *)
Fixpoint decimal (acc : N) (s : string) : option N :=
  match s with
  | EmptyString => Some acc
  | String c s' =>
      if is_digit c
      then decimal (acc * 10 + N.of_nat (nat_of_ascii c - 48)) s'
      else None
  end.

Definition arrayIndex (k : string) : option N :=
  match k with
  | EmptyString => None
  | String "0" EmptyString => Some 0%N
  | String "0" _ => None
  | _ =>
      match decimal 0 k with
      | Some n => if N.ltb n 4294967295 then Some n else None
      | None => None
      end
  end.

Fixpoint insertByIndex {V : Type} (n : N) (e : string * V)
  (l : list (N * (string * V))) : list (N * (string * V)) :=
  match l with
  | [] => [(n, e)]
  | (m, e') :: l' =>
      if N.ltb n m then (n, e) :: l else (m, e') :: insertByIndex n e l'
  end.

Fixpoint indexed {V : Type} (o : Obj V) : list (N * (string * V)) :=
  match o with
  | [] => []
  | (k, v) :: o' =>
      match arrayIndex k with
      | Some n => insertByIndex n (k, v) (indexed o')
      | None => indexed o'
      end
  end.

Definition stringKeys {V : Type} (o : Obj V) : Obj V :=
  filter (fun e => match arrayIndex (fst e) with Some _ => false | None => true end) o.

(** [Object.entries(o)]: the array indices in ascending order, then the
    other keys in insertion order. *)
Definition entries {V : Type} (o : Obj V) : list (string * V) :=
  (map snd (indexed o) ++ stringKeys o)%list.

(** The members that a plain object inherits from [Object.prototype]:
    eleven functions and the accessor [__proto__]. *)
Definition prototypeKeys : list string :=
  [ "constructor"; "__defineGetter__"; "__defineSetter__"; "hasOwnProperty";
    "__lookupGetter__"; "__lookupSetter__"; "isPrototypeOf";
    "propertyIsEnumerable"; "toString"; "valueOf"; "__proto__";
    "toLocaleString" ].

Definition inherited (k : string) : bool :=
  existsb (String.eqb k) prototypeKeys.

(** What [o[k]] finds: a property that the code has set, a member of
    [Object.prototype], or nothing ([undefined]). *)
Inductive Slot (V : Type) : Type :=
| Own (v : V)
| Proto (member : string)
| Absent.

Arguments Own {V} v.
Arguments Proto {V} member.
Arguments Absent {V}.

(** [o[k]]. *)
Definition read {V : Type} (k : string) (o : Obj V) : Slot V :=
  match get k o with
  | Some v => Own v
  | None => if inherited k then Proto k else Absent
  end.

(** A value that the code handles as a string: a string, or a member of
    [Object.prototype] that a dictionary of strings gave for an inherited
    key. *)
Inductive Value : Type :=
| Str (s : string)
| Member (k : string).

Coercion Str : string >-> Value.

(** [o[k]] for a dictionary of strings. *)
Definition lookup (k : string) (o : Obj string) : option Value :=
  match read k o with
  | Own s => Some (Str s)
  | Proto m => Some (Member m)
  | Absent => None
  end.

(** [member.name]: [constructor] is the function [Object]; [__proto__] is
    the prototype itself, an object without a [name]. *)
Definition memberName (k : string) : option string :=
  if String.eqb k "constructor" then Some "Object"
  else if String.eqb k "__proto__" then None
  else Some k.

(** [`${member}`], as Node prints a built-in function. *)
Definition memberText (k : string) : string :=
  match memberName k with
  | Some n => "function " ++ n ++ "() { [native code] }"
  | None => "[object Object]"
  end.

(** [`${v}`]. *)
Definition stringOf (v : Value) : string :=
  match v with
  | Str s => s
  | Member k => memberText k
  end.

(** The property key that a [Value] used as a key is coerced to. *)
Definition propertyKey (v : option Value) : string :=
  match v with
  | Some v => stringOf v
  | None => "undefined"
  end.

Definition isTruthy (v : Value) : bool :=
  match v with
  | Str s => nonempty s
  | Member _ => true
  end.

Definition value_eqb (a b : Value) : bool :=
  match a, b with
  | Str x, Str y | Member x, Member y => String.eqb x y
  | _, _ => false
  end.

(** [a === b]: two members are the same object when they have the same
    key. *)
Definition same (a b : option Value) : bool :=
  match a, b with
  | Some x, Some y => value_eqb x y
  | None, None => true
  | _, _ => false
  end.

(** [v === "lit"]. *)
Definition valueIs (v : Value) (lit : string) : bool := value_eqb v (Str lit).

(** ** Names *)

Section Naming.

Context {host : Host}.

Definition capitalize (w : string) : string :=
  match w with
  | EmptyString => ""
  | String c rest => toUpperCase (String c EmptyString) ++ rest
  end.

(** [pascal(w)]. *)
Definition pascal (w : option string) : string :=
  match w with
  | Some w => capitalize w
  | None => ""
  end.

Definition stripUnderscores (s : string) : string :=
  rev_string (drop_while is_underscore (rev_string (drop_while is_underscore s))).

(** [snakeToPascal(s)]. *)
Definition snakeToPascal (s : string) : string :=
  join ""
    (map capitalize (filter nonempty (split_underscore (stripUnderscores s)))).

Fixpoint insertUnderscores (s : string) : string :=
  match s with
  | String a ((String b _) as s') =>
      if is_lower a && is_upper b
      then String a (String "_" (insertUnderscores s'))
      else String a (insertUnderscores s')
  | _ => s
  end.

(** [toSnake(s)] of the relation collector. *)
Definition toSnake (s : string) : string := toLowerCase (insertUnderscores s).

End Naming.

(** ** Column descriptors *)

Inductive JsNumber : Type :=
| NumberOf (text : string).

Inductive DefaultValue : Type :=
| DNumber (n : JsNumber)
| DString (s : string)
| DBoolean (b : bool).

Record Column : Type := {
  col_type : Value;
  col_nullable : bool;
  col_name : option string;
  col_length : option JsNumber;
  col_precision : option JsNumber;
  col_scale : option JsNumber;
  col_enum : option (list string);
  col_primary : bool;
  col_unique : bool;
  col_array : bool;
  col_default : option DefaultValue;
  col_generated : option string;
  col_createDate : bool;
  col_updateDate : bool;
  col_referencesVar : option string;
  col_onDelete : option string;
  col_onUpdate : option string;
  col_cascade : bool
}.

(** [{ type: "text", nullable: true }]. *)
Definition textColumn : Column :=
  {| col_type := "text"; col_nullable := true; col_name := None;
     col_length := None; col_precision := None; col_scale := None;
     col_enum := None; col_primary := false; col_unique := false;
     col_array := false; col_default := None; col_generated := None;
     col_createDate := false; col_updateDate := false;
     col_referencesVar := None; col_onDelete := None; col_onUpdate := None;
     col_cascade := false |}.

(** [col.field = v], one function per property. *)
Definition with_type (v : Value) (c : Column) : Column :=
  {| col_type := v; col_nullable := col_nullable c; col_name := col_name c;
     col_length := col_length c; col_precision := col_precision c;
     col_scale := col_scale c; col_enum := col_enum c;
     col_primary := col_primary c; col_unique := col_unique c;
     col_array := col_array c; col_default := col_default c;
     col_generated := col_generated c; col_createDate := col_createDate c;
     col_updateDate := col_updateDate c;
     col_referencesVar := col_referencesVar c;
     col_onDelete := col_onDelete c; col_onUpdate := col_onUpdate c;
     col_cascade := col_cascade c |}.
Definition with_nullable (v : bool) (c : Column) : Column :=
  {| col_type := col_type c; col_nullable := v; col_name := col_name c;
     col_length := col_length c; col_precision := col_precision c;
     col_scale := col_scale c; col_enum := col_enum c;
     col_primary := col_primary c; col_unique := col_unique c;
     col_array := col_array c; col_default := col_default c;
     col_generated := col_generated c; col_createDate := col_createDate c;
     col_updateDate := col_updateDate c;
     col_referencesVar := col_referencesVar c;
     col_onDelete := col_onDelete c; col_onUpdate := col_onUpdate c;
     col_cascade := col_cascade c |}.
Definition with_name (v : option string) (c : Column) : Column :=
  {| col_type := col_type c; col_nullable := col_nullable c; col_name := v;
     col_length := col_length c; col_precision := col_precision c;
     col_scale := col_scale c; col_enum := col_enum c;
     col_primary := col_primary c; col_unique := col_unique c;
     col_array := col_array c; col_default := col_default c;
     col_generated := col_generated c; col_createDate := col_createDate c;
     col_updateDate := col_updateDate c;
     col_referencesVar := col_referencesVar c;
     col_onDelete := col_onDelete c; col_onUpdate := col_onUpdate c;
     col_cascade := col_cascade c |}.
Definition with_length (v : option JsNumber) (c : Column) : Column :=
  {| col_type := col_type c; col_nullable := col_nullable c;
     col_name := col_name c; col_length := v;
     col_precision := col_precision c; col_scale := col_scale c;
     col_enum := col_enum c; col_primary := col_primary c;
     col_unique := col_unique c; col_array := col_array c;
     col_default := col_default c; col_generated := col_generated c;
     col_createDate := col_createDate c; col_updateDate := col_updateDate c;
     col_referencesVar := col_referencesVar c;
     col_onDelete := col_onDelete c; col_onUpdate := col_onUpdate c;
     col_cascade := col_cascade c |}.
Definition with_precision (v : option JsNumber) (c : Column) : Column :=
  {| col_type := col_type c; col_nullable := col_nullable c;
     col_name := col_name c; col_length := col_length c; col_precision := v;
     col_scale := col_scale c; col_enum := col_enum c;
     col_primary := col_primary c; col_unique := col_unique c;
     col_array := col_array c; col_default := col_default c;
     col_generated := col_generated c; col_createDate := col_createDate c;
     col_updateDate := col_updateDate c;
     col_referencesVar := col_referencesVar c;
     col_onDelete := col_onDelete c; col_onUpdate := col_onUpdate c;
     col_cascade := col_cascade c |}.
Definition with_scale (v : option JsNumber) (c : Column) : Column :=
  {| col_type := col_type c; col_nullable := col_nullable c;
     col_name := col_name c; col_length := col_length c;
     col_precision := col_precision c; col_scale := v;
     col_enum := col_enum c; col_primary := col_primary c;
     col_unique := col_unique c; col_array := col_array c;
     col_default := col_default c; col_generated := col_generated c;
     col_createDate := col_createDate c; col_updateDate := col_updateDate c;
     col_referencesVar := col_referencesVar c;
     col_onDelete := col_onDelete c; col_onUpdate := col_onUpdate c;
     col_cascade := col_cascade c |}.
Definition with_enum (v : option (list string)) (c : Column) : Column :=
  {| col_type := col_type c; col_nullable := col_nullable c;
     col_name := col_name c; col_length := col_length c;
     col_precision := col_precision c; col_scale := col_scale c;
     col_enum := v; col_primary := col_primary c;
     col_unique := col_unique c; col_array := col_array c;
     col_default := col_default c; col_generated := col_generated c;
     col_createDate := col_createDate c; col_updateDate := col_updateDate c;
     col_referencesVar := col_referencesVar c;
     col_onDelete := col_onDelete c; col_onUpdate := col_onUpdate c;
     col_cascade := col_cascade c |}.
Definition with_primary (v : bool) (c : Column) : Column :=
  {| col_type := col_type c; col_nullable := col_nullable c;
     col_name := col_name c; col_length := col_length c;
     col_precision := col_precision c; col_scale := col_scale c;
     col_enum := col_enum c; col_primary := v; col_unique := col_unique c;
     col_array := col_array c; col_default := col_default c;
     col_generated := col_generated c; col_createDate := col_createDate c;
     col_updateDate := col_updateDate c;
     col_referencesVar := col_referencesVar c;
     col_onDelete := col_onDelete c; col_onUpdate := col_onUpdate c;
     col_cascade := col_cascade c |}.
Definition with_unique (v : bool) (c : Column) : Column :=
  {| col_type := col_type c; col_nullable := col_nullable c;
     col_name := col_name c; col_length := col_length c;
     col_precision := col_precision c; col_scale := col_scale c;
     col_enum := col_enum c; col_primary := col_primary c; col_unique := v;
     col_array := col_array c; col_default := col_default c;
     col_generated := col_generated c; col_createDate := col_createDate c;
     col_updateDate := col_updateDate c;
     col_referencesVar := col_referencesVar c;
     col_onDelete := col_onDelete c; col_onUpdate := col_onUpdate c;
     col_cascade := col_cascade c |}.
Definition with_array (v : bool) (c : Column) : Column :=
  {| col_type := col_type c; col_nullable := col_nullable c;
     col_name := col_name c; col_length := col_length c;
     col_precision := col_precision c; col_scale := col_scale c;
     col_enum := col_enum c; col_primary := col_primary c;
     col_unique := col_unique c; col_array := v;
     col_default := col_default c; col_generated := col_generated c;
     col_createDate := col_createDate c; col_updateDate := col_updateDate c;
     col_referencesVar := col_referencesVar c;
     col_onDelete := col_onDelete c; col_onUpdate := col_onUpdate c;
     col_cascade := col_cascade c |}.
Definition with_default (v : option DefaultValue) (c : Column) : Column :=
  {| col_type := col_type c; col_nullable := col_nullable c;
     col_name := col_name c; col_length := col_length c;
     col_precision := col_precision c; col_scale := col_scale c;
     col_enum := col_enum c; col_primary := col_primary c;
     col_unique := col_unique c; col_array := col_array c; col_default := v;
     col_generated := col_generated c; col_createDate := col_createDate c;
     col_updateDate := col_updateDate c;
     col_referencesVar := col_referencesVar c;
     col_onDelete := col_onDelete c; col_onUpdate := col_onUpdate c;
     col_cascade := col_cascade c |}.
Definition with_generated (v : option string) (c : Column) : Column :=
  {| col_type := col_type c; col_nullable := col_nullable c;
     col_name := col_name c; col_length := col_length c;
     col_precision := col_precision c; col_scale := col_scale c;
     col_enum := col_enum c; col_primary := col_primary c;
     col_unique := col_unique c; col_array := col_array c;
     col_default := col_default c; col_generated := v;
     col_createDate := col_createDate c; col_updateDate := col_updateDate c;
     col_referencesVar := col_referencesVar c;
     col_onDelete := col_onDelete c; col_onUpdate := col_onUpdate c;
     col_cascade := col_cascade c |}.
Definition with_createDate (v : bool) (c : Column) : Column :=
  {| col_type := col_type c; col_nullable := col_nullable c;
     col_name := col_name c; col_length := col_length c;
     col_precision := col_precision c; col_scale := col_scale c;
     col_enum := col_enum c; col_primary := col_primary c;
     col_unique := col_unique c; col_array := col_array c;
     col_default := col_default c; col_generated := col_generated c;
     col_createDate := v; col_updateDate := col_updateDate c;
     col_referencesVar := col_referencesVar c;
     col_onDelete := col_onDelete c; col_onUpdate := col_onUpdate c;
     col_cascade := col_cascade c |}.
Definition with_updateDate (v : bool) (c : Column) : Column :=
  {| col_type := col_type c; col_nullable := col_nullable c;
     col_name := col_name c; col_length := col_length c;
     col_precision := col_precision c; col_scale := col_scale c;
     col_enum := col_enum c; col_primary := col_primary c;
     col_unique := col_unique c; col_array := col_array c;
     col_default := col_default c; col_generated := col_generated c;
     col_createDate := col_createDate c; col_updateDate := v;
     col_referencesVar := col_referencesVar c;
     col_onDelete := col_onDelete c; col_onUpdate := col_onUpdate c;
     col_cascade := col_cascade c |}.
Definition with_referencesVar (v : option string) (c : Column) : Column :=
  {| col_type := col_type c; col_nullable := col_nullable c;
     col_name := col_name c; col_length := col_length c;
     col_precision := col_precision c; col_scale := col_scale c;
     col_enum := col_enum c; col_primary := col_primary c;
     col_unique := col_unique c; col_array := col_array c;
     col_default := col_default c; col_generated := col_generated c;
     col_createDate := col_createDate c; col_updateDate := col_updateDate c;
     col_referencesVar := v; col_onDelete := col_onDelete c;
     col_onUpdate := col_onUpdate c; col_cascade := col_cascade c |}.
Definition with_onDelete (v : option string) (c : Column) : Column :=
  {| col_type := col_type c; col_nullable := col_nullable c;
     col_name := col_name c; col_length := col_length c;
     col_precision := col_precision c; col_scale := col_scale c;
     col_enum := col_enum c; col_primary := col_primary c;
     col_unique := col_unique c; col_array := col_array c;
     col_default := col_default c; col_generated := col_generated c;
     col_createDate := col_createDate c; col_updateDate := col_updateDate c;
     col_referencesVar := col_referencesVar c; col_onDelete := v;
     col_onUpdate := col_onUpdate c; col_cascade := col_cascade c |}.
Definition with_onUpdate (v : option string) (c : Column) : Column :=
  {| col_type := col_type c; col_nullable := col_nullable c;
     col_name := col_name c; col_length := col_length c;
     col_precision := col_precision c; col_scale := col_scale c;
     col_enum := col_enum c; col_primary := col_primary c;
     col_unique := col_unique c; col_array := col_array c;
     col_default := col_default c; col_generated := col_generated c;
     col_createDate := col_createDate c; col_updateDate := col_updateDate c;
     col_referencesVar := col_referencesVar c;
     col_onDelete := col_onDelete c; col_onUpdate := v;
     col_cascade := col_cascade c |}.
Definition with_cascade (v : bool) (c : Column) : Column :=
  {| col_type := col_type c; col_nullable := col_nullable c;
     col_name := col_name c; col_length := col_length c;
     col_precision := col_precision c; col_scale := col_scale c;
     col_enum := col_enum c; col_primary := col_primary c;
     col_unique := col_unique c; col_array := col_array c;
     col_default := col_default c; col_generated := col_generated c;
     col_createDate := col_createDate c; col_updateDate := col_updateDate c;
     col_referencesVar := col_referencesVar c;
     col_onDelete := col_onDelete c; col_onUpdate := col_onUpdate c;
     col_cascade := v |}.

(** ** The expression classifier *)

Definition isStr (n : option node) : option string :=
  match n with Some (StringLiteral t) => Some t | _ => None end.
Definition isNum (n : option node) : option JsNumber :=
  match n with Some (NumericLiteral t) => Some (NumberOf t) | _ => None end.
Definition isArr (n : option node) : option (list node) :=
  match n with Some (ArrayLiteralExpression els) => Some els | _ => None end.
Definition isObj (n : option node) : option (list node) :=
  match n with Some (ObjectLiteralExpression props) => Some props | _ => None end.
Definition isPar (n : option node) : option node :=
  match n with Some (ParenthesizedExpression e) => Some e | _ => None end.

(** [isSqlTagged(n)]; the result is the template of the tagged node. *)
Definition isSqlTagged (n : option node) : option node :=
  match n with
  | Some (TaggedTemplateExpression tag template) =>
      if equals (escapedText tag) "sql" then Some template else None
  | _ => None
  end.

Definition typeMap : Obj string :=
  [ ("uuid", "uuid"); ("varchar", "varchar"); ("char", "char");
    ("text", "text"); ("bigint", "bigint"); ("int", "int");
    ("integer", "int"); ("smallint", "smallint"); ("numeric", "numeric");
    ("decimal", "decimal"); ("float", "float"); ("double", "double");
    ("boolean", "boolean"); ("timestamp", "timestamp");
    ("timestamptz", "timestamptz"); ("date", "date"); ("time", "time");
    ("json", "json"); ("jsonb", "jsonb"); ("geometry", "geometry");
    ("geography", "geography") ].

(** [toType(x) = typeMap[x] || "text"]. *)
Definition toType (x : option string) : Value :=
  match lookup (key x) typeMap with
  | Some t => if isTruthy t then t else "text"
  | None => "text"
  end.

Definition ORDER : list string :=
  [ "type"; "enum"; "precision"; "scale"; "length"; "name"; "array";
    "primary"; "generated"; "unique"; "nullable"; "default"; "createDate";
    "updateDate" ].

Definition JS_DOC_TYPE_MAP : Obj string :=
  [ ("uuid", "string"); ("varchar", "string"); ("char", "string");
    ("text", "string"); ("boolean", "boolean"); ("int", "number");
    ("integer", "number"); ("smallint", "number"); ("bigint", "number");
    ("numeric", "number"); ("decimal", "number"); ("float", "number");
    ("double", "number"); ("timestamp", "Date"); ("timestamptz", "Date");
    ("date", "Date"); ("time", "Date"); ("json", "object");
    ("jsonb", "object"); ("geometry", "object"); ("geography", "object") ].

(** [/current_timestamp/i.test(tx)]; an [undefined] subject is tested as the
    string ["undefined"]. *)
Definition mentionsCurrentTimestamp (tx : option string) : bool :=
  includes "current_timestamp" (fold_case_string (show tx)).

Definition unwrapSqlTag (n : option node) : option string :=
  match isSqlTagged n with
  | None => None
  | Some template =>
      if mentionsCurrentTimestamp (ts.text template)
      then Some "CURRENT_TIMESTAMP" else None
  end.

Definition overrideDefaultIfSqlTagged (arg0 : option node) : option string :=
  match unwrapSqlTag arg0 with
  | Some (String _ _ as marker) => Some (quote marker)
  | _ => None
  end.

(** ** The column extractor *)

Section ColumnExtractor.

Context {host : Host}.

(** The walk to the root of a call chain (first loop of [getColumn]). *)
Fixpoint chainRoot (root : node) : node :=
  match root with
  | CallExpression (PropertyAccessExpression inner _) _ => chainRoot inner
  | _ => root
  end.

(** An element of an [enum] array. *)
Definition enumMember (e : node) : string :=
  match e with
  | StringLiteral t => t
  | _ =>
      match nameText e with
      | Some n => n
      | None => getText e
      end
  end.

(** The body of the loop over the properties of the options object. *)
Definition columnOption (col : Column) (p : node) : Column :=
  match p with
  | PropertyAssignment pname v =>
      let k := escapedText pname in
      let col :=
        match isNum (Some v) with
        | Some n =>
            let col :=
              if equals k "length" then with_length (Some n) col else col in
            let col :=
              if equals k "precision" then with_precision (Some n) col
              else col in
            if equals k "scale" then with_scale (Some n) col else col
        | None => col
        end in
      let col :=
        match isArr (Some v) with
        | Some els =>
            if equals k "enum"
            then with_type "enum" (with_enum (Some (map enumMember els)) col)
            else col
        | None => col
        end in
      if equals k "withTimezone" && isTrue v
      then with_type "timestamptz" col else col
  | _ => col
  end.

(** The value that [default(arg)] stores. *)
Definition defaultValue (arg : option node) : option DefaultValue :=
  match overrideDefaultIfSqlTagged arg with
  | Some sqlDefault => Some (DString sqlDefault)
  | None =>
      match arg with
      | None => Some (DBoolean true)
      | Some (NumericLiteral t) => Some (DNumber (NumberOf t))
      | Some (StringLiteral t) => Some (DString (quote t))
      | Some TrueKeyword => Some (DBoolean true)
      | Some FalseKeyword => Some (DBoolean false)
      | Some _ => None
      end
  end.

(** The body of the loop over the second argument of [references]. *)
Definition referenceOption (col : Column) (p : node) : Column :=
  match p with
  | PropertyAssignment pname v =>
      let k := escapedText pname in
      let col :=
        match isStr (Some v) with
        | Some t =>
            let col := if equals k "onDelete" then with_onDelete (Some t) col else col in
            if equals k "onUpdate" then with_onUpdate (Some t) col else col
        | None => col
        end in
      if equals k "cascade" && isTrue v then with_cascade true col else col
  | _ => col
  end.

(** The case [references] of the [switch]. *)
Definition references (args : list node) (col : Column) : result Column :=
  let arg := nth_error args 0 in
  arrow <- ts.test isArrowFunction arg ;;
  let col :=
    match arg with
    | Some (ArrowFunction (PropertyAccessExpression e _)) =>
        with_referencesVar (escapedText e) col
    | _ => col
    end in
  Ok match isObj (nth_error args 1) with
     | Some props => fold_left referenceOption props col
     | None => col
     end.

(** One frame of the call chain: the [switch] on the method name. *)
Definition modifier (name : option string) (callee : node) (args : list node)
  (col : Column) : result Column :=
  let method := nameText callee in
  let arg := nth_error args 0 in
  if equals method "notNull" then Ok (with_nullable false col)
  else if equals method "primaryKey"
  then Ok (with_nullable false (with_primary true col))
  else if equals method "unique" then Ok (with_unique true col)
  else if equals method "array" then Ok (with_array true col)
  else if equals method "$onUpdate" then Ok (with_updateDate true col)
  else if equals method "default"
  then Ok (with_default (defaultValue arg) col)
  else if equals method "defaultRandom"
  then Ok (with_nullable false
             (with_type "uuid" (with_generated (Some "uuid") col)))
  else if equals method "defaultNow"
  then Ok (if equals name "createdAt" then col
           else with_default (Some (DBoolean true)) col)
  else if equals method "references" then references args col
  else Ok col.

(** The walk over the frames of the chain (second loop of [getColumn]),
    from [call.expression.expression] to the next frame. *)
Fixpoint modifiers (name : option string) (call : node) (col : Column)
  : result Column :=
  match call with
  | CallExpression callee args =>
      col' <- modifier name callee args col ;;
      match callee with
      | ParenthesizedExpression next
      | CallExpression next _
      | PropertyAccessExpression next _
      | OtherNode (Some next) _ _ _ _ => modifiers name next col'
      | _ => Ok col'
      end
  | _ => Ok col
  end.

(** The overrides by naming convention that end [getColumn]. *)
Definition conventions (name : option string) (col : Column) : Column :=
  let col :=
    if equals name "createdAt"
    then with_nullable false (with_createDate true col) else col in
  if equals name "updatedAt" then with_updateDate true col else col.

(** [root.expression?.escapedText]. *)
Definition rootTarget (root : node) : option string :=
  match ts.expression root with
  | Some e => escapedText e
  | None => None
  end.

Definition getColumn (init : node) (name : option string) : result Column :=
  let col := textColumn in
  if negb (isCallExpression init) then Ok col
  else
    let root := chainRoot init in
    let col := with_type (toType (rootTarget root)) col in
    match ts.arguments root with
    | None => Throw not_iterable
    | Some args =>
        let nameArg := nth_error args 0 in
        let opts := nth_error args 1 in
        let col :=
          match isStr nameArg with
          | Some t => if opt_eqb (Some t) name then col else with_name (Some t) col
          | None => col
          end in
        let col :=
          match isObj opts with
          | Some props => fold_left columnOption props col
          | None => col
          end in
        col <- modifiers name init col ;;
        Ok (conventions name col)
    end.

End ColumnExtractor.

(** ** The entity model *)

Inductive RelType : Type :=
| OneToMany
| ManyToOne
| OneToOne
| ManyToMany.

Definition relTypeText (t : RelType) : string :=
  match t with
  | OneToMany => "one-to-many"
  | ManyToOne => "many-to-one"
  | OneToOne => "one-to-one"
  | ManyToMany => "many-to-many"
  end.

Record Relation : Type := {
  fromEntity : option Value;
  fromVar : option string;
  localName : option string;
  toEntity : Value;
  toVar : string;
  relType : RelType;
  inverseSide : Nullable (option string);
  origKind : option string;
  customName : option string;
  onDelete : option string;
  onUpdate : option string;
  cascade : bool;
  joinColumnName : option string;
  isOwner : bool
}.

Record Index : Type := {
  idx_name : option string;
  idx_columns : list (option string);
  idx_unique : bool
}.

Record Entity : Type := {
  tableName : Nullable string;
  columns : Obj Column;
  relations : list Relation;
  indices : list Index
}.

Definition with_columns (v : Obj Column) (e : Entity) : Entity :=
  {| tableName := tableName e; columns := v; relations := relations e;
     indices := indices e |}.
Definition with_relations (v : list Relation) (e : Entity) : Entity :=
  {| tableName := tableName e; columns := columns e; relations := v;
     indices := indices e |}.
Definition with_indices (v : list Index) (e : Entity) : Entity :=
  {| tableName := tableName e; columns := columns e;
     relations := relations e; indices := v |}.

(** The maps and the array that one run of [convertSchemas] builds. *)
Record Context : Type := {
  var2entity : Obj string;
  entity2file : Obj string;
  entityData : Obj Entity;
  relationStubs : list Relation
}.

Definition emptyContext : Context :=
  {| var2entity := []; entity2file := []; entityData := [];
     relationStubs := [] |}.

Definition with_entityData (v : Obj Entity) (c : Context) : Context :=
  {| var2entity := var2entity c; entity2file := entity2file c;
     entityData := v; relationStubs := relationStubs c |}.
Definition with_relationStubs (v : list Relation) (c : Context) : Context :=
  {| var2entity := var2entity c; entity2file := entity2file c;
     entityData := entityData c; relationStubs := v |}.

Record InputFile : Type := {
  fileName : string;
  content : string
}.

(** ** Pass 1: the entity registry *)

Section Registry.

Context {host : Host}.

Definition register (file : string) (c : Context) (d : VariableDeclaration)
  : Context :=
  match decl_initializer d with
  | Some (CallExpression callee args) =>
      if String.eqb (getText callee) "pgTable"
      then
        let ent :=
          match isStr (nth_error args 0) with
          | Some t => snakeToPascal t
          | None => pascal (escapedText (decl_name d))
          end in
        {| var2entity := set (key (escapedText (decl_name d))) ent (var2entity c);
           entity2file := set ent file (entity2file c);
           entityData := entityData c;
           relationStubs := relationStubs c |}
      else c
  | _ => c
  end.

Definition registerStatement (file : string) (c : Context) (n : statement)
  : Context :=
  match n with
  | VariableStatement ds => fold_left (register file) ds c
  | OtherStatement => c
  end.

Definition registerFile (c : Context) (f : string * SourceFile) : Context :=
  fold_left (registerStatement (fst f)) (snd f) c.

End Registry.

(** ** Pass 2: the table extras *)

(** The members of a composite primary key: [Object.assign] on each named
    column that exists.  For a name that is not a column but a member of
    [Object.prototype], the two properties are set on that member, a
    function from which nothing reads them (the member is never the
    prototype itself, as no [escapedText] is [__proto__]). *)
Definition keyMember (cols : Obj Column) (colEl : node) : Obj Column :=
  match nameText colEl with
  | Some (String _ _ as colName) =>
      match read colName cols with
      | Own c => set colName (with_nullable false (with_primary true c)) cols
      | Proto _ => cols
      | Absent => cols
      end
  | _ => cols
  end.

Definition keyProperty (cols : Obj Column) (p : node) : Obj Column :=
  match p with
  | PropertyAssignment pname (ArrayLiteralExpression els) =>
      if equals (escapedText pname) "columns"
      then fold_left keyMember els cols else cols
  | _ => cols
  end.

Definition compositeKey (cols : Obj Column) (args : list node) : Obj Column :=
  match isObj (nth_error args 0) with
  | Some props => fold_left keyProperty props cols
  | None => cols
  end.

(** The walk from an index entry to the call that the [on] calls hang on. *)
Fixpoint onRoot (c : node) : node :=
  match c with
  | CallExpression (PropertyAccessExpression inner method) _ =>
      if equals (escapedText method) "on" then onRoot inner else c
  | _ => c
  end.

(** The second walk over the same [on] calls, which pushes the column of
    each one as it goes. *)
Fixpoint onColumns (c : node) (cols : list (option string))
  : result (list (option string)) :=
  match c with
  | CallExpression (PropertyAccessExpression inner method) args =>
      if equals (escapedText method) "on"
      then
        let arg := nth_error args 0 in
        access <- ts.test isPropertyAccessExpression arg ;;
        let cols :=
          match arg with
          | Some (PropertyAccessExpression _ column) =>
              (cols ++ [escapedText column])%list
          | _ => cols
          end in
        onColumns inner cols
      else Ok cols
  | _ => Ok cols
  end.

(** The index that an entry of the third argument declares, if it does. *)
Definition indexEntry (e : node) : result (option Index) :=
  match onRoot e with
  | CallExpression marker rootArgs =>
      if equals (escapedText marker) "index"
         || equals (escapedText marker) "uniqueIndex"
      then
        let idxName :=
          match nth_error rootArgs 0 with
          | Some a => ts.text a
          | None => None
          end in
        let unique := equals (escapedText marker) "uniqueIndex" in
        cols <- onColumns e [] ;;
        Ok (Some {| idx_name := idxName; idx_columns := cols;
                    idx_unique := unique |})
      else Ok None
  | _ => Ok None
  end.

(** One element of the array that the third argument returns; the state is
    the column map of the declaration and the indices it has pushed.
    [entity] tells whether [entityData[entName]] is an entity: when it is a
    member of [Object.prototype], it has no [indices] to push to. *)
Definition tableExtra (entity : bool) (st : Obj Column * list Index) (e : node)
  : result (Obj Column * list Index) :=
  let (cols, ixs) := st in
  match e with
  | CallExpression callee args =>
      if equals (escapedText callee) "primaryKey"
      then Ok (compositeKey cols args, ixs)
      else
        ix <- indexEntry e ;;
        match ix with
        | Some ix =>
            if entity then Ok (cols, (ixs ++ [ix])%list)
            else Throw cannot_read_push
        | None => Ok (cols, ixs)
        end
  | _ => Ok st
  end.

Definition tableExtras (entity : bool) (pkFactory : option node)
  (cols : Obj Column) : result (Obj Column * list Index) :=
  match pkFactory with
  | Some (ArrowFunction (ArrayLiteralExpression els)) =>
      forEach (tableExtra entity) els (cols, [])
  | _ => Ok (cols, [])
  end.

Section Tables.

Context {host : Host}.

Definition columnProperty (cols : Obj Column) (p : node) : result (Obj Column) :=
  match p with
  | PropertyAssignment pname init =>
      col <- getColumn init (escapedText pname) ;;
      Ok (set (key (escapedText pname)) col cols)
  | _ => Ok cols
  end.

(** The key of [entityData] for the table that [d] declares:
    [var2entity[d.name.escapedText]] as a property key. *)
Definition entityName (c : Context) (d : VariableDeclaration) : string :=
  propertyKey (lookup (key (escapedText (decl_name d))) (var2entity c)).

(** A [pgTable] declaration.  The column map of the declaration is the one
    of the entity only when the declaration is the first for its entity
    ([??=]); the indices always go to the entity.  When the entity name is
    the name of a member of [Object.prototype], [??=] finds that member and
    assigns nothing. *)
Definition tableDeclaration (c : Context) (d : VariableDeclaration)
  (args : list node) : result Context :=
  let tableName :=
    match isStr (nth_error args 0) with
    | Some t => NotNull t
    | None => Null
    end in
  let entName := entityName c d in
  let found := read entName (entityData c) in
  cols <- match isObj (nth_error args 1) with
          | Some props => forEach columnProperty props []
          | None => Ok []
          end ;;
  extras <- tableExtras match found with Proto _ => false | _ => true end
                        (nth_error args 2) cols ;;
  let (cols, ixs) := extras in
  let ent :=
    match found with
    | Own ent => ent
    | _ => {| tableName := tableName; columns := cols; relations := [];
              indices := [] |}
    end in
  let ent := with_indices (indices ent ++ ixs)%list ent in
  Ok match found with
     | Proto _ => c
     | _ => with_entityData (set entName ent (entityData c)) c
     end.

End Tables.

(** ** Pass 3: the relation collector *)

(** [relation.field = v], for the properties that are assigned after the stub
    is created. *)
Definition set_relType (v : RelType) (r : Relation) : Relation :=
  {| fromEntity := fromEntity r; fromVar := fromVar r;
     localName := localName r; toEntity := toEntity r; toVar := toVar r;
     relType := v; inverseSide := inverseSide r; origKind := origKind r;
     customName := customName r; onDelete := onDelete r;
     onUpdate := onUpdate r; cascade := cascade r;
     joinColumnName := joinColumnName r; isOwner := isOwner r |}.
Definition set_inverseSide (v : Nullable (option string)) (r : Relation) : Relation :=
  {| fromEntity := fromEntity r; fromVar := fromVar r;
     localName := localName r; toEntity := toEntity r; toVar := toVar r;
     relType := relType r; inverseSide := v; origKind := origKind r;
     customName := customName r; onDelete := onDelete r;
     onUpdate := onUpdate r; cascade := cascade r;
     joinColumnName := joinColumnName r; isOwner := isOwner r |}.
Definition set_customName (v : option string) (r : Relation) : Relation :=
  {| fromEntity := fromEntity r; fromVar := fromVar r;
     localName := localName r; toEntity := toEntity r; toVar := toVar r;
     relType := relType r; inverseSide := inverseSide r;
     origKind := origKind r; customName := v; onDelete := onDelete r;
     onUpdate := onUpdate r; cascade := cascade r;
     joinColumnName := joinColumnName r; isOwner := isOwner r |}.
Definition set_onDelete (v : option string) (r : Relation) : Relation :=
  {| fromEntity := fromEntity r; fromVar := fromVar r;
     localName := localName r; toEntity := toEntity r; toVar := toVar r;
     relType := relType r; inverseSide := inverseSide r;
     origKind := origKind r; customName := customName r; onDelete := v;
     onUpdate := onUpdate r; cascade := cascade r;
     joinColumnName := joinColumnName r; isOwner := isOwner r |}.
Definition set_onUpdate (v : option string) (r : Relation) : Relation :=
  {| fromEntity := fromEntity r; fromVar := fromVar r;
     localName := localName r; toEntity := toEntity r; toVar := toVar r;
     relType := relType r; inverseSide := inverseSide r;
     origKind := origKind r; customName := customName r;
     onDelete := onDelete r; onUpdate := v; cascade := cascade r;
     joinColumnName := joinColumnName r; isOwner := isOwner r |}.
Definition set_cascade (v : bool) (r : Relation) : Relation :=
  {| fromEntity := fromEntity r; fromVar := fromVar r;
     localName := localName r; toEntity := toEntity r; toVar := toVar r;
     relType := relType r; inverseSide := inverseSide r;
     origKind := origKind r; customName := customName r;
     onDelete := onDelete r; onUpdate := onUpdate r; cascade := v;
     joinColumnName := joinColumnName r; isOwner := isOwner r |}.
Definition set_joinColumnName (v : option string) (r : Relation) : Relation :=
  {| fromEntity := fromEntity r; fromVar := fromVar r;
     localName := localName r; toEntity := toEntity r; toVar := toVar r;
     relType := relType r; inverseSide := inverseSide r;
     origKind := origKind r; customName := customName r;
     onDelete := onDelete r; onUpdate := onUpdate r; cascade := cascade r;
     joinColumnName := v; isOwner := isOwner r |}.
Definition set_isOwner (v : bool) (r : Relation) : Relation :=
  {| fromEntity := fromEntity r; fromVar := fromVar r;
     localName := localName r; toEntity := toEntity r; toVar := toVar r;
     relType := relType r; inverseSide := inverseSide r;
     origKind := origKind r; customName := customName r;
     onDelete := onDelete r; onUpdate := onUpdate r; cascade := cascade r;
     joinColumnName := joinColumnName r; isOwner := v |}.

(** [opts] supplies a [fields] array. *)
Definition hasFields (opts : option node) : bool :=
  match isObj opts with
  | Some props =>
      existsb (fun p =>
                 match p with
                 | PropertyAssignment pname (ArrayLiteralExpression _) =>
                     equals (escapedText pname) "fields"
                 | _ => false
                 end) props
  | None => false
  end.

(** The relation type that a relation-builder call is given when it is
    collected. *)
Definition inferRelType (kind : option string) (opts : option node) : RelType :=
  if equals kind "many" then OneToMany
  else if equals kind "one"
  then (if hasFields opts then ManyToOne else OneToOne)
  else if equals kind "oneToOne" then OneToOne
  else ManyToOne.

(** The body of the loop over the options of a relation-builder call; the
    state is the stub and [fkPropName]. *)
Definition relationOption (st : Relation * Nullable (option string)) (p : node)
  : Relation * Nullable (option string) :=
  let (relation, fkPropName) := st in
  match p with
  | PropertyAssignment pname v =>
      let k := escapedText pname in
      let relation :=
        match isStr (Some v) with
        | Some t =>
            let relation :=
              if equals k "relationName" then set_customName (Some t) relation
              else if equals k "onDelete" then set_onDelete (Some t) relation
              else relation in
            if equals k "onUpdate" then set_onUpdate (Some t) relation
            else relation
        | None => relation
        end in
      let relation :=
        if equals k "cascade" && isTrue v then set_cascade true relation
        else relation in
      let fkPropName :=
        match v with
        | ArrayLiteralExpression (el :: _) =>
            if equals k "fields"
            then match el with
                 | PropertyAccessExpression _ field => NotNull (escapedText field)
                 | _ => fkPropName
                 end
            else fkPropName
        | _ => fkPropName
        end in
      (relation, fkPropName)
  | _ => st
  end.

Definition truthyKey (fk : Nullable (option string)) : bool :=
  match fk with
  | Null => false
  | NotNull k => truthy k
  end.

(** The first column, in the order of [Object.entries], whose
    [referencesVar] is the variable of the source entity. *)
Definition referencingColumn (fromVar : option string) (targetCols : Obj Column)
  : option string :=
  match find (fun e => opt_eqb (col_referencesVar (snd e)) fromVar)
             (entries targetCols) with
  | Some e => Some (fst e)
  | None => None
  end.

(** [entityData[entity]?.columns]: a member of [Object.prototype] has no
    [columns]. *)
Definition entityColumns (data : Obj Entity) (entity : string)
  : option (Obj Column) :=
  match read entity data with
  | Own ent => Some (columns ent)
  | Proto _ => None
  | Absent => None
  end.

(** [entityData[entity]?.columns?.[fk]]. *)
Definition columnOf (data : Obj Entity) (entity : string)
  (fk : Nullable (option string)) : Slot Column :=
  match entityColumns data entity with
  | Some cols => read (keyOf fk) cols
  | None => Absent
  end.

(** [col?.name], when it is truthy. *)
Definition physicalName (c : Slot Column) : option string :=
  match c with
  | Own c => if truthy (col_name c) then col_name c else None
  | Proto m => if truthy (memberName m) then memberName m else None
  | Absent => None
  end.

Section Collector.

Context {host : Host}.

(** One property of the object that a [relations] declaration returns. *)
Definition relationProperty (fromVar : option string) (c : Context) (rp : node)
  : Context :=
  match rp with
  | PropertyAssignment pname (CallExpression callee args) =>
      let localName := escapedText pname in
      let kind := escapedText callee in
      let targVar :=
        match nth_error args 0 with
        | Some a => escapedText a
        | None => None
        end in
      match targVar with
      | Some (String _ _ as targVar) =>
          let opts := nth_error args 1 in
          let relType := inferRelType kind opts in
          let relation :=
            {| fromEntity := lookup (key fromVar) (var2entity c);
               fromVar := fromVar;
               localName := localName;
               toEntity :=
                 match lookup targVar (var2entity c) with
                 | Some ent => if isTruthy ent then ent
                               else Str (pascal (Some targVar))
                 | None => Str (pascal (Some targVar))
                 end;
               toVar := targVar;
               relType := relType;
               inverseSide := Null;
               origKind := kind;
               customName := None; onDelete := None; onUpdate := None;
               cascade := false; joinColumnName := None; isOwner := false |} in
          let (relation, fkPropName) :=
            match isObj opts with
            | Some props => fold_left relationOption props (relation, Null)
            | None => (relation, Null)
            end in
          let fk :=
            if truthyKey fkPropName then fkPropName
            else
              let targetCols :=
                match entityColumns (entityData c)
                        (stringOf (toEntity relation)) with
                | Some cols => cols
                | None => []
                end in
              match referencingColumn fromVar targetCols with
              | Some colName => NotNull (Some colName)
              | None => fkPropName
              end in
          let relation :=
            match fk with
            | NotNull (Some (String _ _ as fkName)) =>
                let owning :=
                  physicalName
                    (columnOf (entityData c)
                       (propertyKey (fromEntity relation)) fk) in
                let referenced :=
                  physicalName
                    (columnOf (entityData c) (stringOf (toEntity relation))
                       fk) in
                set_joinColumnName
                  (match owning, referenced with
                   | Some n, _ => Some n
                   | None, Some n => Some n
                   | None, None => Some (toSnake fkName)
                   end) relation
            | _ => relation
            end in
          let relation :=
            match columnOf (entityData c)
                    (propertyKey (fromEntity relation)) fk with
            | Own col =>
                let relation :=
                  if truthy (col_onDelete col) && negb (truthy (onDelete relation))
                  then set_onDelete (col_onDelete col) relation else relation in
                let relation :=
                  if truthy (col_onUpdate col) && negb (truthy (onUpdate relation))
                  then set_onUpdate (col_onUpdate col) relation else relation in
                if col_cascade col && negb (cascade relation)
                then set_cascade (col_cascade col) relation else relation
            | Proto _ => relation
            | Absent => relation
            end in
          with_relationStubs (relationStubs c ++ [relation])%list c
      | _ => c
      end
  | _ => c
  end.

(** A [relations] declaration. *)
Definition relationsDeclaration (c : Context) (args : list node)
  : result Context :=
  let fromVar :=
    match nth_error args 0 with
    | Some a => escapedText a
    | None => None
    end in
  let fn := nth_error args 1 in
  arrow <- ts.test isArrowFunction fn ;;
  match fn with
  | Some (ArrowFunction body) =>
      let body :=
        match isPar (Some body) with
        | Some inner => inner
        | None => body
        end in
      match isObj (Some body) with
      | Some props => Ok (fold_left (relationProperty fromVar) props c)
      | None => Ok c
      end
  | _ => Ok c
  end.

(** One variable declaration of pass 2. *)
Definition declaration (c : Context) (d : VariableDeclaration) : result Context :=
  match decl_initializer d with
  | Some (CallExpression callee args) =>
      c <- (if equals (escapedText callee) "pgTable"
            then tableDeclaration c d args else Ok c) ;;
      if equals (escapedText callee) "relations"
      then relationsDeclaration c args else Ok c
  | _ => Ok c
  end.

Definition collectStatement (c : Context) (n : statement) : result Context :=
  match n with
  | VariableStatement ds => forEach declaration ds c
  | OtherStatement => Ok c
  end.

Definition collectFile (c : Context) (f : string * SourceFile) : result Context :=
  forEach collectStatement (snd f) c.

End Collector.

(** ** The relation resolver *)

(** [arr[i] = f(arr[i])]: the mutation of the object at index [i]. *)
Fixpoint update {A : Type} (i : nat) (f : A -> A) (l : list A) : list A :=
  match l, i with
  | [], _ => []
  | x :: l', O => f x :: l'
  | x :: l', S i' => x :: update i' f l'
  end.

(** [arr.findIndex(p)]; [arr.find(p)] is the element at that index. *)
Fixpoint findIndex {A : Type} (p : A -> bool) (l : list A) : option nat :=
  match l with
  | [] => None
  | x :: l' =>
      if p x then Some O
      else match findIndex p l' with
           | Some j => Some (S j)
           | None => None
           end
  end.

(** [x.inverseSide] is truthy. *)
Definition paired (x : Relation) : bool :=
  match inverseSide x with
  | Null => false
  | NotNull n => truthy n
  end.

(** The predicate of the [find] that looks for the inverse of [r1]. *)
Definition reverseOf (r1 x : Relation) : bool :=
  same (fromEntity x) (Some (toEntity r1))
  && same (Some (toEntity x)) (fromEntity r1)
  && negb (paired x).

(** The assignments made when [r1], at index [i], has found [r2], at index
    [j]; [i] and [j] may be the same index. *)
Definition pair (i j : nat) (r1 r2 : Relation) (stubs : list Relation)
  : list Relation :=
  let stubs := update i (set_inverseSide (NotNull (localName r2))) stubs in
  let stubs := update j (set_inverseSide (NotNull (localName r1))) stubs in
  if equals (origKind r1) "many" && equals (origKind r2) "many"
  then
    let stubs := update j (set_relType ManyToMany) stubs in
    let stubs := update i (set_relType ManyToMany) stubs in
    update i (set_isOwner true) stubs
  else if equals (origKind r1) "one" && equals (origKind r2) "one"
  then
    let stubs := update j (set_relType OneToOne) stubs in
    let stubs := update i (set_relType OneToOne) stubs in
    if truthy (joinColumnName r1) then update i (set_isOwner true) stubs
    else if truthy (joinColumnName r2) then update j (set_isOwner true) stubs
    else stubs
  else stubs.

(** The body of the resolver's loop for the stub at index [i]. *)
Definition resolveAt (stubs : list Relation) (i : nat) : list Relation :=
  match nth_error stubs i with
  | Some r1 =>
      if paired r1 then stubs
      else
        match findIndex (reverseOf r1) stubs with
        | Some j =>
            match nth_error stubs j with
            | Some r2 => pair i j r1 r2 stubs
            | None => stubs
            end
        | None => stubs
        end
  | None => stubs
  end.

Definition resolve (stubs : list Relation) : list Relation :=
  fold_left resolveAt (seq 0 (length stubs)) stubs.

(** The loop that appends each stub to the relations of its entity. *)
Definition attach (data : Obj Entity) (r : Relation) : result (Obj Entity) :=
  match read (propertyKey (fromEntity r)) data with
  | Absent => Throw cannot_read_relations
  | Proto _ => Throw cannot_read_some
  | Own ent =>
      if existsb (fun x => opt_eqb (localName x) (localName r)) (relations ent)
      then Ok data
      else Ok (set (propertyKey (fromEntity r))
                   (with_relations (relations ent ++ [r])%list ent) data)
  end.

(** ** The code emitter *)

Infix "+++" := app (right associativity, at level 60).

Inductive FieldValue : Type :=
| VString (s : string)
| VNumber (n : JsNumber)
| VBoolean (b : bool)
| VArray (l : list string)
| VMember (k : string).

Definition flag (b : bool) : option FieldValue :=
  if b then Some (VBoolean true) else None.

(** [cfg[k]] for a [k] of [ORDER]; [None] is [undefined]. *)
Definition field (k : string) (cfg : Column) : option FieldValue :=
  if String.eqb k "type"
  then Some match col_type cfg with
            | Str t => VString t
            | Member m => VMember m
            end
  else if String.eqb k "enum" then option_map VArray (col_enum cfg)
  else if String.eqb k "precision" then option_map VNumber (col_precision cfg)
  else if String.eqb k "scale" then option_map VNumber (col_scale cfg)
  else if String.eqb k "length" then option_map VNumber (col_length cfg)
  else if String.eqb k "name" then option_map VString (col_name cfg)
  else if String.eqb k "array" then flag (col_array cfg)
  else if String.eqb k "primary" then flag (col_primary cfg)
  else if String.eqb k "generated" then option_map VString (col_generated cfg)
  else if String.eqb k "unique" then flag (col_unique cfg)
  else if String.eqb k "nullable" then Some (VBoolean (col_nullable cfg))
  else if String.eqb k "default"
  then match col_default cfg with
       | Some (DNumber n) => Some (VNumber n)
       | Some (DString s) => Some (VString s)
       | Some (DBoolean b) => Some (VBoolean b)
       | None => None
       end
  else if String.eqb k "createDate" then flag (col_createDate cfg)
  else if String.eqb k "updateDate" then flag (col_updateDate cfg)
  else None.

Definition lineTerminator (c : ascii) : bool :=
  Ascii.eqb c "010" || Ascii.eqb c "013".

Fixpoint all_chars (f : ascii -> bool) (s : string) : bool :=
  match s with
  | EmptyString => true
  | String c s' => f c && all_chars f s'
  end.

(** [/^'.*'$/.test(v)]. *)
Definition quoted (v : string) : bool :=
  Nat.leb 2 (String.length v) && starts_with "'" v && ends_with "'" v
  && all_chars (fun c => negb (lineTerminator c)) v.

Definition showBoolean (b : bool) : string := if b then "true" else "false".

(** [v.replace(/,$/, "")]. *)
Fixpoint dropFinalComma (s : string) : string :=
  match s with
  | EmptyString => EmptyString
  | String "," EmptyString => EmptyString
  | String c s' => String c (dropFinalComma s')
  end.

Definition is_word (c : ascii) : bool :=
  is_lower c || is_upper c || is_digit c || is_underscore c.

Fixpoint take_while (f : ascii -> bool) (s : string) : string :=
  match s with
  | EmptyString => EmptyString
  | String c s' => if f c then String c (take_while f s') else EmptyString
  end.

(** [s.match(/^(\w+):/)?.[1]]. *)
Definition entityMatch (s : string) : option string :=
  match take_while is_word s with
  | EmptyString => None
  | w => if starts_with ":" (drop_while is_word s) then Some w else None
  end.

(** [tsFile.replace(/\.ts$/, ".js")]. *)
Definition outputName (tsFile : string) : string :=
  if ends_with ".ts" tsFile
  then substring 0 (String.length tsFile - 3) tsFile ++ ".js"
  else tsFile.

Section Emitter.

Context {host : Host}.

(** [`${v}`]. *)
Definition showValue (v : FieldValue) : string :=
  match v with
  | VString s => s
  | VNumber (NumberOf t) => numberToString t
  | VBoolean b => showBoolean b
  | VArray l => join "," l
  | VMember k => memberText k
  end.

Definition printColumnField (k : string) (v : FieldValue) (cfg : Column)
  : string :=
  if String.eqb k "enum"
  then
    if valueIs (col_type cfg) "enum"
    then "        enum: ["
         ++ join ", " (map quote match v with VArray l => l | _ => [] end)
         ++ "],"
    else ""
  else
    match v with
    | VString s =>
        if negb (quoted s) then "        " ++ k ++ ": '" ++ s ++ "',"
        else "        " ++ k ++ ": " ++ s ++ ","
    | _ => "        " ++ k ++ ": " ++ showValue v ++ ","
    end.

Definition when (b : bool) (lines : list string) : list string :=
  if b then lines else [].

Definition printRelation (r : Relation) : string :=
  let one := match relType r with ManyToOne | OneToOne => true | _ => false end in
  join (String "010" "")
    ([ "      " ++ show (localName r) ++ ": {";
       "        target: '" ++ stringOf (toEntity r) ++ "',";
       "        type: '" ++ relTypeText (relType r) ++ "'," ]
     +++ when (paired r)
          [ "        inverseSide: '"
            ++ match inverseSide r with NotNull n => show n | Null => "null" end
            ++ "'," ]
     +++ when (match relType r with OneToMany => false | _ => true end
              && truthy (joinColumnName r))
          [ "        joinColumn: { name: '" ++ show (joinColumnName r) ++ "' }," ]
     +++ when (match relType r with ManyToMany => true | _ => false end
              && isOwner r)
          [ "        joinTable: true," ]
     +++ when (one && truthy (onDelete r))
          [ "        onDelete: '" ++ show (onDelete r) ++ "'," ]
     +++ when (one && truthy (onUpdate r))
          [ "        onUpdate: '" ++ show (onUpdate r) ++ "'," ]
     +++ when (cascade r) [ "        cascade: true," ]
     +++ [ "      }," ]).

(** The lines of one column of the columns block. *)
Definition printColumn (col : string) (cfg : Column) : list string :=
  ([ "      " ++ col ++ ": {" ]
   +++ flat_map
        (fun k =>
           if String.eqb k "length" && valueIs (col_type cfg) "enum" then []
           else match field k cfg with
                | None => []
                | Some v =>
                    match printColumnField k v cfg with
                    | EmptyString => []
                    | line => [line]
                    end
                end) ORDER
   +++ [ "      }," ]).

Definition printIndex (ix : Index) : string :=
  "      { name: '" ++ show (idx_name ix) ++ "', columns: ["
  ++ join ", " (map (fun c => quote (show c)) (idx_columns ix)) ++ "]"
  ++ (if idx_unique ix then ", unique: true" else "") ++ " },".

(** The schema text of one entity. *)
Definition printEntity (entity : string) (data : Entity) : string :=
  trim (join (String "010" "")
    ([ entity ++ ": new EntitySchema({";
       "    name: '" ++ entity ++ "',";
       "    tableName: '"
       ++ match tableName data with NotNull t => t | Null => "null" end ++ "',";
       "    columns: {" ]
     +++ flat_map (fun e => printColumn (fst e) (snd e)) (entries (columns data))
     +++ [ "    }," ]
     +++ match relations data with
        | [] => []
        | rels => [ "    relations: {" ] +++ map printRelation rels +++ [ "    }," ]
        end
     +++ match indices data with
        | [] => []
        | ixs => [ "    indices: [" ] +++ map printIndex ixs +++ [ "    ]," ]
        end
     +++ [ "  })," ])).

(** The loop over the entities, which groups the schema texts by file.
    For a file whose name is the name of a member of [Object.prototype],
    [fileOutputMap[tsFile] || []] is that member, which has no [push]. *)
Definition emitEntity (files : Obj string) (fileOutputMap : Obj (list string))
  (e : string * Entity) : result (Obj (list string)) :=
  let tsFile := propertyKey (lookup (fst e) files) in
  match read tsFile fileOutputMap with
  | Own schemas =>
      Ok (set tsFile (schemas +++ [printEntity (fst e) (snd e)]) fileOutputMap)
  | Absent => Ok (set tsFile [printEntity (fst e) (snd e)] fileOutputMap)
  | Proto _ => Throw push_not_a_function
  end.

(** The type of a column in the documentation comment. *)
Definition jsType (v : Column) : string :=
  match col_enum v with
  | Some members => "'" ++ join "' | '" members ++ "'"
  | None =>
      match lookup (stringOf (col_type v)) JS_DOC_TYPE_MAP with
      | Some t => if isTruthy t then stringOf t else "any"
      | None => "any"
      end
  end.

Definition typedef (e : string * Entity) : string :=
  let fields :=
    join (String "010" "")
      (map (fun kv => " * @property {" ++ jsType (snd kv) ++ "} " ++ fst kv)
           (entries (columns (snd e)))) in
  "/**" ++ String "010" " * @typedef {Object} " ++ fst e ++ String "010" fields
  ++ String "010" " */".

Definition exportEntry (s : string) : string :=
  match entityMatch s with
  | Some entityName =>
      "  /** @type {typeorm.EntitySchema<" ++ entityName ++ ">} */"
      ++ String "010" "  " ++ dropFinalComma s
  | None => "  " ++ dropFinalComma s
  end.

(** The text of one output file. *)
Definition printFile (data : Obj Entity) (schemas : list string) : string :=
  join (String "010" "")
    ([ "const typeorm = require('typeorm');";
       "const { EntitySchema } = typeorm;";
       "" ]
     +++ map typedef
          (filter (fun e =>
                     existsb (includes ("name: '" ++ fst e ++ "'")) schemas)
                  (entries data))
     +++ [ ""; "module.exports = {";
          join ("," ++ String "010" "") (map exportEntry schemas);
          "};" ]).

Definition emit (c : Context) : result (Obj string) :=
  fileOutputMap <-
    forEach (emitEntity (entity2file c)) (entries (entityData c)) [] ;;
  Ok (fold_left (fun filesOutput e =>
                   set (outputName (fst e)) (printFile (entityData c) (snd e))
                       filesOutput)
                (entries fileOutputMap) []).

(** ** The conversion *)

(** The maps after the second traversal of the files. *)
Definition collect (files : list (string * SourceFile)) : result Context :=
  forEach collectFile files (fold_left registerFile files emptyContext).

(** The entity model that the emitter reads: the stubs resolved and
    attached to their entities. *)
Definition analyse (files : list (string * SourceFile)) : result Context :=
  c <- collect files ;;
  let stubs := resolve (relationStubs c) in
  data <- forEach attach stubs (entityData c) ;;
  Ok (with_entityData data (with_relationStubs stubs c)).

(** The conversion of the parsed files. *)
Definition convert (files : list (string * SourceFile)) : result (Obj string) :=
  c <- analyse files ;;
  emit c.

(** [convertSchemas(filesInput)], for the parser [createSourceFile]. *)
Definition convertSchemas (createSourceFile : string -> string -> SourceFile)
  (filesInput : list InputFile) : result (Obj string) :=
  convert (map (fun f => (fileName f, createSourceFile (fileName f) (content f)))
               filesInput).

End Emitter.

(** ** A host for running the model *)

Definition upper_ascii (c : ascii) : ascii :=
  if is_lower c then ascii_of_nat (nat_of_ascii c - 32) else c.

Fixpoint map_string (f : ascii -> ascii) (s : string) : string :=
  match s with
  | EmptyString => EmptyString
  | String c s' => String (f c) (map_string f s')
  end.

Definition is_space (c : ascii) : bool :=
  Ascii.eqb c " " || in_range 9 13 c.

(** A source text of a node: the node written on one line, with its strings
    in single quotes, a space after each comma and a numeral written as
    JavaScript prints its value.  The parameters of an arrow function are
    not in the tree and are written [()]; a node of another kind is written
    as its [text]. *)
Fixpoint sourceText (n : node) : string :=
  match n with
  | Identifier s => idText s
  | StringLiteral s => quote s
  | NumericLiteral s => s
  | NoSubstitutionTemplateLiteral s => "`" ++ s ++ "`"
  | TrueKeyword => "true"
  | FalseKeyword => "false"
  | ArrayLiteralExpression els => "[" ++ join ", " (map sourceText els) ++ "]"
  | ObjectLiteralExpression [] => "{}"
  | ObjectLiteralExpression props =>
      "{ " ++ join ", " (map sourceText props) ++ " }"
  | PropertyAssignment pname init => sourceText pname ++ ": " ++ sourceText init
  | ParenthesizedExpression e => "(" ++ sourceText e ++ ")"
  | TaggedTemplateExpression tag template =>
      sourceText tag ++ sourceText template
  | CallExpression callee args =>
      sourceText callee ++ "(" ++ join ", " (map sourceText args) ++ ")"
  | PropertyAccessExpression e p => sourceText e ++ "." ++ sourceText p
  | ArrowFunction body => "() => " ++ sourceText body
  | OtherNode _ _ _ t _ => match t with Some t => t | None => "" end
  end.

(** A host for running the model on sample schemas: [getText] is exact for
    a schema written as [sourceText] writes it, and the case mappings and
    [trim] are exact on ASCII text. *)
Definition asciiHost : Host :=
  {| getText := sourceText;
     numberToString := fun t => t;
     toUpperCase := map_string upper_ascii;
     toLowerCase := map_string fold_case;
     trim := fun s =>
       rev_string (drop_while is_space (rev_string (drop_while is_space s))) |}.

(** Shorthands for writing syntax trees. *)
Definition call (f : string) (args : list node) : node :=
  CallExpression (Identifier f) args.
Definition method (receiver : node) (m : string) (args : list node) : node :=
  CallExpression (PropertyAccessExpression receiver (Identifier m)) args.
Definition access (object property : string) : node :=
  PropertyAccessExpression (Identifier object) (Identifier property).
Definition prop (k : string) (v : node) : node :=
  PropertyAssignment (Identifier k) v.
Definition object (props : list node) : node := ObjectLiteralExpression props.
Definition array (els : list node) : node := ArrayLiteralExpression els.
Definition const (x : string) (init : node) : statement :=
  VariableStatement [ {| decl_name := Identifier x; decl_initializer := Some init |} ].

(** ** Sample schemas *)

(** [export const users = pgTable('users', { id: uuid('id').primaryKey() });] *)
Definition usersFile : SourceFile :=
  [ const "users"
      (call "pgTable"
         [ StringLiteral "users";
           object [ prop "id" (method (call "uuid" [StringLiteral "id"])
                                      "primaryKey" []) ] ]) ].

(** [partner: oneToOne(users)], a property of the object that
    [relations(profiles, ...)] returns. *)
Definition partnerProperty : node :=
  prop "partner" (call "oneToOne" [Identifier "users"]).

(** [index("ix").on(table.c1).on(table.c2)...], the chained form of an index
    entry, for the columns [c1; c2; ...] in the order of the source. *)
Definition onChain (root : node) (table : string) (cols : list string) : node :=
  fold_left (fun chain col => method chain "on" [access table col]) cols root.

(** [uniqueIndex("ux").on(t.a).on(t.b)]. *)
Definition uniqueAB : node :=
  method (method (call "uniqueIndex" [StringLiteral "ux"]) "on" [access "t" "a"])
         "on" [access "t" "b"].

(** [export const ghostRelations =
       relations(ghost, ({ many }) => ({ posts: many(posts) }));]
    in a batch in which no file declares a table [ghost]. *)
Definition ghostFile : SourceFile :=
  [ const "ghostRelations"
      (call "relations"
         [ Identifier "ghost";
           ArrowFunction
             (ParenthesizedExpression
                (object [ prop "posts" (call "many" [Identifier "posts"]) ])) ]) ].

(** [id: t.integer()], with [import * as t from "drizzle-orm/pg-core"]. *)
Definition namespaceColumn : node := method (Identifier "t") "integer" [].

(** [price: money("price")]. *)
Definition moneyColumn : node := call "money" [StringLiteral "price"].

(** [.default(raw`current_timestamp`)], on any receiver. *)
Definition rawTemplate : node :=
  TaggedTemplateExpression (Identifier "raw")
    (NoSubstitutionTemplateLiteral "current_timestamp").

(** [.default(sql`Current_Timestamp`)]. *)
Definition sqlTemplate : node :=
  TaggedTemplateExpression (Identifier "sql")
    (NoSubstitutionTemplateLiteral "Current_Timestamp").

(** ** Notions used by the statements *)

(** The properties of a stub that only its creation sets, and the two that
    only the resolver sets. *)
Definition core (r : Relation) :=
  (fromEntity r, fromVar r, localName r, toEntity r, toVar r, relType r,
   inverseSide r, origKind r, isOwner r).

(** [createdOn: timestamp("created_on").default(raw`current_timestamp`)]. *)
Definition rawDefaultColumn : node :=
  method (call "timestamp" [StringLiteral "created_on"]) "default" [rawTemplate].

(** The callee of a [.default(...)] frame on [timestamp("created_on")]. *)
Definition defaultCallee : node :=
  PropertyAccessExpression (call "timestamp" [StringLiteral "created_on"])
    (Identifier "default").

(** The comparison of entities in [reverseOf]. *)
Definition reverseEntities (r1 x : Relation) : bool :=
  same (fromEntity x) (Some (toEntity r1))
  && same (Some (toEntity x)) (fromEntity r1).

(** A stub as the collector leaves it. *)
Definition fresh (r : Relation) : Prop :=
  inverseSide r = Null /\ isOwner r = false.

(** A stub whose local name is a non-empty string, as it is when the
    relation property is named by an identifier. *)
Definition named (r : Relation) : Prop := truthy (localName r) = true.

(** The array when the resolver's loop reaches index [i]. *)
Definition reached (stubs : list Relation) (i : nat) : list Relation :=
  fold_left resolveAt (seq 0 i) stubs.

Definition good (x : Relation) : Prop :=
  named x /\ (paired x = false -> isOwner x = false).

Definition Good (s : list Relation) : Prop :=
  forall k x, nth_error s k = Some x -> good x.

(** The stubs that the second traversal collects from parsed files. *)
Definition stubsOf {host : Host} (files : list (string * SourceFile))
  : list Relation :=
  match collect files with
  | Ok c => relationStubs c
  | Throw _ => []
  end.

(** [export const x = pgTable(table, { id: uuid("id").primaryKey() });] *)
Definition simpleTable (x table : string) : statement :=
  const x
    (call "pgTable"
       [ StringLiteral table;
         object [ prop "id" (method (call "uuid" [StringLiteral "id"])
                                    "primaryKey" []) ] ]).

(** [export const xRelations = relations(x, ({ one, many }) => ({ props }));] *)
Definition relationsOf (x : string) (props : list node) : statement :=
  const (x ++ "Relations")
    (call "relations"
       [ Identifier x; ArrowFunction (ParenthesizedExpression (object props)) ]).

(** Two tables with a to-many relation to each other. *)
Definition enrolmentFiles : list (string * SourceFile) :=
  [ ("students.ts",
     [ simpleTable "students" "students";
       relationsOf "students"
         [ prop "courses" (call "many" [Identifier "courses"]) ] ]);
    ("courses.ts",
     [ simpleTable "courses" "courses";
       relationsOf "courses"
         [ prop "students" (call "many" [Identifier "students"]) ] ]) ].

(** [users] has [posts: many(posts)]; [posts] has
    ['authors': many(users), editors: many(users)], the first property being
    named by a string literal, which has no [escapedText]. *)
Definition quotedKeyFiles : list (string * SourceFile) :=
  [ ("users.ts",
     [ simpleTable "users" "users";
       relationsOf "users" [ prop "posts" (call "many" [Identifier "posts"]) ] ]);
    ("posts.ts",
     [ simpleTable "posts" "posts";
       relationsOf "posts"
         [ PropertyAssignment (StringLiteral "authors")
             (call "many" [Identifier "users"]);
           prop "editors" (call "many" [Identifier "users"]) ] ]) ].

(** A table with a to-many relation to itself:
    [relations(categories, ({ many }) => ({ children: many(categories) }))]. *)
Definition categoriesFiles : list (string * SourceFile) :=
  [ ("categories.ts",
     [ simpleTable "categories" "categories";
       relationsOf "categories"
         [ prop "children" (call "many" [Identifier "categories"]) ] ]) ].

(** A tree: [categories] has the column [parentId] and the relations
    [parent: one(categories, { fields: [categories.parentId],
    references: [categories.id] })] and [children: many(categories)]. *)
Definition treeFiles : list (string * SourceFile) :=
  [ ("categories.ts",
     [ const "categories"
         (call "pgTable"
            [ StringLiteral "categories";
              object
                [ prop "id" (method (call "uuid" [StringLiteral "id"])
                                    "primaryKey" []);
                  prop "parentId" (call "uuid" [StringLiteral "parent_id"]) ] ]);
       relationsOf "categories"
         [ prop "parent"
             (call "one"
                [ Identifier "categories";
                  object
                    [ prop "fields" (array [access "categories" "parentId"]);
                      prop "references" (array [access "categories" "id"]) ] ]);
           prop "children" (call "many" [Identifier "categories"]) ] ]) ].

(** The stubs collected from [enrolmentFiles]. *)
Definition coursesStub : Relation :=
  {| fromEntity := Some (Str "Students"); fromVar := Some "students";
     localName := Some "courses"; toEntity := "Courses"; toVar := "courses";
     relType := OneToMany; inverseSide := Null; origKind := Some "many";
     customName := None; onDelete := None; onUpdate := None; cascade := false;
     joinColumnName := None; isOwner := false |}.

Definition studentsStub : Relation :=
  {| fromEntity := Some (Str "Courses"); fromVar := Some "courses";
     localName := Some "students"; toEntity := "Students"; toVar := "students";
     relType := OneToMany; inverseSide := Null; origKind := Some "many";
     customName := None; onDelete := None; onUpdate := None; cascade := false;
     joinColumnName := None; isOwner := false |}.

(** The stub collected from [categoriesFiles]. *)
Definition childrenStub : Relation :=
  {| fromEntity := Some (Str "Categories"); fromVar := Some "categories";
     localName := Some "children"; toEntity := "Categories";
     toVar := "categories"; relType := OneToMany; inverseSide := Null;
     origKind := Some "many"; customName := None; onDelete := None;
     onUpdate := None; cascade := false; joinColumnName := None;
     isOwner := false |}.

(** The frames of a call chain, outermost first, as the second loop of
    [getColumn] visits them: the callee and the arguments of each call. *)
Fixpoint frames (call : node) : list (node * list node) :=
  match call with
  | CallExpression callee args =>
      (callee, args) ::
      match callee with
      | ParenthesizedExpression next
      | CallExpression next _
      | PropertyAccessExpression next _
      | OtherNode (Some next) _ _ _ _ => frames next
      | _ => []
      end
  | _ => []
  end.

(** The chain has a frame [.m(...)]: the modifier [m] is applied. *)
Definition hasModifier (m : string) (init : node) : bool :=
  existsb (fun frame => equals (nameText (fst frame)) m) (frames init).

(** [Object.assign(col, { primary: true, nullable: false })]. *)
Definition keyed (col : Column) : Column :=
  with_nullable false (with_primary true col).




(** The two properties of a descriptor that the statements on [nullable]
    are about. *)
Definition flags (col : Column) : bool * bool :=
  (col_nullable col, col_primary col).


(** The model of [usersFile]: its only column is [id]. *)
Definition idColumn : Column :=
  with_nullable false (with_primary true (with_type "uuid" textColumn)).

Definition usersEntity : Entity :=
  {| tableName := NotNull "users"; columns := [("id", idColumn)];
     relations := []; indices := [] |}.

Definition usersModel : Context :=
  {| var2entity := [("users", "Users")];
     entity2file := [("Users", "users.ts")];
     entityData := [("Users", usersEntity)];
     relationStubs := [] |}.

(** ** Notions used by the statements on the whole converter *)

(** *** The column extractor *)

(** A frame [.references(...)] has a first argument: every other frame is
    accepted whatever its arguments. *)
Definition frameOk (frame : node * list node) : Prop :=
  equals (nameText (fst frame)) "references" = true ->
  nth_error (snd frame) 0 <> None.

(** The frame [.m(...)]. *)
Definition isFrame (m : string) (frame : node * list node) : bool :=
  equals (nameText (fst frame)) m.

(** The properties of a descriptor that only the root call and its options
    set. *)
Definition shape (col : Column) :=
  (col_name col, col_length col, col_precision col, col_scale col, col_enum col).

(** What a step on a descriptor leaves as it was when it only sets
    [references], [onDelete], [onUpdate], [cascade] or [default]. *)
Definition keeps (col col' : Column) : Prop :=
  flags col' = flags col /\ shape col' = shape col
  /\ col_type col' = col_type col /\ col_unique col' = col_unique col
  /\ col_array col' = col_array col /\ col_generated col' = col_generated col
  /\ col_createDate col' = col_createDate col
  /\ col_updateDate col' = col_updateDate col.

Section RootCall.

Context {host : Host}.

(** The descriptor before the walk over the frames: the type of the root
    call, the name when the first argument is a string other than the
    property name, and the options of the second argument. *)
Definition rooted (init : node) (name : option string) (args : list node)
  : Column :=
  let col0 := with_type (toType (rootTarget (chainRoot init))) textColumn in
  let col1 :=
    match isStr (nth_error args 0) with
    | Some t => if opt_eqb (Some t) name then col0 else with_name (Some t) col0
    | None => col0
    end in
  match isObj (nth_error args 1) with
  | Some props => fold_left columnOption props col1
  | None => col1
  end.

End RootCall.

(** The type names that the converter can give a column. *)
Definition vocabulary : list string := "enum" :: map snd typeMap.

(** The type of a descriptor whose root call has the target [root]: a
    string of the vocabulary, with the members when it is ["enum"]; or, for
    a target that is the name of a member of [Object.prototype], that
    member, without enum members. *)
Definition typed (root : option string) (c : Column) : Prop :=
  match col_type c with
  | Str t => In t vocabulary /\ (t = "enum" -> col_enum c <> None)
  | Member m => root = Some m /\ inherited m = true /\ col_enum c = None
  end.

(** The types that [JS_DOC_TYPE_MAP] gives. *)
Definition documentationTypes : list string :=
  [ "string"; "boolean"; "number"; "Date"; "object" ].

(** [id: uuid("user_id").primaryKey().notNull()]: the first argument differs
    from the property name. *)
Definition userIdColumn : node :=
  method (method (call "uuid" [StringLiteral "user_id"]) "primaryKey" [])
         "notNull" [].

(** [id: constructor("id")]: the callee has the name of a member of
    [Object.prototype]. *)
Definition constructorColumn : node := call "constructor" [StringLiteral "id"].

(** [token: uuid("token").defaultRandom().unique()]. *)
Definition tokenColumn : node :=
  method (method (call "uuid" [StringLiteral "token"]) "defaultRandom" [])
         "unique" [].

(** *** The table extras *)

(** How the descriptor [c'] stored under [k] after a step relates to the
    column map before it. *)
Definition marked (cols : Obj Column) (k : string) (c' : Column) : Prop :=
  exists c, get k cols = Some c /\ (c' = c \/ c' = keyed c).

(** The step keeps the keys and their order, and each descriptor is as it
    was or has become part of the key. *)
Definition onlyMarks (cols cols' : Obj Column) : Prop :=
  map fst cols' = map fst cols
  /\ forall k c', get k cols' = Some c' -> marked cols k c'.

(** The argument lists of the [on] calls of an index entry, outermost
    first, as the two walks of the entry visit them. *)
Fixpoint onArguments (c : node) : list (list node) :=
  match c with
  | CallExpression (PropertyAccessExpression inner method) args =>
      if equals (escapedText method) "on" then args :: onArguments inner
      else []
  | _ => []
  end.

(** The column that one [on] call contributes: the name of its first
    argument when that is a property access. *)
Definition onColumn (args : list node) : list (option string) :=
  match nth_error args 0 with
  | Some (PropertyAccessExpression _ column) => [escapedText column]
  | _ => []
  end.

(** The [on] call has a first argument. *)
Definition hasFirst (args : list node) : Prop := nth_error args 0 <> None.

(** *** The registry *)

(** No key of the object is the name of a member of [Object.prototype]. *)
Definition plainKeys {V : Type} (o : Obj V) : Prop :=
  forall k, In k (map fst o) -> inherited k = false.

(** Every registered variable has an entity with a file, and every file of
    an entity is one of the given names. *)
Definition registered (names : list string) (c : Context) : Prop :=
  (forall var ent, get var (var2entity c) = Some ent ->
                   exists file, get ent (entity2file c) = Some file)
  /\ (forall ent file, In (ent, file) (entity2file c) -> In file names).

(** The variable declaration is not initialized by a call. *)
Definition noCall (d : VariableDeclaration) : Prop :=
  match decl_initializer d with
  | Some init => isCallExpression init = false
  | None => True
  end.

(** No variable of the file is initialized by a call. *)
Definition declaresNothing (f : string * SourceFile) : Prop :=
  forall ds d, In (VariableStatement ds) (snd f) -> In d ds -> noCall d.

(** [export const version = 3;] *)
Definition versionFile : SourceFile := [ const "version" (NumericLiteral "3") ].

(** *** The relation stubs *)

(** The properties of a stub that the collector sets and the resolver only
    reads. *)
Definition collected (r : Relation) :=
  (fromEntity r, fromVar r, localName r, toEntity r, toVar r, origKind r,
   customName r, onDelete r, onUpdate r, cascade r, joinColumnName r).

(** What a stub may carry after any number of turns of the resolver. *)
Definition refined (x : Relation) : Prop :=
  (relType x = ManyToMany -> origKind x = Some "many")
  /\ (isOwner x = true ->
      (origKind x = Some "many" /\ relType x = ManyToMany)
      \/ (origKind x = Some "one" /\ relType x = OneToOne
          /\ truthy (joinColumnName x) = true)).

(** The stub [o] has no inverse side, or names a stub of the array that
    names it back and has the reverse entities. *)
Definition mutual (s : list Relation) (o : Relation) : Prop :=
  inverseSide o = Null
  \/ exists j p,
       nth_error s j = Some p
       /\ inverseSide o = NotNull (localName p)
       /\ inverseSide p = NotNull (localName o)
       /\ reverseEntities o p = true.

Definition Mutual (s : list Relation) : Prop :=
  Good s /\ forall i o, nth_error s i = Some o -> mutual s o.

(** The file of an entity is not named like a member of
    [Object.prototype]. *)
Definition FileOk (files : Obj string) (entity : string) : Prop :=
  inherited (propertyKey (lookup entity files)) = false.

(** The stub has an entity to be attached to. *)
Definition hasEntity (data : Obj Entity) (r : Relation) : Prop :=
  get (propertyKey (fromEntity r)) data <> None.

(** The relations attached to an entity have different local names, and
    each is one of the stubs, with that entity as its source. *)
Definition distinctNames (stubs : list Relation) (entity : string) (ent : Entity)
  : Prop :=
  NoDup (map localName (relations ent))
  /\ forall r, In r (relations ent) ->
               In r stubs /\ propertyKey (fromEntity r) = entity.

(** The option [fields: [...]] of a relation-builder call. *)
Definition fieldsProperty (p : node) : bool :=
  match p with
  | PropertyAssignment pname (ArrayLiteralExpression _) =>
      equals (escapedText pname) "fields"
  | _ => false
  end.

(** The columns of the target entity that the collector scans for a column
    that references the source. *)
Definition targetColumns (c : Context) (toEntity : Value) : Obj Column :=
  match entityColumns (entityData c) (stringOf toEntity) with
  | Some cols => cols
  | None => []
  end.

(** *** From a declaration to the emitted column *)








(** * Properties *)

Unset Implicit Arguments.

(** ** Basic facts *)

Lemma opt_eqb_eq (a b : option string) : opt_eqb a b = true <-> a = b.
Proof.
  destruct a as [x|], b as [y|]; simpl; split; intro H;
    try discriminate; try reflexivity.
  - apply String.eqb_eq in H. now subst.
  - injection H as ->. apply String.eqb_refl.
Qed.

Lemma equals_eq (x : option string) (lit : string) :
  equals x lit = true <-> x = Some lit.
Proof. apply opt_eqb_eq. Qed.

Lemma equals_neq (x : option string) (lit : string) :
  equals x lit = false <-> x <> Some lit.
Proof.
  split.
  - intros H E. apply equals_eq in E. congruence.
  - intro H. destruct (equals x lit) eqn:E; [|reflexivity].
    apply equals_eq in E. contradiction.
Qed.

Lemma value_eqb_eq (a b : Value) : value_eqb a b = true <-> a = b.
Proof.
  destruct a as [x|x], b as [y|y]; simpl; split; intro H;
    try discriminate; try (apply String.eqb_eq in H; now subst);
    injection H as ->; apply String.eqb_refl.
Qed.

Lemma same_eq (a b : option Value) : same a b = true <-> a = b.
Proof.
  destruct a as [x|], b as [y|]; simpl; split; intro H;
    try discriminate; try reflexivity.
  - apply value_eqb_eq in H. now subst.
  - injection H as ->. now apply value_eqb_eq.
Qed.

Lemma same_refl (a : option Value) : same a a = true.
Proof. now apply same_eq. Qed.

(** A property that the code has set is the one that a read finds. *)
Lemma read_Own {V : Type} (k : string) (o : Obj V) (v : V) :
  read k o = Own v <-> get k o = Some v.
Proof.
  unfold read. destruct (get k o) as [x|].
  - split; intro H; injection H as ->; reflexivity.
  - destruct (inherited k); split; discriminate.
Qed.

Lemma read_not_Own {V : Type} (k : string) (o : Obj V) :
  get k o = None -> read k o = if inherited k then Proto k else Absent.
Proof. unfold read. now intros ->. Qed.

(** An invariant of the state that every step keeps is kept by the loop. *)
Lemma forEach_invariant {A S : Type} (P : S -> Prop) (f : S -> A -> result S)
  (l : list A) :
  (forall s a s', In a l -> P s -> f s a = Ok s' -> P s') ->
  forall s s', P s -> forEach f l s = Ok s' -> P s'.
Proof.
  induction l as [|a l IH]; simpl; intros Hf s s' Hs H.
  - now injection H as <-.
  - destruct (f s a) as [s1|] eqn:E; simpl in H; [|discriminate].
    apply (IH (fun s0 a0 s0' Hin => Hf s0 a0 s0' (or_intror Hin)) s1 s'); auto.
    apply (Hf s a s1); auto.
Qed.

Lemma fold_left_invariant {A S : Type} (P : S -> Prop) (f : S -> A -> S)
  (l : list A) :
  (forall s a, In a l -> P s -> P (f s a)) ->
  forall s, P s -> P (fold_left f l s).
Proof.
  induction l as [|a l IH]; simpl; intros Hf s Hs; [assumption|].
  apply IH; auto.
Qed.

(** ** The relation type of a collected stub (C2) *)

Lemma relationOption_core st p :
  core (fst (relationOption st p)) = core (fst st).
Proof.
  destruct st as [r fk]. destruct p; try reflexivity.
  unfold relationOption. simpl.
  repeat match goal with
  | |- context [match ?x with _ => _ end] => destruct x
  end; reflexivity.
Qed.

Lemma fold_relationOption_core props st :
  core (fst (fold_left relationOption props st)) = core (fst st).
Proof.
  revert st. induction props as [|p props IH]; intro st; simpl; [reflexivity|].
  rewrite IH. apply relationOption_core.
Qed.

Section CollectedStub.

Context {host : Host}.

(** What the collector pushes for a relation-builder call whose first
    argument has a non-empty [escapedText]: one stub, not yet paired, whose
    relation type is the inferred one. *)
Lemma relationProperty_pushes fromVar c pname callee args target :
  nth_error args 0 = Some target ->
  truthy (escapedText target) = true ->
  exists r,
    relationStubs (relationProperty fromVar c
                     (PropertyAssignment pname (CallExpression callee args)))
    = (relationStubs c ++ [r])%list
    /\ relType r = inferRelType (escapedText callee) (nth_error args 1)
    /\ origKind r = escapedText callee
    /\ localName r = escapedText pname
    /\ inverseSide r = Null
    /\ isOwner r = false.
Proof.
  intros Harg Htruthy. unfold relationProperty. rewrite Harg.
  destruct (escapedText target) as [[|a targ]|]; try discriminate.
  set (r0 := {| fromEntity := _ |}).
  destruct (match isObj (nth_error args 1) with
            | Some props => fold_left relationOption props (r0, Null)
            | None => (r0, Null)
            end) as [r1 fk] eqn:E.
  assert (C : core r1 = core r0).
  { destruct (isObj (nth_error args 1)).
    - change r1 with (fst (r1, fk)). rewrite <- E.
      apply fold_relationOption_core.
    - now injection E as <- _. }
  unfold core in C. injection C as C1 C2 C3 C4 C5 C6 C7 C8 C9.
  eexists. split; [reflexivity|].
  repeat match goal with
  | |- context [match ?x with _ => _ end] => destruct x
  end; simpl; repeat split; assumption.
Qed.

(** C2, as amended.  For every relation-builder call that the collector
    keeps, the relation type of the stub before pairing is determined by the
    name of the call's target: ["many"] gives one-to-many; ["one"] gives
    many-to-one when the options object has a [fields] property that is an
    array and one-to-one otherwise; ["oneToOne"] gives one-to-one; every
    other target, or none, gives many-to-one. *)
Theorem collected_relType fromVar c pname callee args target :
  nth_error args 0 = Some target ->
  truthy (escapedText target) = true ->
  let kind := escapedText callee in
  let opts := nth_error args 1 in
  exists r,
    relationStubs (relationProperty fromVar c
                     (PropertyAssignment pname (CallExpression callee args)))
    = (relationStubs c ++ [r])%list
    /\ origKind r = kind
    /\ (kind = Some "many" -> relType r = OneToMany)
    /\ (kind = Some "one" ->
        relType r = if hasFields opts then ManyToOne else OneToOne)
    /\ (kind = Some "oneToOne" -> relType r = OneToOne)
    /\ (kind <> Some "many" -> kind <> Some "one" -> kind <> Some "oneToOne" ->
        relType r = ManyToOne).
Proof.
  intros Harg Htruthy kind opts.
  destruct (relationProperty_pushes fromVar c pname callee args target
              Harg Htruthy)
    as (r & Hr & Ht & Hk & _).
  exists r. split; [exact Hr|]. split; [exact Hk|].
  fold kind opts in Ht. rewrite Ht. unfold inferRelType.
  repeat split.
  - intros ->. reflexivity.
  - intros ->. reflexivity.
  - intros ->. reflexivity.
  - intros N1 N2 N3.
    apply equals_neq in N1, N2, N3. now rewrite N1, N2, N3.
Qed.

End CollectedStub.

Lemma collected_relType_witness :
  exists r,
    relationStubs (@relationProperty asciiHost (Some "profiles") emptyContext
                     partnerProperty) = [r]
    /\ origKind r = Some "oneToOne"
    /\ relType r = OneToOne.
Proof.
  destruct (@collected_relType asciiHost (Some "profiles") emptyContext
              (Identifier "partner") (Identifier "oneToOne")
              [Identifier "users"] (Identifier "users")
              eq_refl eq_refl) as (r & Hr & Hk & _ & _ & H1 & _).
  exists r. split; [exact Hr|]. split; [exact Hk|]. now apply H1.
Defined.

(** Against C2 as the specification states it, a marker that is neither
    ["many"] nor ["one"]: [partner: oneToOne(users)] is collected as
    one-to-one, not as many-to-one. *)
Lemma oneToOne_marker_not_many_to_one :
  exists r,
    relationStubs (@relationProperty asciiHost (Some "profiles") emptyContext
                     partnerProperty) = [r]
    /\ origKind r <> Some "many"
    /\ origKind r <> Some "one"
    /\ relType r <> ManyToOne.
Proof.
  eexists. split; [reflexivity|]. simpl. repeat split; discriminate.
Qed.

(** ** The columns of an index (C3) *)

Lemma onChain_snoc root table cols col :
  onChain root table (cols ++ [col])
  = method (onChain root table cols) "on" [access table col].
Proof. unfold onChain. now rewrite fold_left_app. Qed.

Lemma onRoot_onChain marker args table cols :
  onRoot (onChain (call marker args) table cols) = call marker args.
Proof.
  induction cols as [|col cols IH] using rev_ind; [reflexivity|].
  rewrite onChain_snoc. simpl. exact IH.
Qed.

Lemma onColumns_onChain marker args table cols acc :
  onColumns (onChain (call marker args) table cols) acc
  = Ok (acc ++ rev (map Some cols))%list.
Proof.
  revert acc. induction cols as [|col cols IH] using rev_ind; intro acc.
  - simpl. now rewrite app_nil_r.
  - rewrite onChain_snoc. simpl. rewrite IH.
    rewrite map_app, rev_app_distr. simpl. now rewrite <- app_assoc.
Qed.

(** C3, what the code does.  For the chained declaration
    [uniqueIndex(name).on(t.c1).on(t.c2)...] the stored descriptor is unique
    and lists the columns in the reverse of their order in the source: the
    walk starts at the outermost [on] call, which is the last one written. *)
Theorem index_columns_reversed (name table : string) (cols : list string) :
  indexEntry (onChain (call "uniqueIndex" [StringLiteral name]) table cols)
  = Ok (Some {| idx_name := Some name;
                idx_columns := rev (map Some cols);
                idx_unique := true |}).
Proof.
  unfold indexEntry. rewrite onRoot_onChain. simpl.
  now rewrite onColumns_onChain.
Qed.

(** The scenario of the specification: columns [a] then [b] in the source
    are stored as [b] then [a]. *)
Lemma uniqueAB_columns :
  indexEntry uniqueAB
  = Ok (Some {| idx_name := Some "ux";
                idx_columns := [Some "b"; Some "a"];
                idx_unique := true |}).
Proof. reflexivity. Qed.

(** ** Missing entities (C4) *)

(** C4, what the code does.  A [relations] declaration whose first argument
    names a variable that no table declaration introduces makes the
    conversion throw, when the stubs are attached to their entities. *)
Theorem missing_source_entity_throws :
  @convert asciiHost [("ghost.ts", ghostFile)] = Throw cannot_read_relations.
Proof. vm_compute. reflexivity. Qed.

(** ** Totality of the column extractor (C8) *)

Section Extractor.

Context {host : Host}.

(** An initializer that is not a call yields the default descriptor. *)
Lemma getColumn_not_a_call init name :
  isCallExpression init = false -> getColumn init name = Ok textColumn.
Proof. intro H. unfold getColumn. now rewrite H. Qed.

(** A root target that the type table does not list, and that is not the
    name of a member of [Object.prototype], yields ["text"]. *)
Lemma toType_unlisted x :
  get (key x) typeMap = None -> inherited (key x) = false ->
  toType x = "text".
Proof. intros H I. unfold toType, lookup. now rewrite (read_not_Own _ _ H), I. Qed.

Lemma conventions_type name col :
  col_type (conventions name col) = col_type col.
Proof.
  unfold conventions.
  destruct (equals name "createdAt"), (equals name "updatedAt"); reflexivity.
Qed.

(** The scenario of the specification: [money("price")] has type ["text"]. *)
Lemma getColumn_money name :
  exists col, getColumn moneyColumn name = Ok col /\ col_type col = "text".
Proof.
  exists (conventions name
            (if opt_eqb (Some "price") name then with_type "text" textColumn
             else with_name (Some "price") (with_type "text" textColumn))).
  split; [reflexivity|].
  rewrite conventions_type. now destruct (opt_eqb (Some "price") name).
Qed.

(** C8, what the code does.  [getColumn] is not total: on a call chain whose
    innermost callee is a property access, such as [t.integer()], the walk
    to the root ends on a node that is not a call, and the destructuring of
    its [arguments] throws. *)
Theorem getColumn_namespace_call_throws name :
  getColumn namespaceColumn name = Throw not_iterable.
Proof. reflexivity. Qed.

(** ** The value stored by [default] (C9) *)

(** C9, as amended.  A [default(arg)] frame of a column chain stores: for a
    numeric literal the number; for a string literal the text in quotes; for
    a boolean literal that boolean; for a template tagged with the
    identifier [sql], without substitutions, whose text contains
    ["current_timestamp"] in any letter case, the string
    ['CURRENT_TIMESTAMP'] in quotes; and for no argument the boolean
    [true].  What the frame stores is the default of the descriptor unless a
    frame that is processed later, an inner [default] or [defaultNow],
    stores another ([getColumn_default]). *)
Theorem default_modifier_stores name callee args col :
  nameText callee = Some "default" ->
  exists col',
    modifier name callee args col = Ok col'
    /\ (forall t, nth_error args 0 = Some (NumericLiteral t) ->
        col_default col' = Some (DNumber (NumberOf t)))
    /\ (forall t, nth_error args 0 = Some (StringLiteral t) ->
        col_default col' = Some (DString ("'" ++ t ++ "'")))
    /\ (nth_error args 0 = Some TrueKeyword ->
        col_default col' = Some (DBoolean true))
    /\ (nth_error args 0 = Some FalseKeyword ->
        col_default col' = Some (DBoolean false))
    /\ (forall tag template tx,
        nth_error args 0 = Some (TaggedTemplateExpression tag template) ->
        escapedText tag = Some "sql" ->
        ts.text template = Some tx ->
        includes "current_timestamp" (fold_case_string tx) = true ->
        col_default col' = Some (DString "'CURRENT_TIMESTAMP'"))
    /\ (args = [] -> col_default col' = Some (DBoolean true)).
Proof.
  intro Hm. unfold modifier. rewrite Hm. simpl.
  eexists. split; [reflexivity|]. simpl.
  repeat split.
  - intros t ->. reflexivity.
  - intros t ->. reflexivity.
  - intros ->. reflexivity.
  - intros ->. reflexivity.
  - intros tag template tx -> Htag Htx Hin.
    unfold defaultValue, overrideDefaultIfSqlTagged, unwrapSqlTag, isSqlTagged.
    rewrite Htag. simpl. unfold mentionsCurrentTimestamp. rewrite Htx. simpl.
    now rewrite Hin.
  - intros ->. reflexivity.
Qed.

End Extractor.

Lemma default_modifier_stores_witness :
  exists col',
    modifier (Some "createdOn") defaultCallee [sqlTemplate] textColumn = Ok col'
    /\ col_default col' = Some (DString "'CURRENT_TIMESTAMP'").
Proof.
  destruct (default_modifier_stores (Some "createdOn") defaultCallee
              [sqlTemplate] textColumn eq_refl)
    as (col' & Hc & _ & _ & _ & _ & Hsql & _).
  exists col'. split; [exact Hc|].
  apply (Hsql (Identifier "sql")
              (NoSubstitutionTemplateLiteral "Current_Timestamp")
              "Current_Timestamp"); reflexivity.
Defined.

(** Against C9 as the specification states it, a template with another tag:
    [default(raw`current_timestamp`)] stores no default at all. *)
Lemma raw_template_default_not_stored :
  exists col,
    @getColumn asciiHost rawDefaultColumn (Some "createdOn") = Ok col
    /\ col_default col = None
    /\ col_default col <> Some (DString "'CURRENT_TIMESTAMP'").
Proof. eexists. split; [reflexivity|]. split; [reflexivity|discriminate]. Qed.

(** ** The relation resolver (C5, C6, C10) *)

Lemma nth_error_update {A : Type} (f : A -> A) (l : list A) (i k : nat) :
  nth_error (update i f l) k
  = if Nat.eqb k i then option_map f (nth_error l k) else nth_error l k.
Proof.
  revert i k. induction l as [|x l IH]; intros [|i] [|k]; simpl;
    try reflexivity.
  - now destruct (Nat.eqb k i).
  - apply IH.
Qed.

Lemma length_update {A : Type} (f : A -> A) (l : list A) (i : nat) :
  length (update i f l) = length l.
Proof.
  revert i. induction l as [|x l IH]; intros [|i]; simpl; auto.
Qed.

Lemma findIndex_Some {A : Type} (p : A -> bool) (l : list A) (j : nat) :
  findIndex p l = Some j ->
  exists x, nth_error l j = Some x /\ p x = true
            /\ forall k y, k < j -> nth_error l k = Some y -> p y = false.
Proof.
  revert j. induction l as [|a l IH]; intros j H; simpl in H; [discriminate|].
  destruct (p a) eqn:Ea.
  - injection H as <-. exists a. repeat split; auto. intros k y Hk. lia.
  - destruct (findIndex p l) as [j'|]; [|discriminate]. injection H as <-.
    destruct (IH j' eq_refl) as (x & Hx & Hp & Hlt).
    exists x. repeat split; auto.
    intros [|k] y Hk Hy; simpl in Hy.
    + now injection Hy as <-.
    + apply (Hlt k); auto. lia.
Qed.

Lemma findIndex_None {A : Type} (p : A -> bool) (l : list A) :
  findIndex p l = None ->
  forall k y, nth_error l k = Some y -> p y = false.
Proof.
  induction l as [|a l IH]; intros H k y Hy.
  - destruct k; discriminate.
  - simpl in H. destruct (p a) eqn:Ea; [discriminate|].
    destruct (findIndex p l); [discriminate|].
    destruct k; simpl in Hy.
    + now injection Hy as <-.
    + now apply (IH eq_refl k).
Qed.

Lemma findIndex_first {A : Type} (p : A -> bool) (l : list A) (i : nat) (x : A) :
  nth_error l i = Some x -> p x = true ->
  (forall k y, k < i -> nth_error l k = Some y -> p y = false) ->
  findIndex p l = Some i.
Proof.
  revert i. induction l as [|a l IH]; intros i Hx Hp Hlt.
  - destruct i; discriminate.
  - destruct i; simpl in Hx |- *.
    + injection Hx as ->. now rewrite Hp.
    + rewrite (Hlt 0 a); [|lia|reflexivity].
      rewrite (IH i Hx Hp); [reflexivity|].
      intros k y Hk Hy. apply (Hlt (S k)); [lia|exact Hy].
Qed.


Lemma findIndex_none_intro {A : Type} (p : A -> bool) (l : list A) :
  (forall k y, nth_error l k = Some y -> p y = false) -> findIndex p l = None.
Proof.
  induction l as [|a l IH]; intro H; simpl; [reflexivity|].
  rewrite (H 0 a eq_refl). rewrite IH; [reflexivity|].
  intros k y Hy. now apply (H (S k)).
Qed.


Lemma reverseOf_split r1 x :
  reverseOf r1 x = reverseEntities r1 x && negb (paired x).
Proof. reflexivity. Qed.

Lemma reverseEntities_sym r1 x :
  reverseEntities r1 x = reverseEntities x r1.
Proof.
  unfold reverseEntities.
  destruct (same (fromEntity x) (Some (toEntity r1))) eqn:E1,
           (same (Some (toEntity x)) (fromEntity r1)) eqn:E2,
           (same (fromEntity r1) (Some (toEntity x))) eqn:E3,
           (same (Some (toEntity r1)) (fromEntity x)) eqn:E4;
    try reflexivity; exfalso;
    repeat match goal with
    | H : same _ _ = true |- _ => apply same_eq in H
    end;
    repeat match goal with
    | H : same ?a ?b = false |- _ =>
        assert (a <> b) by (intro K; apply same_eq in K; congruence); clear H
    end; congruence.
Qed.

Ltac pair_cases :=
  unfold pair;
  repeat match goal with
  | |- context [if ?b then _ else _] => destruct b eqn:?
  end;
  repeat rewrite nth_error_update.

(** What a pairing leaves alone. *)
Lemma pair_other i j r1 r2 s k :
  k <> i -> k <> j -> nth_error (pair i j r1 r2 s) k = nth_error s k.
Proof.
  intros Hi Hj. apply Nat.eqb_neq in Hi, Hj.
  pair_cases; rewrite ?Hi, ?Hj; reflexivity.
Qed.

(** What a pairing does to the stubs it touches. *)
Lemma pair_elem i j r1 r2 s k y :
  nth_error (pair i j r1 r2 s) k = Some y ->
  exists x,
    nth_error s k = Some x
    /\ fromEntity y = fromEntity x /\ toEntity y = toEntity x
    /\ localName y = localName x
    /\ origKind y = origKind x /\ joinColumnName y = joinColumnName x
    /\ (y = x \/
        (k = j /\ inverseSide y = NotNull (localName r1)) \/
        (k = i /\ k <> j /\ inverseSide y = NotNull (localName r2))).
Proof.
  unfold pair.
  repeat match goal with
  | |- context [if ?b then _ else _] => destruct b eqn:?
  end;
  repeat rewrite nth_error_update;
  destruct (Nat.eqb_spec k i) as [Eki|Eki], (Nat.eqb_spec k j) as [Ekj|Ekj];
  destruct (nth_error s k) as [x|]; simpl; intro H; try discriminate;
  injection H as <-; exists x; (split; [reflexivity|]); simpl;
  repeat (split; [reflexivity|]);
  solve [ left; reflexivity
        | right; left; split; [assumption|reflexivity]
        | right; right; repeat split; assumption ].
Qed.

Lemma pair_inverse_first i j r1 r2 s :
  nth_error s i = Some r1 -> nth_error s j = Some r2 ->
  exists r1',
    nth_error (pair i j r1 r2 s) i = Some r1'
    /\ inverseSide r1' = NotNull (localName r2).
Proof.
  intros H1 H2.
  assert (E : i = j -> localName r1 = localName r2) by (intros ->; congruence).
  unfold pair.
  repeat match goal with
  | |- context [if ?b then _ else _] => destruct b eqn:?
  end;
  repeat rewrite nth_error_update; rewrite ?Nat.eqb_refl;
  destruct (Nat.eqb_spec i j) as [Eij|Eij]; rewrite H1; simpl;
  (eexists; split; [reflexivity|]); simpl;
  try (rewrite (E Eij)); reflexivity.
Qed.

Lemma pair_inverse_second i j r1 r2 s :
  nth_error s i = Some r1 -> nth_error s j = Some r2 ->
  exists r2',
    nth_error (pair i j r1 r2 s) j = Some r2'
    /\ inverseSide r2' = NotNull (localName r1).
Proof.
  intros H1 H2.
  unfold pair.
  repeat match goal with
  | |- context [if ?b then _ else _] => destruct b eqn:?
  end;
  repeat rewrite nth_error_update; rewrite ?Nat.eqb_refl;
  destruct (Nat.eqb_spec j i) as [Eij|Eij]; rewrite H2; simpl;
  (eexists; split; [reflexivity|]); simpl; reflexivity.
Qed.

(** A stub that finds no inverse is left as it is, by its own turn and by
    every other turn. *)
Lemma unmatched_stub_stays steps : forall s i r,
  nth_error s i = Some r ->
  paired r = false ->
  findIndex (reverseOf r) s = None ->
  nth_error (fold_left resolveAt steps s) i = Some r.
Proof.
  induction steps as [|m steps IH]; intros s i r Hr Hun Hnone; simpl;
    [exact Hr|].
  assert (Hno : forall k y, nth_error s k = Some y -> reverseOf r y = false)
    by (apply findIndex_None; exact Hnone).
  assert (Hstep : nth_error (resolveAt s m) i = Some r
                  /\ findIndex (reverseOf r) (resolveAt s m) = None).
  { unfold resolveAt.
    destruct (nth_error s m) as [r1|] eqn:Hm; [|now split].
    destruct (paired r1) eqn:Hp1; [now split|].
    destruct (findIndex (reverseOf r1) s) as [j|] eqn:Hj; [|now split].
    destruct (findIndex_Some _ _ _ Hj) as (r2 & H2 & Hrev & _).
    rewrite H2.
    assert (Hent1 : reverseEntities r r1 = false).
    { pose proof (Hno m r1 Hm) as K. rewrite reverseOf_split, Hp1 in K.
      simpl in K. now rewrite andb_true_r in K. }
    assert (Hp2 : paired r2 = false).
    { rewrite reverseOf_split in Hrev. apply andb_true_iff in Hrev.
      destruct Hrev as [_ K]. now apply negb_true_iff in K. }
    assert (Hent2 : reverseEntities r r2 = false).
    { pose proof (Hno j r2 H2) as K. rewrite reverseOf_split, Hp2 in K.
      simpl in K. now rewrite andb_true_r in K. }
    assert (Him : i <> m).
    { intros ->. rewrite Hr in Hm. injection Hm as <-.
      rewrite Hnone in Hj. discriminate. }
    assert (Hij : i <> j).
    { intros ->. rewrite Hr in H2. injection H2 as <-.
      rewrite reverseOf_split in Hrev. apply andb_true_iff in Hrev.
      destruct Hrev as [K _]. rewrite reverseEntities_sym in K. congruence. }
    split.
    - rewrite pair_other; auto.
    - apply findIndex_none_intro. intros k y Hy.
      destruct (pair_elem _ _ _ _ _ _ _ Hy)
        as (x & Hx & Hf & Ht & _ & _ & _ & [->|[[-> _]|[-> _]]]).
      + now apply (Hno k).
      + rewrite H2 in Hx. injection Hx as <-.
        rewrite reverseOf_split. unfold reverseEntities in *.
        rewrite Hf, Ht, Hent2. reflexivity.
      + rewrite Hm in Hx. injection Hx as <-.
        rewrite reverseOf_split. unfold reverseEntities in *.
        rewrite Hf, Ht, Hent1. reflexivity. }
  destruct Hstep as [H1 H2]. now apply IH.
Qed.




Lemma length_pair i j r1 r2 s : length (pair i j r1 r2 s) = length s.
Proof. pair_cases; repeat rewrite length_update; reflexivity. Qed.

Lemma length_resolveAt s m : length (resolveAt s m) = length s.
Proof.
  unfold resolveAt.
  repeat match goal with
  | |- context [match ?x with _ => _ end] => destruct x
  end; auto using length_pair.
Qed.

Lemma length_fold_resolveAt steps s :
  length (fold_left resolveAt steps s) = length s.
Proof.
  revert s. induction steps as [|m steps IH]; intro s; simpl; [reflexivity|].
  now rewrite IH, length_resolveAt.
Qed.

(** The turn of [m] either changes nothing or pairs two unpaired stubs. *)
Lemma resolveAt_cases s m :
  resolveAt s m = s
  \/ exists r1 j r2,
       nth_error s m = Some r1 /\ paired r1 = false
       /\ findIndex (reverseOf r1) s = Some j
       /\ nth_error s j = Some r2 /\ paired r2 = false
       /\ resolveAt s m = pair m j r1 r2 s.
Proof.
  unfold resolveAt.
  destruct (nth_error s m) as [r1|] eqn:Hm; [|now left].
  destruct (paired r1) eqn:Hp1; [now left|].
  destruct (findIndex (reverseOf r1) s) as [j|] eqn:Hj; [|now left].
  destruct (findIndex_Some _ _ _ Hj) as (r2 & H2 & Hrev & _).
  rewrite H2. right. exists r1, j, r2. repeat split; auto.
  rewrite reverseOf_split in Hrev. apply andb_true_iff in Hrev.
  destruct Hrev as [_ K]. now apply negb_true_iff in K.
Qed.

Lemma paired_stays s m k x :
  nth_error s k = Some x -> paired x = true ->
  nth_error (resolveAt s m) k = Some x.
Proof.
  intros Hx Hp.
  destruct (resolveAt_cases s m)
    as [->|(r1 & j & r2 & Hm & Hp1 & _ & H2 & Hp2 & ->)]; [exact Hx|].
  rewrite pair_other; [exact Hx| |]; intros ->; congruence.
Qed.

Lemma paired_stays_fold steps : forall s k x,
  nth_error s k = Some x -> paired x = true ->
  nth_error (fold_left resolveAt steps s) k = Some x.
Proof.
  induction steps as [|m steps IH]; intros s k x Hx Hp; simpl; [exact Hx|].
  apply IH; [|exact Hp]. now apply paired_stays.
Qed.

Lemma good_resolveAt s m : Good s -> Good (resolveAt s m).
Proof.
  intro G.
  destruct (resolveAt_cases s m)
    as [->|(r1 & j & r2 & Hm & Hp1 & _ & H2 & Hp2 & ->)]; [exact G|].
  intros k y Hy.
  destruct (pair_elem _ _ _ _ _ _ _ Hy)
    as (x & Hx & _ & _ & Hl & _ & _ & [->|[[-> Hi]|[-> [_ Hi]]]]).
  - now apply (G k).
  - destruct (G _ _ H2) as [N2 _]. destruct (G _ _ Hm) as [N1 _].
    split; [unfold named in *; congruence|].
    unfold paired. rewrite Hi. unfold named in N1. congruence.
  - destruct (G _ _ H2) as [N2 _]. destruct (G _ _ Hm) as [N1 _].
    split; [unfold named in *; congruence|].
    unfold paired. rewrite Hi. unfold named in N2. congruence.
Qed.

Lemma good_fold steps s : Good s -> Good (fold_left resolveAt steps s).
Proof.
  revert s. induction steps as [|m steps IH]; intros s G; simpl; [exact G|].
  apply IH. now apply good_resolveAt.
Qed.

Lemma fresh_named_good stubs :
  Forall fresh stubs -> Forall named stubs -> Good stubs.
Proof.
  intros F N k x Hx. apply nth_error_In in Hx.
  rewrite Forall_forall in F, N. split; [now apply N|].
  intros _. now destruct (F x Hx).
Qed.

Lemma resolve_from_turn stubs i :
  i < length stubs ->
  resolve stubs
  = fold_left resolveAt (seq (S i) (length stubs - S i))
      (resolveAt (reached stubs i) i).
Proof.
  intro Hi. unfold resolve, reached.
  replace (length stubs) with (i + S (length stubs - S i)) at 1 by lia.
  rewrite seq_app, fold_left_app. reflexivity.
Qed.

Lemma pair_many i j r1 r2 s :
  nth_error s i = Some r1 -> nth_error s j = Some r2 ->
  origKind r1 = Some "many" -> origKind r2 = Some "many" ->
  isOwner r2 = false ->
  exists o1 o2,
    nth_error (pair i j r1 r2 s) i = Some o1
    /\ nth_error (pair i j r1 r2 s) j = Some o2
    /\ inverseSide o1 = NotNull (localName r2)
    /\ inverseSide o2 = NotNull (localName r1)
    /\ relType o1 = ManyToMany /\ relType o2 = ManyToMany
    /\ isOwner o1 = true /\ (i <> j -> isOwner o2 = false).
Proof.
  intros H1 H2 K1 K2 O2.
  assert (E : i = j -> localName r1 = localName r2) by (intros ->; congruence).
  unfold pair. rewrite K1, K2. simpl.
  repeat rewrite nth_error_update. rewrite !Nat.eqb_refl.
  destruct (Nat.eqb_spec i j) as [Eij|Eij].
  - subst j. rewrite Nat.eqb_refl, H1. simpl.
    do 2 eexists. repeat split; simpl; try reflexivity.
    + now rewrite (E eq_refl).
    + intro N. now destruct N.
  - destruct (Nat.eqb_spec j i) as [Eji|Eji]; [now destruct Eij|].
    rewrite H1, H2. simpl.
    do 2 eexists. repeat split; simpl; try reflexivity. intros _. exact O2.
Qed.

Lemma pair_one i j r1 r2 s :
  nth_error s i = Some r1 -> nth_error s j = Some r2 ->
  origKind r1 = Some "one" -> origKind r2 = Some "one" ->
  isOwner r1 = false -> isOwner r2 = false ->
  exists o1 o2,
    nth_error (pair i j r1 r2 s) i = Some o1
    /\ nth_error (pair i j r1 r2 s) j = Some o2
    /\ inverseSide o1 = NotNull (localName r2)
    /\ inverseSide o2 = NotNull (localName r1)
    /\ relType o1 = OneToOne /\ relType o2 = OneToOne
    /\ (i <> j -> isOwner o1 && isOwner o2 = false)
    /\ isOwner o1 || isOwner o2
       = truthy (joinColumnName r1) || truthy (joinColumnName r2).
Proof.
  intros H1 H2 K1 K2 O1 O2.
  assert (E : i = j -> r1 = r2) by (intros ->; congruence).
  unfold pair. rewrite K1, K2. simpl.
  destruct (truthy (joinColumnName r1)) eqn:J1;
    [|destruct (truthy (joinColumnName r2)) eqn:J2];
    repeat rewrite nth_error_update; rewrite !Nat.eqb_refl;
    (destruct (Nat.eqb_spec i j) as [Eij|Eij];
     [ pose proof (E Eij) as Er; subst j; subst r2;
       rewrite ?Nat.eqb_refl, H1; simpl
     | destruct (Nat.eqb_spec j i) as [Eji|Eji]; [now destruct Eij|];
       rewrite ?H1, ?H2; simpl ]);
    do 2 eexists; repeat split; simpl; try reflexivity;
    rewrite ?O1, ?O2; try reflexivity; try congruence;
    try (intro N; now destruct N).
Qed.

(** The turn of a stub that is unpaired and self-referential and that no
    unpaired stub between the same entities precedes: the [find] returns the
    stub itself. *)
Lemma self_turn stubs i r :
  nth_error stubs i = Some r ->
  paired r = false ->
  fromEntity r = Some (toEntity r) ->
  (forall k x, k < i -> nth_error stubs k = Some x -> reverseOf r x = false) ->
  findIndex (reverseOf r) stubs = Some i
  /\ exists r',
       nth_error (resolveAt stubs i) i = Some r'
       /\ inverseSide r' = NotNull (localName r)
       /\ (origKind r = Some "many" ->
           relType r' = ManyToMany /\ isOwner r' = true)
       /\ (named r -> forall steps,
           nth_error (fold_left resolveAt steps (resolveAt stubs i)) i = Some r').
Proof.
  intros Hr Hun Hself Hbefore.
  assert (Hrev : reverseOf r r = true).
  { unfold reverseOf. rewrite Hself, Hun, !same_refl. reflexivity. }
  assert (Hfind : findIndex (reverseOf r) stubs = Some i)
    by (apply (findIndex_first _ _ _ r); auto).
  split; [exact Hfind|].
  assert (Hkeep : forall r',
             nth_error (resolveAt stubs i) i = Some r' ->
             inverseSide r' = NotNull (localName r) ->
             named r -> forall steps,
             nth_error (fold_left resolveAt steps (resolveAt stubs i)) i = Some r').
  { intros r' Hr' Hinv Hn steps. apply paired_stays_fold; [exact Hr'|].
    unfold paired. rewrite Hinv. exact Hn. }
  revert Hkeep.
  unfold resolveAt. rewrite Hr, Hun, Hfind, Hr. unfold pair.
  destruct (equals (origKind r) "many") eqn:Em; simpl.
  - repeat rewrite nth_error_update. rewrite Nat.eqb_refl, Hr. simpl.
    intro Hkeep. eexists. split; [reflexivity|]. simpl.
    split; [reflexivity|]. split; [auto|]. now apply Hkeep.
  - destruct (equals (origKind r) "one") eqn:Eo; simpl.
    + destruct (truthy (joinColumnName r));
        repeat rewrite nth_error_update; rewrite Nat.eqb_refl, Hr; simpl;
        intro Hkeep; (eexists; split; [reflexivity|]); simpl;
        (split; [reflexivity|]);
        (split; [intro K; apply equals_eq in K; congruence|]);
        now apply Hkeep.
    + repeat rewrite nth_error_update. rewrite Nat.eqb_refl, Hr. simpl.
      intro Hkeep. eexists; split; [reflexivity|]; simpl.
      split; [reflexivity|].
      split; [intro K; apply equals_eq in K; congruence|].
      now apply Hkeep.
Qed.

(** C5, as amended.  Let the stubs be as collected (no inverse side, no
    owner) and let every local name be a non-empty string.  When the loop
    reaches the unpaired stub at index [i] and pairs it with the stub at
    index [j], then in the resolved array: if both were declared with
    ["many"], both are many-to-many, the stub at [i] carries [isOwner] and
    the one at [j], if it is another stub, does not; if both were declared
    with ["one"], both are one-to-one, two distinct stubs do not both
    carry [isOwner], and one of them carries it exactly when a join column
    was resolved for either of them. *)
Theorem pair_ownership stubs i j r1 r2 :
  Forall fresh stubs -> Forall named stubs ->
  nth_error (reached stubs i) i = Some r1 ->
  paired r1 = false ->
  findIndex (reverseOf r1) (reached stubs i) = Some j ->
  nth_error (reached stubs i) j = Some r2 ->
  exists o1 o2,
    nth_error (resolve stubs) i = Some o1
    /\ nth_error (resolve stubs) j = Some o2
    /\ (origKind r1 = Some "many" -> origKind r2 = Some "many" ->
        relType o1 = ManyToMany /\ relType o2 = ManyToMany
        /\ isOwner o1 = true /\ (i <> j -> isOwner o2 = false))
    /\ (origKind r1 = Some "one" -> origKind r2 = Some "one" ->
        relType o1 = OneToOne /\ relType o2 = OneToOne
        /\ (i <> j -> isOwner o1 && isOwner o2 = false)
        /\ isOwner o1 || isOwner o2
           = truthy (joinColumnName r1) || truthy (joinColumnName r2)).
Proof.
  intros F N H1 Hun Hj H2.
  assert (G : Good (reached stubs i))
    by (apply good_fold, fresh_named_good; assumption).
  assert (Hp2 : paired r2 = false).
  { destruct (findIndex_Some _ _ _ Hj) as (r2' & H2' & Hrev & _).
    rewrite H2 in H2'. injection H2' as <-.
    rewrite reverseOf_split in Hrev. apply andb_true_iff in Hrev.
    destruct Hrev as [_ K]. now apply negb_true_iff in K. }
  destruct (G _ _ H1) as [N1 O1]. destruct (G _ _ H2) as [N2 O2].
  specialize (O1 Hun). specialize (O2 Hp2).
  assert (Hi : i < length stubs).
  { assert (K : nth_error (reached stubs i) i <> None) by congruence.
    apply nth_error_Some in K. unfold reached in K.
    now rewrite length_fold_resolveAt in K. }
  assert (Hturn : resolveAt (reached stubs i) i = pair i j r1 r2 (reached stubs i)).
  { unfold resolveAt. now rewrite H1, Hun, Hj, H2. }
  assert (Hkeep : forall k x,
             nth_error (pair i j r1 r2 (reached stubs i)) k = Some x ->
             paired x = true -> nth_error (resolve stubs) k = Some x).
  { intros k x Hx Hp. rewrite (resolve_from_turn stubs i Hi), Hturn.
    now apply paired_stays_fold. }
  assert (P1 : forall o, inverseSide o = NotNull (localName r2) -> paired o = true).
  { intros o E. unfold paired. rewrite E. exact N2. }
  assert (P2 : forall o, inverseSide o = NotNull (localName r1) -> paired o = true).
  { intros o E. unfold paired. rewrite E. exact N1. }
  destruct (pair_inverse_first i j r1 r2 _ H1 H2) as (o1 & Ho1 & I1).
  destruct (pair_inverse_second i j r1 r2 _ H1 H2) as (o2 & Ho2 & I2).
  exists o1, o2.
  split; [apply Hkeep; auto|]. split; [apply Hkeep; auto|].
  split.
  - intros K1 K2.
    destruct (pair_many i j r1 r2 _ H1 H2 K1 K2 O2)
      as (o1' & o2' & Ho1' & Ho2' & _ & _ & T1 & T2 & W1 & W2).
    rewrite Ho1 in Ho1'. rewrite Ho2 in Ho2'.
    injection Ho1' as <-. injection Ho2' as <-. auto.
  - intros K1 K2.
    destruct (pair_one i j r1 r2 _ H1 H2 K1 K2 O1 O2)
      as (o1' & o2' & Ho1' & Ho2' & _ & _ & T1 & T2 & W1 & W2).
    rewrite Ho1 in Ho1'. rewrite Ho2 in Ho2'.
    injection Ho1' as <-. injection Ho2' as <-. auto.
Qed.

(** The sample stubs are the ones that the collector produces. *)
Lemma enrolment_stubs :
  @stubsOf asciiHost enrolmentFiles = [coursesStub; studentsStub].
Proof. vm_compute. reflexivity. Qed.

Lemma categories_stubs : @stubsOf asciiHost categoriesFiles = [childrenStub].
Proof. vm_compute. reflexivity. Qed.

Lemma pair_ownership_witness :
  exists o1 o2,
    nth_error (resolve [coursesStub; studentsStub]) 0 = Some o1
    /\ nth_error (resolve [coursesStub; studentsStub]) 1 = Some o2
    /\ relType o1 = ManyToMany /\ relType o2 = ManyToMany
    /\ isOwner o1 = true /\ isOwner o2 = false.
Proof.
  destruct (pair_ownership [coursesStub; studentsStub] 0 1
              coursesStub studentsStub)
    as (o1 & o2 & H1 & H2 & Hmany & _); try reflexivity.
  - repeat constructor.
  - repeat constructor.
  - exists o1, o2. destruct (Hmany eq_refl eq_refl) as (T1 & T2 & W1 & W2).
    repeat split; auto.
Defined.

(** Against C5 as the specification states it, a relation property named by
    a string literal: its stub has no local name, the stub paired with it
    still counts as unpaired, and a later stub pairs with it again.  In
    [quotedKeyFiles] the loop, reaching the stub at index 2, pairs it with
    the stub at index 0, both declared with ["many"], and both carry
    [isOwner] in the resolved array. *)
Lemma quoted_key_two_owners :
  exists r1 r2 o1 o2,
    nth_error (reached (@stubsOf asciiHost quotedKeyFiles) 2) 2 = Some r1
    /\ paired r1 = false
    /\ findIndex (reverseOf r1) (reached (@stubsOf asciiHost quotedKeyFiles) 2)
       = Some 0
    /\ nth_error (reached (@stubsOf asciiHost quotedKeyFiles) 2) 0 = Some r2
    /\ origKind r1 = Some "many" /\ origKind r2 = Some "many"
    /\ nth_error (resolve (@stubsOf asciiHost quotedKeyFiles)) 2 = Some o1
    /\ nth_error (resolve (@stubsOf asciiHost quotedKeyFiles)) 0 = Some o2
    /\ relType o1 = ManyToMany /\ relType o2 = ManyToMany
    /\ isOwner o1 = true /\ isOwner o2 = true.
Proof.
  do 4 eexists. vm_compute. repeat split; reflexivity.
Qed.

(** ** Nullable columns (C7) *)

(** The second loop of [getColumn] is the loop over the frames. *)
Lemma modifiers_frames name : forall call col,
  modifiers name call col
  = forEach (fun col frame => modifier name (fst frame) (snd frame) col)
            (frames call) col.
Proof.
  fix IH 1. intros call col.
  destruct call as [| | | | | | | | | | |callee args| | |]; try reflexivity.
  simpl. destruct (modifier name callee args col) as [col'|e]; [|reflexivity].
  simpl.
  destruct callee as [| | | | | | | | |next| |next ?|next ?| |[next|] ? ? ? ?];
    try reflexivity; apply IH.
Qed.




Section ColumnOptions.

Context {host : Host}.



End ColumnOptions.






Lemma frames_not_a_call init : isCallExpression init = false -> frames init = [].
Proof. destruct init; simpl; auto; discriminate. Qed.

Section ExtractedColumn.

Context {host : Host}.


End ExtractedColumn.

(** *** Objects *)

Lemma In_set {V : Type} (k : string) (v : V) (o : Obj V) (e : string * V) :
  In e (set k v o) -> e = (k, v) \/ In e o.
Proof.
  induction o as [|[k' v'] o IH]; simpl.
  - intros [<-|[]]. now left.
  - destruct (String.eqb k k'); simpl.
    + intros [<-|H]; auto.
    + intros [<-|H]; auto. destruct (IH H); auto.
Qed.

Lemma get_In {V : Type} (k : string) (v : V) (o : Obj V) :
  get k o = Some v -> In (k, v) o.
Proof.
  induction o as [|[k' v'] o IH]; simpl; [discriminate|].
  destruct (String.eqb k k') eqn:E.
  - intro H. injection H as <-. apply String.eqb_eq in E. subst. now left.
  - intro H. right. now apply IH.
Qed.

Lemma In_insertByIndex_any {V : Type} n m (e e' : string * V) l :
  In (m, e) (insertByIndex n e' l) -> e = e' \/ In (m, e) l.
Proof.
  induction l as [|[m' x] l IH]; simpl.
  - intros [H|[]]. injection H as _ <-. now left.
  - destruct (N.ltb n m'); simpl.
    + intros [H|H]; auto. injection H as _ <-. now left.
    + intros [H|H]; auto. destruct (IH H); auto.
Qed.

Lemma In_indexed {V : Type} (o : Obj V) m e :
  In (m, e) (indexed o) -> In e o.
Proof.
  induction o as [|[k v] o IH]; simpl; [tauto|].
  destruct (arrayIndex k).
  - intro H. destruct (In_insertByIndex_any _ _ _ _ _ H) as [->|H']; auto.
  - auto.
Qed.

(** [Object.entries] lists properties of the object. *)
Lemma In_entries {V : Type} (o : Obj V) (e : string * V) :
  In e (entries o) -> In e o.
Proof.
  unfold entries. intro H. apply in_app_or in H. destruct H as [H|H].
  - apply in_map_iff in H. destruct H as ([m e'] & <- & H).
    now apply In_indexed in H.
  - unfold stringKeys in H. now apply filter_In in H.
Qed.

Section Pipeline.

Context {host : Host}.







Lemma relationProperty_entityData fromVar c rp :
  entityData (relationProperty fromVar c rp) = entityData c.
Proof.
  unfold relationProperty.
  repeat match goal with
  | |- context [match ?x with _ => _ end] => destruct x
  end; reflexivity.
Qed.

Lemma relationsDeclaration_entityData c args c' :
  relationsDeclaration c args = Ok c' -> entityData c' = entityData c.
Proof.
  unfold relationsDeclaration, bind.
  destruct (ts.test isArrowFunction (nth_error args 1)); [|discriminate].
  assert (F : forall props,
             entityData (fold_left (relationProperty
               match nth_error args 0 with
               | Some a => escapedText a
               | None => None
               end) props c) = entityData c).
  { intro props.
    apply (fold_left_invariant (fun c0 => entityData c0 = entityData c)); auto.
    intros s a _ Hs. now rewrite relationProperty_entityData. }
  repeat match goal with
  | |- context [match ?x with _ => _ end] => destruct x
  end; intro H; injection H as <-; auto.
Qed.





End Pipeline.

Lemma get_set_same {V : Type} (k : string) (v : V) (o : Obj V) :
  get k (set k v o) = Some v.
Proof.
  induction o as [|[k' v'] o IH]; simpl.
  - now rewrite String.eqb_refl.
  - destruct (String.eqb k k') eqn:E; simpl.
    + now rewrite String.eqb_refl.
    + now rewrite E.
Qed.


Lemma users_model : @analyse asciiHost [("users.ts", usersFile)] = Ok usersModel.
Proof. vm_compute. reflexivity. Qed.

(** ** The stubs that reach the resolver *)

Section FreshStubs.

Context {host : Host}.

Lemma relationProperty_stubs fromVar c rp :
  relationStubs (relationProperty fromVar c rp) = relationStubs c
  \/ exists r,
       relationStubs (relationProperty fromVar c rp) = (relationStubs c ++ [r])%list
       /\ fresh r.
Proof.
  destruct rp as [| | | | | | | |pname init| | | | | |]; try (now left).
  destruct init as [| | | | | | | | | | |callee args| | |]; try (now left).
  destruct (nth_error args 0) as [target|] eqn:Harg.
  - destruct (truthy (escapedText target)) eqn:Ht.
    + right.
      destruct (relationProperty_pushes fromVar c pname callee args target
                  Harg Ht) as (r & Hr & _ & _ & _ & Hi & Ho).
      exists r. split; [exact Hr|]. now split.
    + left. unfold relationProperty. rewrite Harg.
      now destruct (escapedText target) as [[|a t]|].
  - left. unfold relationProperty. now rewrite Harg.
Qed.

Lemma tableDeclaration_stubs c d args c' :
  tableDeclaration c d args = Ok c' -> relationStubs c' = relationStubs c.
Proof.
  unfold tableDeclaration, bind. cbv zeta.
  destruct (match isObj (nth_error args 1) with
            | Some props => forEach columnProperty props []
            | None => Ok []
            end) as [cols|]; [|discriminate].
  destruct (tableExtras _ (nth_error args 2) cols) as [[cols' ixs]|];
    [|discriminate].
  intro H. injection H as <-. now destruct (read _ (entityData c)).
Qed.

Lemma relationsDeclaration_fresh c args c' :
  Forall fresh (relationStubs c) -> relationsDeclaration c args = Ok c' ->
  Forall fresh (relationStubs c').
Proof.
  intro F. unfold relationsDeclaration, bind.
  destruct (ts.test isArrowFunction (nth_error args 1)); [|discriminate].
  assert (K : forall fromVar props,
             Forall fresh (relationStubs
                             (fold_left (relationProperty fromVar) props c))).
  { intros fromVar props.
    apply (fold_left_invariant (fun c0 => Forall fresh (relationStubs c0)));
      auto.
    intros s rp _ Fs.
    destruct (relationProperty_stubs fromVar s rp) as [->|(r & -> & Fr)]; auto.
    apply Forall_app. split; auto. }
  repeat match goal with
  | |- context [match ?x with _ => _ end] => destruct x
  end; intro H; injection H as <-; auto.
Qed.

(** The stubs that the second traversal collects are fresh. *)
Lemma collect_fresh files c :
  collect files = Ok c -> Forall fresh (relationStubs c).
Proof.
  unfold collect.
  apply (forEach_invariant (fun c => Forall fresh (relationStubs c))).
  - intros s f s' _ Fs. unfold collectFile.
    apply (forEach_invariant (fun c => Forall fresh (relationStubs c))); auto.
    intros s1 n s1' _ Fs1. destruct n; simpl;
      [|intro H; injection H as <-; exact Fs1].
    apply (forEach_invariant (fun c => Forall fresh (relationStubs c))); auto.
    intros s2 d s2' _ Fs2. unfold declaration.
    destruct (decl_initializer d) as [init|];
      [|intro H; injection H as <-; exact Fs2].
    destruct init; try (intro H; injection H as <-; exact Fs2).
    unfold bind.
    destruct (if equals (escapedText init) "pgTable"
              then tableDeclaration s2 d arguments0 else Ok s2) as [s3|] eqn:E3;
      [|discriminate].
    assert (Fs3 : Forall fresh (relationStubs s3)).
    { destruct (equals (escapedText init) "pgTable").
      - now rewrite (tableDeclaration_stubs _ _ _ _ E3).
      - now injection E3 as <-. }
    destruct (equals (escapedText init) "relations").
    + now apply relationsDeclaration_fresh.
    + intro H. now injection H as <-.
  - apply (fold_left_invariant (fun c => Forall fresh (relationStubs c))).
    + intros s f _ Fs. unfold registerFile.
      apply (fold_left_invariant (fun c => Forall fresh (relationStubs c)));
        auto.
      intros s1 n _ Fs1. destruct n; simpl; auto.
      apply (fold_left_invariant (fun c => Forall fresh (relationStubs c)));
        auto.
      intros s2 d _ Fs2. unfold register.
      repeat match goal with
      | |- context [match ?x with _ => _ end] => destruct x
      end; auto.
    + constructor.
Qed.

Lemma stubsOf_fresh files : Forall fresh (stubsOf files).
Proof.
  unfold stubsOf. destruct (collect files) as [c|] eqn:E; [|constructor].
  now apply (collect_fresh files).
Qed.

End FreshStubs.

(** ** Stubs of an entity on itself (C6, C10) *)

(** An earlier turn does not touch a self-referential stub: the stub whose
    turn it is, if it looks for a stub between the same entities, finds
    itself or an earlier one. *)
Lemma self_untouched s i r m :
  nth_error s i = Some r ->
  fromEntity r = Some (toEntity r) ->
  m < i ->
  nth_error (resolveAt s m) i = Some r.
Proof.
  intros Hr Hself Hm.
  destruct (resolveAt_cases s m)
    as [->|(r1 & j & r2 & H1 & Hp1 & Hj & H2 & Hp2 & ->)]; [exact Hr|].
  rewrite pair_other; [exact Hr|lia|].
  intros ->. rewrite Hr in H2. injection H2 as <-.
  destruct (findIndex_Some _ _ _ Hj) as (x & Hx & Hrev & Hfirst).
  rewrite Hr in Hx. injection Hx as <-.
  assert (K : reverseOf r1 r1 = true).
  { unfold reverseOf in *. rewrite Hp1.
    apply andb_true_iff in Hrev. destruct Hrev as [Hrev _].
    apply andb_true_iff in Hrev. destruct Hrev as [A B].
    apply same_eq in A, B. rewrite Hself in A. injection A as A.
    rewrite <- B, A, !same_refl. reflexivity. }
  rewrite (Hfirst m r1 Hm H1) in K. discriminate.
Qed.

Lemma self_untouched_fold steps : forall s i r,
  nth_error s i = Some r ->
  fromEntity r = Some (toEntity r) ->
  (forall m, In m steps -> m < i) ->
  nth_error (fold_left resolveAt steps s) i = Some r.
Proof.
  induction steps as [|m steps IH]; intros s i r Hr Hself Hlt; simpl;
    [exact Hr|].
  apply IH; [|exact Hself|intros k Hk; apply Hlt; now right].
  apply self_untouched; auto. apply Hlt. now left.
Qed.

Section SelfReference.

Context {host : Host}.

(** C10.  Among the stubs collected from any files, let the stub at index
    [i] be self-referential (its [fromEntity] is its [toEntity]), and let no
    unpaired stub between the same entities precede it when the loop
    reaches it.  Then the [find] of its turn returns the stub itself, and
    after its turn its [inverseSide] is its own [localName]; when its
    declared kind is ["many"], its [relType] is many-to-many and it carries
    [isOwner].  When its local name is a non-empty string, the stub is the
    same in the resolved array. *)
Theorem self_pairing files i r :
  nth_error (stubsOf files) i = Some r ->
  fromEntity r = Some (toEntity r) ->
  (forall k x, k < i -> nth_error (reached (stubsOf files) i) k = Some x ->
               reverseOf r x = false) ->
  findIndex (reverseOf r) (reached (stubsOf files) i) = Some i
  /\ exists o,
       nth_error (reached (stubsOf files) (S i)) i = Some o
       /\ inverseSide o = NotNull (localName r)
       /\ (origKind r = Some "many" ->
           relType o = ManyToMany /\ isOwner o = true)
       /\ (named r -> nth_error (resolve (stubsOf files)) i = Some o).
Proof.
  intros Hr Hself Hbefore.
  assert (Hun : paired r = false).
  { pose proof (stubsOf_fresh files) as F. rewrite Forall_forall in F.
    destruct (F r (nth_error_In _ _ Hr)) as [I _].
    unfold paired. now rewrite I. }
  assert (Hi : i < length (stubsOf files)).
  { apply nth_error_Some. congruence. }
  assert (Hat : nth_error (reached (stubsOf files) i) i = Some r).
  { unfold reached. apply self_untouched_fold; auto.
    intros m Hm. apply in_seq in Hm. lia. }
  destruct (self_turn _ _ _ Hat Hun Hself Hbefore)
    as (Hfind & r' & Hr' & Hinv & Hmany & Hkeep).
  split; [exact Hfind|]. exists r'.
  assert (Hnext : reached (stubsOf files) (S i)
                  = resolveAt (reached (stubsOf files) i) i).
  { unfold reached. rewrite seq_S, fold_left_app. reflexivity. }
  rewrite Hnext. repeat split; try assumption; try now apply Hmany.
  intro Hn. rewrite (resolve_from_turn _ i Hi). now apply Hkeep.
Qed.

End SelfReference.

Lemma self_pairing_witness :
  exists o,
    nth_error (resolve (@stubsOf asciiHost categoriesFiles)) 0 = Some o
    /\ inverseSide o = NotNull (Some "children")
    /\ relType o = ManyToMany /\ isOwner o = true.
Proof.
  destruct (@self_pairing asciiHost categoriesFiles 0 childrenStub)
    as (_ & o & _ & Hinv & Hmany & Hfinal).
  - vm_compute. reflexivity.
  - reflexivity.
  - intros k x Hk. lia.
  - exists o. split; [apply Hfinal; reflexivity|]. split; [exact Hinv|].
    now apply Hmany.
Defined.

(** C6, what the code does.  The [find] of the resolver does not exclude the
    stub whose turn it is.  In [treeFiles] the stubs [parent] and [children]
    of [categories] are each the reverse of the other, and yet each is
    paired with itself: [parent] becomes one-to-one with itself for inverse
    side, [children] many-to-many with itself for inverse side. *)
Theorem tree_stubs_pair_with_themselves :
  exists parent children parent' children',
    @stubsOf asciiHost treeFiles = [parent; children]
    /\ localName parent = Some "parent"
    /\ localName children = Some "children"
    /\ reverseOf parent children = true
    /\ relType parent = ManyToOne /\ relType children = OneToMany
    /\ resolve [parent; children] = [parent'; children']
    /\ inverseSide parent' = NotNull (Some "parent")
    /\ inverseSide children' = NotNull (Some "children")
    /\ relType parent' = OneToOne /\ relType children' = ManyToMany.
Proof. do 4 eexists. vm_compute. repeat split; reflexivity. Qed.

(** ** The default that reaches the descriptor *)

Lemma forEach_app {A S : Type} (f : S -> A -> result S) (l1 l2 : list A) (s : S) :
  forEach f (l1 ++ l2) s = (s' <- forEach f l1 s ;; forEach f l2 s').
Proof.
  revert s. induction l1 as [|a l1 IH]; intro s; simpl; [reflexivity|].
  destruct (f s a); simpl; auto.
Qed.

Lemma referenceOption_default col p :
  col_default (referenceOption col p) = col_default col.
Proof.
  destruct p; try reflexivity. unfold referenceOption.
  repeat match goal with
  | |- context [match ?x with _ => _ end] => destruct x
  end; reflexivity.
Qed.

Lemma fold_referenceOption_default props col :
  col_default (fold_left referenceOption props col) = col_default col.
Proof.
  revert col. induction props as [|p props IH]; intro col; simpl; [reflexivity|].
  rewrite IH. apply referenceOption_default.
Qed.

Lemma references_default args col col' :
  references args col = Ok col' -> col_default col' = col_default col.
Proof.
  unfold references, bind.
  destruct (ts.test isArrowFunction (nth_error args 0)); [|discriminate].
  assert (F1 : forall c, c = match nth_error args 0 with
             | Some (ArrowFunction (PropertyAccessExpression e _)) =>
                 with_referencesVar (escapedText e) col
             | _ => col
             end -> col_default c = col_default col).
  { intros c ->.
    repeat match goal with
    | |- context [match ?x with _ => _ end] => destruct x
    end; reflexivity. }
  destruct (isObj (nth_error args 1)) as [props|]; intro H; injection H as <-.
  - rewrite fold_referenceOption_default. now apply F1.
  - now apply F1.
Qed.

(** A frame that is neither [default] nor [defaultNow] keeps the default. *)
Lemma modifier_keeps_default name callee args col col' :
  equals (nameText callee) "default" = false ->
  equals (nameText callee) "defaultNow" = false ->
  modifier name callee args col = Ok col' ->
  col_default col' = col_default col.
Proof.
  intros D1 D2. unfold modifier. rewrite D1, D2.
  repeat match goal with
  | |- context [if equals ?x ?y then _ else _] => destruct (equals x y) eqn:?
  end;
  try (intro H; injection H as <-; reflexivity).
  apply references_default.
Qed.

Lemma frames_keep_default name fs : forall col col',
  (forall f, In f fs ->
             equals (nameText (fst f)) "default" = false
             /\ equals (nameText (fst f)) "defaultNow" = false) ->
  forEach (fun col frame => modifier name (fst frame) (snd frame) col) fs col
  = Ok col' ->
  col_default col' = col_default col.
Proof.
  induction fs as [|[callee args] fs IH]; intros col col' Hfs H; simpl in H.
  - now injection H as <-.
  - destruct (modifier name callee args col) as [col1|] eqn:E; simpl in H;
      [|discriminate].
    rewrite (IH col1 col'); auto.
    + destruct (Hfs (callee, args) (or_introl eq_refl)) as [D1 D2].
      now apply (modifier_keeps_default name callee args).
    + intros f Hf. apply Hfs. now right.
Qed.

Lemma conventions_default name col :
  col_default (conventions name col) = col_default col.
Proof.
  unfold conventions.
  destruct (equals name "createdAt"), (equals name "updatedAt"); reflexivity.
Qed.

Section StoredDefault.

Context {host : Host}.

(** The default of the descriptor is the one stored by the [default] frame
    that is processed last, the innermost of the chain, when no [defaultNow]
    frame is processed after it. *)
Lemma getColumn_default init name col outer callee args inner :
  getColumn init name = Ok col ->
  frames init = (outer ++ (callee, args) :: inner)%list ->
  nameText callee = Some "default" ->
  (forall f, In f inner ->
             equals (nameText (fst f)) "default" = false
             /\ equals (nameText (fst f)) "defaultNow" = false) ->
  col_default col = defaultValue (nth_error args 0).
Proof.
  intros Hg Hf Hm Hinner. unfold getColumn in Hg.
  destruct (isCallExpression init) eqn:Ecall; cbn [negb] in Hg.
  2:{ rewrite (frames_not_a_call _ Ecall) in Hf. now destruct outer. }
  destruct (ts.arguments (chainRoot init)) as [rootArgs|]; [|discriminate].
  rewrite modifiers_frames, Hf, forEach_app in Hg. unfold bind in Hg.
  destruct (forEach _ outer _) as [col1|]; [|discriminate].
  simpl in Hg. unfold modifier at 1 in Hg. rewrite Hm in Hg. simpl in Hg.
  destruct (forEach _ inner _) as [col2|] eqn:E2; [|discriminate].
  injection Hg as <-.
  rewrite conventions_default.
  now rewrite (frames_keep_default _ _ _ _ Hinner E2).
Qed.
End StoredDefault.

(** ** When the column extractor returns *)

(** A loop whose steps succeed or fail whatever the state returns exactly
    when every step succeeds. *)
Lemma forEach_returns {A S : Type} (f : S -> A -> result S) (ok : A -> Prop)
  (l : list A) :
  (forall s a, returns (f s a) <-> ok a) ->
  forall s, returns (forEach f l s) <-> Forall ok l.
Proof.
  intro Hf. induction l as [|a l IH]; intro s; simpl.
  - split; [constructor|]. intros _. now exists s.
  - split.
    + intros [s' H]. destruct (f s a) as [s1|] eqn:E; simpl in H; [|discriminate].
      constructor.
      * apply (Hf s a). rewrite E. now exists s1.
      * apply (IH s1). now exists s'.
    + intro H. inversion H as [|a' l' Ha Hl]; subst.
      apply (Hf s a) in Ha. destruct Ha as [s1 E]. rewrite E. simpl.
      now apply IH.
Qed.

Lemma references_returns args col :
  returns (references args col) <-> nth_error args 0 <> None.
Proof.
  unfold references, bind, ts.test.
  destruct (nth_error args 0) as [a|]; split.
  - discriminate.
  - intros _. eexists. reflexivity.
  - intros [x H]. discriminate.
  - intro H. now destruct H.
Qed.

Lemma modifier_returns name callee args col :
  returns (modifier name callee args col) <-> frameOk (callee, args).
Proof.
  unfold modifier, frameOk. cbn [fst snd].
  generalize (nameText callee) as m. intro m.
  repeat match goal with
  | |- context [if equals m ?y then _ else _] => destruct (equals m y) eqn:?
  end;
  repeat match goal with
  | H : equals m _ = true |- _ => apply equals_eq in H; subst m
  end;
  try (split; [intros _ K; discriminate K|intros _; eexists; reflexivity]).
  rewrite references_returns. tauto.
Qed.

Section ExtractorReturns.

Context {host : Host}.

(** X1.  [getColumn] returns a descriptor exactly when the initializer is
    not a call, or the walk down the chain ends on a call and every
    [.references(...)] frame of the chain has an argument.  In every other
    case it throws. *)
Theorem getColumn_returns_iff init name :
  returns (getColumn init name)
  <-> isCallExpression init = false
      \/ (ts.arguments (chainRoot init) <> None
          /\ Forall frameOk (frames init)).
Proof.
  unfold getColumn.
  destruct (isCallExpression init) eqn:Ecall; cbn [negb].
  2:{ split; [now left|]. intros _. eexists; reflexivity. }
  destruct (ts.arguments (chainRoot init)) as [args|].
  2:{ split; [intros [x H]; discriminate|].
      intros [H|[H _]]; [discriminate|now destruct H]. }
  rewrite modifiers_frames.
  match goal with
  | |- returns (bind (forEach ?f ?l ?s) _) <-> _ =>
      pose proof (forEach_returns f frameOk l
                    (fun st a => modifier_returns name (fst a) (snd a) st)) as R;
      specialize (R s); destruct (forEach f l s) as [col|] eqn:E
  end; simpl.
  - split.
    + intros _. right. split; [discriminate|]. apply R. now exists col.
    + intros _. eexists; reflexivity.
  - split.
    + intros [x H]. discriminate.
    + intros [H|[_ H]]; [discriminate|]. apply R in H. destruct H as [x H].
      discriminate.
Qed.

End ExtractorReturns.

(** ** The flags of an extracted column *)

Lemma referenceOption_keeps col p :
  let col' := referenceOption col p in
  flags col' = flags col /\ shape col' = shape col
  /\ col_type col' = col_type col /\ col_unique col' = col_unique col
  /\ col_array col' = col_array col /\ col_generated col' = col_generated col
  /\ col_createDate col' = col_createDate col
  /\ col_updateDate col' = col_updateDate col.
Proof.
  destruct p; try (repeat split; reflexivity). unfold referenceOption.
  repeat match goal with
  | |- context [match ?x with _ => _ end] => destruct x
  end; repeat split; reflexivity.
Qed.

Lemma keeps_refl col : keeps col col.
Proof. repeat split. Qed.

Lemma keeps_trans a b c : keeps a b -> keeps b c -> keeps a c.
Proof.
  unfold keeps. intros (A1&A2&A3&A4&A5&A6&A7&A8) (B1&B2&B3&B4&B5&B6&B7&B8).
  repeat split; congruence.
Qed.

Lemma fold_referenceOption_keeps props col :
  keeps col (fold_left referenceOption props col).
Proof.
  revert col. induction props as [|p props IH]; intro col; simpl.
  - apply keeps_refl.
  - eapply keeps_trans; [|apply IH]. apply referenceOption_keeps.
Qed.

Lemma references_keeps args col col' :
  references args col = Ok col' -> keeps col col'.
Proof.
  unfold references, bind.
  destruct (ts.test isArrowFunction (nth_error args 0)); [|discriminate].
  assert (F1 : forall c, c = match nth_error args 0 with
             | Some (ArrowFunction (PropertyAccessExpression e _)) =>
                 with_referencesVar (escapedText e) col
             | _ => col
             end -> keeps col c).
  { intros c ->.
    repeat match goal with
    | |- context [match ?x with _ => _ end] => destruct x
    end; repeat split; reflexivity. }
  destruct (isObj (nth_error args 1)) as [props|]; intro H; injection H as <-.
  - eapply keeps_trans; [apply (F1 _ eq_refl)|].
    apply fold_referenceOption_keeps.
  - now apply F1.
Qed.

(** What one frame does to the descriptor, property by property. *)
Lemma modifier_effect name callee args col col' :
  modifier name callee args col = Ok col' ->
  let frame := (callee, args) in
  col_nullable col'
  = col_nullable col
    && negb (isFrame "notNull" frame || isFrame "primaryKey" frame
             || isFrame "defaultRandom" frame)
  /\ col_primary col' = col_primary col || isFrame "primaryKey" frame
  /\ col_unique col' = col_unique col || isFrame "unique" frame
  /\ col_array col' = col_array col || isFrame "array" frame
  /\ col_updateDate col' = col_updateDate col || isFrame "$onUpdate" frame
  /\ col_createDate col' = col_createDate col
  /\ col_generated col'
     = (if isFrame "defaultRandom" frame then Some "uuid" else col_generated col)
  /\ col_type col'
     = (if isFrame "defaultRandom" frame then "uuid" else col_type col)
  /\ shape col' = shape col.
Proof.
  unfold modifier, isFrame. cbn [fst snd].
  generalize (nameText callee) as m. intro m.
  repeat match goal with
  | |- context [if equals m ?y then _ else _] => destruct (equals m y) eqn:?
  end;
  repeat match goal with
  | H : equals m _ = true |- _ => apply equals_eq in H; subst m
  end;
  try (match goal with
       | H : equals (Some _) _ = true |- _ => cbn in H; discriminate H
       end);
  try (intro H; injection H as <-; cbn;
       rewrite ?andb_true_r, ?orb_false_r, ?orb_true_r, ?andb_false_r;
       repeat split; reflexivity).
  - intro H; injection H as <-. cbn.
    rewrite ?andb_true_r, ?orb_false_r.
    destruct (equals name "createdAt"); repeat split; reflexivity.
  - intro H. apply references_keeps in H. cbn.
    destruct H as (F & S & T & U & A & G & C & D).
    unfold flags in F. injection F as F1 F2.
    rewrite ?andb_true_r, ?orb_false_r. repeat split; assumption.
Qed.

Lemma frames_effect name fs : forall col col',
  forEach (fun col frame => modifier name (fst frame) (snd frame) col) fs col
  = Ok col' ->
  col_nullable col'
  = col_nullable col
    && negb (existsb (isFrame "notNull") fs || existsb (isFrame "primaryKey") fs
             || existsb (isFrame "defaultRandom") fs)
  /\ col_primary col' = col_primary col || existsb (isFrame "primaryKey") fs
  /\ col_unique col' = col_unique col || existsb (isFrame "unique") fs
  /\ col_array col' = col_array col || existsb (isFrame "array") fs
  /\ col_updateDate col' = col_updateDate col || existsb (isFrame "$onUpdate") fs
  /\ col_createDate col' = col_createDate col
  /\ col_generated col'
     = (if existsb (isFrame "defaultRandom") fs then Some "uuid"
        else col_generated col)
  /\ col_type col'
     = (if existsb (isFrame "defaultRandom") fs then "uuid" else col_type col)
  /\ shape col' = shape col.
Proof.
  induction fs as [|[callee args] fs IH]; intros col col' H; simpl in H.
  - injection H as <-. simpl.
    rewrite andb_true_r, !orb_false_r. repeat split.
  - destruct (modifier name callee args col) as [col1|] eqn:E; simpl in H;
      [|discriminate].
    destruct (modifier_effect _ _ _ _ _ E)
      as (A1 & A2 & A3 & A4 & A5 & A6 & A7 & A8 & A9).
    destruct (IH _ _ H) as (B1 & B2 & B3 & B4 & B5 & B6 & B7 & B8 & B9).
    rewrite B1, B2, B3, B4, B5, B6, B7, B8, B9, A1, A2, A3, A4, A5, A6, A7, A8, A9.
    cbn [existsb].
    repeat split;
      repeat match goal with
      | |- context [isFrame ?m ?f] => destruct (isFrame m f)
      | |- context [existsb ?p ?l] => destruct (existsb p l)
      end;
      repeat match goal with
      | |- context [col_nullable ?c] => destruct (col_nullable c)
      | |- context [col_primary ?c] => destruct (col_primary c)
      | |- context [col_unique ?c] => destruct (col_unique c)
      | |- context [col_array ?c] => destruct (col_array c)
      | |- context [col_updateDate ?c] => destruct (col_updateDate c)
      end; reflexivity.
Qed.

Section ExtractedFlags.

Context {host : Host}.

Lemma columnOption_keeps col p :
  let col' := columnOption col p in
  flags col' = flags col /\ col_unique col' = col_unique col
  /\ col_array col' = col_array col /\ col_generated col' = col_generated col
  /\ col_createDate col' = col_createDate col
  /\ col_updateDate col' = col_updateDate col
  /\ col_name col' = col_name col.
Proof.
  destruct p; try (repeat split; reflexivity). unfold columnOption.
  repeat match goal with
  | |- context [match ?x with _ => _ end] => destruct x
  end; repeat split; reflexivity.
Qed.

Lemma fold_columnOption_keeps props : forall col,
  let col' := fold_left columnOption props col in
  flags col' = flags col /\ col_unique col' = col_unique col
  /\ col_array col' = col_array col /\ col_generated col' = col_generated col
  /\ col_createDate col' = col_createDate col
  /\ col_updateDate col' = col_updateDate col
  /\ col_name col' = col_name col.
Proof.
  induction props as [|p props IH]; intro col; simpl; [repeat split|].
  destruct (IH (columnOption col p)) as (A1&A2&A3&A4&A5&A6&A7).
  destruct (columnOption_keeps col p) as (B1&B2&B3&B4&B5&B6&B7).
  repeat split; congruence.
Qed.

Lemma getColumn_call init name col :
  isCallExpression init = true ->
  getColumn init name = Ok col ->
  exists args col3,
    ts.arguments (chainRoot init) = Some args
    /\ forEach (fun col frame => modifier name (fst frame) (snd frame) col)
               (frames init) (rooted init name args) = Ok col3
    /\ col = conventions name col3.
Proof.
  intros Ecall. unfold getColumn. rewrite Ecall. cbn [negb].
  destruct (ts.arguments (chainRoot init)) as [args|]; [|discriminate].
  rewrite modifiers_frames. unfold bind.
  fold (rooted init name args).
  destruct (forEach _ (frames init) (rooted init name args)) as [col3|] eqn:E;
    [|discriminate].
  intro H. injection H as <-. exists args, col3. auto.
Qed.

Lemma rooted_flags init name args :
  let col := rooted init name args in
  col_nullable col = true /\ col_primary col = false
  /\ col_unique col = false /\ col_array col = false
  /\ col_generated col = None /\ col_createDate col = false
  /\ col_updateDate col = false
  /\ col_name col
     = match isStr (nth_error args 0) with
       | Some t => if opt_eqb (Some t) name then None else Some t
       | None => None
       end.
Proof.
  unfold rooted.
  set (col0 := with_type _ textColumn).
  set (col1 := match isStr (nth_error args 0) with
               | Some t => if opt_eqb (Some t) name then col0
                           else with_name (Some t) col0
               | None => col0
               end).
  assert (K1 : flags col1 = (true, false) /\ col_unique col1 = false
               /\ col_array col1 = false /\ col_generated col1 = None
               /\ col_createDate col1 = false /\ col_updateDate col1 = false
               /\ col_name col1
                  = match isStr (nth_error args 0) with
                    | Some t => if opt_eqb (Some t) name then None else Some t
                    | None => None
                    end).
  { unfold col1. destruct (isStr (nth_error args 0)); [|repeat split].
    destruct (opt_eqb (Some s) name); repeat split. }
  destruct K1 as (A1&A2&A3&A4&A5&A6&A7).
  destruct (isObj (nth_error args 1)) as [props|].
  - destruct (fold_columnOption_keeps props col1) as (B1&B2&B3&B4&B5&B6&B7).
    cbv zeta in *. rewrite A1 in B1. unfold flags in B1. injection B1 as C1 C2.
    repeat split; congruence.
  - unfold flags in A1. injection A1 as C1 C2. repeat split; assumption.
Qed.

(** X2.  For a column declared by a call chain, the flags of the descriptor
    are read off the chain and the property name: the column is nullable
    unless the chain has a [notNull], [primaryKey] or [defaultRandom] frame
    or the property is named [createdAt]; it is primary, unique or an array
    exactly when the chain has the frame of that name.  The order of the
    frames does not matter. *)
Theorem getColumn_flags init name col :
  isCallExpression init = true ->
  getColumn init name = Ok col ->
  col_nullable col
  = negb (hasModifier "notNull" init || hasModifier "primaryKey" init
          || hasModifier "defaultRandom" init || equals name "createdAt")
  /\ col_primary col = hasModifier "primaryKey" init
  /\ col_unique col = hasModifier "unique" init
  /\ col_array col = hasModifier "array" init.
Proof.
  intros Ecall H.
  destruct (getColumn_call _ _ _ Ecall H) as (args & col3 & _ & E & ->).
  destruct (frames_effect _ _ _ _ E) as (B1 & B2 & B3 & B4 & _).
  destruct (rooted_flags init name args) as (A1 & A2 & A3 & A4 & _).
  cbv zeta in *. rewrite A1 in B1. rewrite A2 in B2. rewrite A3 in B3.
  rewrite A4 in B4. unfold hasModifier. fold (isFrame "notNull").
  fold (isFrame "primaryKey"). fold (isFrame "defaultRandom").
  fold (isFrame "unique"). fold (isFrame "array").
  unfold conventions.
  destruct (equals name "createdAt"), (equals name "updatedAt"); cbn;
    rewrite ?B1, ?B2, ?B3, ?B4; cbn;
    rewrite ?orb_false_r, ?orb_true_r; repeat split; reflexivity.
Qed.

(** X3.  For a column declared by a call chain: [createDate] is set exactly
    for the property [createdAt]; [updateDate] exactly when the chain has a
    [$onUpdate] frame or the property is [updatedAt]; [generated] is
    ["uuid"] exactly when the chain has a [defaultRandom] frame, and then
    the type is ["uuid"] whatever the root call and its options say. *)
Theorem getColumn_conventions init name col :
  isCallExpression init = true ->
  getColumn init name = Ok col ->
  col_createDate col = equals name "createdAt"
  /\ col_updateDate col
     = hasModifier "$onUpdate" init || equals name "updatedAt"
  /\ col_generated col
     = (if hasModifier "defaultRandom" init then Some "uuid" else None)
  /\ (hasModifier "defaultRandom" init = true -> col_type col = "uuid").
Proof.
  intros Ecall H.
  destruct (getColumn_call _ _ _ Ecall H) as (args & col3 & _ & E & ->).
  destruct (frames_effect _ _ _ _ E) as (_ & _ & _ & _ & B5 & B6 & B7 & B8 & _).
  destruct (rooted_flags init name args) as (_ & _ & _ & _ & A5 & A6 & A7 & _).
  cbv zeta in *. rewrite A7 in B5. rewrite A6 in B6. rewrite A5 in B7.
  unfold hasModifier. fold (isFrame "$onUpdate"). fold (isFrame "defaultRandom").
  unfold conventions.
  destruct (equals name "createdAt"), (equals name "updatedAt"); cbn;
    rewrite ?B5, ?B6, ?B7, ?B8; cbn;
    rewrite ?orb_false_r, ?orb_true_r; repeat split;
    try reflexivity; intros ->; reflexivity.
Qed.

(** X4.  For a column declared by a call chain, the descriptor has the
    physical name [t] exactly when the first argument of the root call is
    the string literal [t] and [t] is not the property name: a name equal
    to the property name is left out, and nothing else sets one. *)
Theorem getColumn_name init name col t :
  isCallExpression init = true ->
  getColumn init name = Ok col ->
  (col_name col = Some t
   <-> name <> Some t
       /\ exists args,
            ts.arguments (chainRoot init) = Some args
            /\ nth_error args 0 = Some (StringLiteral t)).
Proof.
  intros Ecall H.
  destruct (getColumn_call _ _ _ Ecall H) as (args & col3 & Ha & E & ->).
  destruct (frames_effect _ _ _ _ E) as (_ & _ & _ & _ & _ & _ & _ & _ & B9).
  destruct (rooted_flags init name args) as (_ & _ & _ & _ & _ & _ & _ & A8).
  cbv zeta in *. unfold shape in B9. injection B9 as B9 _ _ _ _.
  assert (N : col_name (conventions name col3) = col_name col3).
  { unfold conventions.
    destruct (equals name "createdAt"), (equals name "updatedAt"); reflexivity. }
  rewrite N, B9, A8. clear N B9 A8.
  split.
  - destruct (isStr (nth_error args 0)) as [t0|] eqn:E0; [|discriminate].
    assert (H0 : nth_error args 0 = Some (StringLiteral t0)).
    { destruct (nth_error args 0) as [[]|]; try discriminate.
      simpl in E0. now injection E0 as ->. }
    destruct (opt_eqb (Some t0) name) eqn:E2; [discriminate|].
    intro K; injection K as <-.
    split; [|exists args; auto].
    intro K. subst name. simpl in E2. rewrite String.eqb_refl in E2.
    discriminate.
  - intros (Hn & args' & Ha' & H0). rewrite Ha in Ha'. injection Ha' as <-.
    rewrite H0. cbn [isStr].
    destruct (opt_eqb (Some t) name) eqn:E2; [|reflexivity].
    apply opt_eqb_eq in E2. congruence.
Qed.

End ExtractedFlags.

Lemma getColumn_flags_witness :
  exists col,
    @getColumn asciiHost userIdColumn (Some "id") = Ok col
    /\ col_nullable col = false /\ col_primary col = true
    /\ col_unique col = false /\ col_array col = false.
Proof.
  eexists. split; [reflexivity|].
  apply (@getColumn_flags asciiHost userIdColumn (Some "id") _ eq_refl eq_refl).
Defined.

Lemma getColumn_conventions_witness :
  exists col,
    @getColumn asciiHost tokenColumn (Some "token") = Ok col
    /\ col_generated col = Some "uuid" /\ col_type col = "uuid".
Proof.
  eexists. split; [reflexivity|].
  destruct (@getColumn_conventions asciiHost tokenColumn (Some "token") _
              eq_refl eq_refl) as (_ & _ & G & T).
  split; [exact G|exact (T eq_refl)].
Defined.

Lemma getColumn_name_witness :
  exists col,
    @getColumn asciiHost userIdColumn (Some "id") = Ok col
    /\ col_name col = Some "user_id".
Proof.
  eexists. split; [reflexivity|].
  apply (@getColumn_name asciiHost userIdColumn (Some "id") _ "user_id"
           eq_refl eq_refl).
  split; [discriminate|].
  exists [StringLiteral "user_id"]. split; reflexivity.
Defined.

(** ** The type of an extracted column *)

(** [toType] gives a value of the type table, or the member of
    [Object.prototype] that its argument names. *)
Lemma toType_cases x :
  (exists t, toType x = Str t /\ In t (map snd typeMap))
  \/ (exists m, toType x = Member m /\ x = Some m /\ inherited m = true).
Proof.
  unfold toType, lookup, read.
  destruct (get (key x) typeMap) as [t|] eqn:E.
  - left. cbn [isTruthy]. destruct (nonempty t).
    + exists t. split; [reflexivity|].
      apply get_In in E. now apply (in_map snd) in E.
    + exists "text". split; [reflexivity|]. simpl. tauto.
  - destruct (inherited (key x)) eqn:I.
    + right. exists (key x). cbn [isTruthy].
      destruct x as [s|]; [auto|discriminate I].
    + left. exists "text". split; [reflexivity|]. simpl. tauto.
Qed.

Lemma listed_not_enum t : In t (map snd typeMap) -> t <> "enum".
Proof.
  intro H. simpl in H.
  repeat (destruct H as [<-|H]; [discriminate|]). destruct H.
Qed.

Lemma listed_documented t :
  In t (map snd typeMap) ->
  exists d, lookup t JS_DOC_TYPE_MAP = Some (Str d) /\ In d documentationTypes.
Proof.
  intro H. simpl in H.
  repeat (destruct H as [<-|H];
          [eexists; split; [reflexivity|simpl; tauto]|]).
  destruct H.
Qed.

(** The text of a member is no key of [JS_DOC_TYPE_MAP]. *)
Lemma member_undocumented m :
  inherited m = true -> lookup (memberText m) JS_DOC_TYPE_MAP = None.
Proof.
  intro H. unfold inherited in H. apply existsb_exists in H.
  destruct H as (k & Hk & E). apply String.eqb_eq in E. subst k.
  simpl in Hk.
  repeat (destruct Hk as [<-|Hk]; [reflexivity|]). destruct Hk.
Qed.

Section ExtractedType.

Context {host : Host}.

(** An option keeps the type and the enum members, or sets both, or sets
    the type to ["timestamptz"]. *)
Lemma columnOption_type col p :
  (col_type (columnOption col p) = col_type col
   /\ col_enum (columnOption col p) = col_enum col)
  \/ (col_type (columnOption col p) = Str "enum"
      /\ col_enum (columnOption col p) <> None)
  \/ col_type (columnOption col p) = Str "timestamptz".
Proof.
  destruct p; try (left; split; reflexivity). unfold columnOption.
  repeat match goal with
  | |- context [match ?x with _ => _ end] => destruct x
  | |- context [if ?b then _ else _] => destruct b
  end; simpl;
    solve [ left; split; reflexivity
          | right; left; split; [reflexivity|discriminate]
          | right; right; reflexivity ].
Qed.

Lemma columnOption_typed root col p :
  typed root col -> typed root (columnOption col p).
Proof.
  unfold typed. intro T.
  destruct (columnOption_type col p) as [[-> ->]|[[-> N]| ->]].
  - exact T.
  - split; [simpl; tauto|]. intros _. exact N.
  - split; [simpl; tauto|discriminate].
Qed.

Lemma rooted_typed init name args :
  typed (rootTarget (chainRoot init)) (rooted init name args).
Proof.
  unfold rooted.
  set (col0 := with_type _ textColumn).
  assert (T0 : typed (rootTarget (chainRoot init)) col0).
  { unfold typed, col0. simpl.
    destruct (toType_cases (rootTarget (chainRoot init)))
      as [(t & -> & Ht)|(m & -> & Hm & Hi)].
    - split; [now right|]. intro K. exfalso. revert K.
      now apply listed_not_enum.
    - auto. }
  set (col1 := match isStr (nth_error args 0) with
               | Some t => if opt_eqb (Some t) name then col0
                           else with_name (Some t) col0
               | None => col0
               end).
  assert (T1 : typed (rootTarget (chainRoot init)) col1).
  { unfold col1. destruct (isStr (nth_error args 0)); auto.
    destruct (opt_eqb (Some s) name); auto. }
  destruct (isObj (nth_error args 1)) as [props|]; auto.
  apply fold_left_invariant; auto.
  intros s p _. apply columnOption_typed.
Qed.

Lemma getColumn_typed init name col :
  getColumn init name = Ok col -> typed (rootTarget (chainRoot init)) col.
Proof.
  intro H. destruct (isCallExpression init) eqn:Ecall.
  - destruct (getColumn_call _ _ _ Ecall H) as (args & col3 & _ & E & ->).
    destruct (frames_effect _ _ _ _ E) as (_ & _ & _ & _ & _ & _ & _ & B8 & B9).
    pose proof (rooted_typed init name args) as T.
    unfold shape in B9. injection B9 as _ _ _ _ B9.
    assert (T3 : typed (rootTarget (chainRoot init)) col3).
    { unfold typed in *. rewrite B8, B9.
      destruct (existsb _ _); [|exact T].
      split; [simpl; tauto|discriminate]. }
    unfold conventions.
    destruct (equals name "createdAt"), (equals name "updatedAt"); exact T3.
  - unfold getColumn in H. rewrite Ecall in H. injection H as <-.
    split; simpl; [tauto|discriminate].
Qed.

(** X5.  The type of a descriptor that [getColumn] returns is ["enum"] or a
    value of the type table, and then the documentation type of a column
    without enum members is one of those of [JS_DOC_TYPE_MAP], never the
    fallback [any]; or else the callee of the root call has the name of a
    member of [Object.prototype], which [typeMap[x]] finds: then the type
    is that member, not a string, and the documentation type is [any]. *)
Theorem getColumn_type_documented init name col :
  getColumn init name = Ok col ->
  match col_type col with
  | Str t =>
      In t vocabulary
      /\ (col_enum col = None -> In (jsType col) documentationTypes)
  | Member m =>
      rootTarget (chainRoot init) = Some m /\ inherited m = true
      /\ jsType col = "any"
  end.
Proof.
  intro H. pose proof (getColumn_typed _ _ _ H) as T.
  unfold typed in T. unfold jsType.
  destruct (col_type col) as [t|m].
  - destruct T as [T E]. split; [exact T|]. intros N. rewrite N.
    destruct T as [<-|T]; [now destruct (E eq_refl)|].
    cbn [stringOf].
    destruct (listed_documented t T) as (d & -> & Hd). cbn [stringOf isTruthy].
    simpl in Hd.
    repeat (destruct Hd as [<-|Hd]; [simpl; tauto|]). destruct Hd.
  - destruct T as (R & I & N). repeat split; auto.
    rewrite N. cbn [stringOf]. now rewrite member_undocumented.
Qed.

End ExtractedType.

Lemma getColumn_type_documented_witness :
  exists col,
    @getColumn asciiHost constructorColumn (Some "id") = Ok col
    /\ col_type col = Member "constructor"
    /\ jsType col = "any".
Proof.
  eexists. split; [reflexivity|]. split; [reflexivity|].
  apply (@getColumn_type_documented asciiHost constructorColumn (Some "id") _
           eq_refl).
Defined.

(** ** Composite keys and index entries *)

(** *** Assignment to a property *)

Lemma get_set_other {V : Type} (k k' : string) (v : V) (o : Obj V) :
  k' <> k -> get k' (set k v o) = get k' o.
Proof.
  intro N. induction o as [|[k0 v0] o IH]; simpl.
  - destruct (String.eqb k' k) eqn:E; [|reflexivity].
    apply String.eqb_eq in E. contradiction.
  - destruct (String.eqb k k0) eqn:E; simpl.
    + apply String.eqb_eq in E. subst k0.
      destruct (String.eqb k' k) eqn:E'; [|reflexivity].
      apply String.eqb_eq in E'. contradiction.
    + destruct (String.eqb k' k0); [reflexivity|exact IH].
Qed.

Lemma keys_set_present {V : Type} (k : string) (v v0 : V) (o : Obj V) :
  get k o = Some v0 -> map fst (set k v o) = map fst o.
Proof.
  induction o as [|[k0 x] o IH]; simpl; [discriminate|].
  destruct (String.eqb k k0) eqn:E; simpl.
  - intros _. apply String.eqb_eq in E. now subst.
  - intro H. now rewrite IH.
Qed.

Lemma keys_set {V : Type} (k : string) (v : V) (o : Obj V) :
  map fst (set k v o) = map fst o \/ map fst (set k v o) = (map fst o ++ [k])%list.
Proof.
  induction o as [|[k0 x] o IH]; simpl; [now right|].
  destruct (String.eqb k k0) eqn:E; simpl.
  - left. apply String.eqb_eq in E. now subst.
  - destruct IH as [-> | ->]; auto.
Qed.

(** *** The composite key *)

Lemma onlyMarks_refl cols : onlyMarks cols cols.
Proof. split; [reflexivity|]. intros k c H. exists c. auto. Qed.

Lemma onlyMarks_trans a b c : onlyMarks a b -> onlyMarks b c -> onlyMarks a c.
Proof.
  intros [K1 M1] [K2 M2]. split; [congruence|].
  intros k c' H. destruct (M2 _ _ H) as (cb & Hb & E).
  destruct (M1 _ _ Hb) as (ca & Ha & E').
  exists ca. split; [exact Ha|].
  destruct E as [-> | ->], E' as [-> | ->]; auto.
Qed.

Lemma keyMember_onlyMarks cols colEl : onlyMarks cols (keyMember cols colEl).
Proof.
  unfold keyMember.
  destruct (nameText colEl) as [[|a colName]|]; try apply onlyMarks_refl.
  destruct (read (String a colName) cols) as [c| |] eqn:E;
    try apply onlyMarks_refl.
  apply read_Own in E. split.
  - now apply (keys_set_present _ _ c).
  - intros k c' H. destruct (String.eqb_spec k (String a colName)) as [->|N].
    + rewrite get_set_same in H. injection H as <-. exists c. auto.
    + rewrite get_set_other in H by exact N. exists c'. auto.
Qed.

(** X6.  A [primaryKey({ columns: [...] })] entry of the table extras keeps
    the keys of the column map and their order, adds no column, and leaves
    every descriptor as it was or as it was with [primary: true] and
    [nullable: false]: a member that names no column of the table is
    skipped. *)
Theorem compositeKey_only_marks cols args :
  onlyMarks cols (compositeKey cols args).
Proof.
  unfold compositeKey. destruct (isObj (nth_error args 0)) as [props|];
    [|apply onlyMarks_refl].
  apply (fold_left_invariant (onlyMarks cols)); [|apply onlyMarks_refl].
  intros s p _ Hs. eapply onlyMarks_trans; [exact Hs|].
  unfold keyProperty. destruct p; try apply onlyMarks_refl.
  destruct p2; try apply onlyMarks_refl.
  destruct (equals (escapedText p1) "columns"); [|apply onlyMarks_refl].
  apply (fold_left_invariant (onlyMarks s)); [|apply onlyMarks_refl].
  intros s' e _ Hs'. eapply onlyMarks_trans; [exact Hs'|].
  apply keyMember_onlyMarks.
Qed.

(** *** Index entries *)

Lemma onColumns_all : forall c acc,
  Forall hasFirst (onArguments c) ->
  onColumns c acc = Ok (acc ++ flat_map onColumn (onArguments c))%list.
Proof.
  fix IH 1. intros c acc.
  destruct c as [| | | | | | | | | | |callee args| | |];
    try (intros _; simpl; now rewrite app_nil_r).
  destruct callee as [| | | | | | | | | | | |inner method| |];
    try (intros _; simpl; now rewrite app_nil_r).
  simpl. destruct (equals (escapedText method) "on");
    [|intros _; simpl; now rewrite app_nil_r].
  intro H. inversion H as [|a l Ha Hl]; subst.
  unfold hasFirst in Ha.
  destruct args as [|arg rest]; [now destruct Ha|].
  destruct arg; simpl; rewrite (IH inner _ Hl); try reflexivity;
    try (now rewrite <- app_assoc).
Qed.

Lemma onColumns_some_missing : forall c acc,
  ~ Forall hasFirst (onArguments c) ->
  onColumns c acc = Throw cannot_read_kind.
Proof.
  fix IH 1. intros c acc.
  destruct c as [| | | | | | | | | | |callee args| | |];
    try (intro H; exfalso; apply H; constructor).
  destruct callee as [| | | | | | | | | | | |inner method| |];
    try (intro H; exfalso; apply H; constructor).
  simpl. destruct (equals (escapedText method) "on");
    [|intro H; exfalso; apply H; constructor].
  intro H. destruct args as [|arg rest]; [reflexivity|]. simpl.
  apply IH. intro K. apply H. constructor; [|exact K].
  unfold hasFirst. discriminate.
Qed.

(** X7.  An index entry whose [on] calls end on [index(...)] or
    [uniqueIndex(...)]: when every [on] call has an argument, the
    descriptor has the text of the root's first argument as its name, is
    unique exactly for [uniqueIndex], and lists the names of the [on]
    arguments that are property accesses, outermost call first, the other
    arguments being skipped; when some [on] call has no argument, reading
    the entry throws. *)
Theorem indexEntry_spec e marker rootArgs :
  onRoot e = CallExpression marker rootArgs ->
  escapedText marker = Some "index" \/ escapedText marker = Some "uniqueIndex" ->
  (Forall hasFirst (onArguments e) ->
   indexEntry e
   = Ok (Some {| idx_name :=
                   match nth_error rootArgs 0 with
                   | Some a => ts.text a
                   | None => None
                   end;
                 idx_columns := flat_map onColumn (onArguments e);
                 idx_unique := equals (escapedText marker) "uniqueIndex" |}))
  /\ (~ Forall hasFirst (onArguments e) ->
      indexEntry e = Throw cannot_read_kind).
Proof.
  intros Hroot Hm. unfold indexEntry. rewrite Hroot.
  assert (E : equals (escapedText marker) "index"
              || equals (escapedText marker) "uniqueIndex" = true).
  { destruct Hm as [-> | ->]; reflexivity. }
  rewrite E. split; intro H.
  - now rewrite (onColumns_all e [] H).
  - now rewrite (onColumns_some_missing e [] H).
Qed.

Lemma indexEntry_spec_witness :
  indexEntry uniqueAB
  = Ok (Some {| idx_name := Some "ux";
                idx_columns := [Some "b"; Some "a"];
                idx_unique := true |}).
Proof.
  apply (indexEntry_spec uniqueAB (Identifier "uniqueIndex")
           [StringLiteral "ux"] eq_refl (or_intror eq_refl)).
  repeat constructor; discriminate.
Defined.

(** ** The names of the output files *)

Section OutputNames.

Context {host : Host}.

Lemma register_registered names file c d :
  In file names -> registered names c -> registered names (register file c d).
Proof.
  intros Hin [R1 R2]. unfold register.
  destruct (decl_initializer d) as [init|]; [|now split].
  destruct init; try now split.
  destruct (String.eqb (getText init) "pgTable"); [|now split].
  set (ent := match isStr (nth_error arguments0 0) with
              | Some t => snakeToPascal t
              | None => pascal (escapedText (decl_name d))
              end).
  split; simpl.
  - intros var ent' H.
    destruct (String.eqb_spec var (key (escapedText (decl_name d)))) as [->|N].
    + rewrite get_set_same in H. injection H as <-.
      exists file. apply get_set_same.
    + rewrite get_set_other in H by exact N.
      destruct (R1 _ _ H) as [file' Hf].
      destruct (String.eqb_spec ent' ent) as [->|N'].
      * exists file. apply get_set_same.
      * exists file'. now rewrite get_set_other.
  - intros ent' file' H. destruct (In_set _ _ _ _ H) as [K|K].
    + now injection K as -> ->.
    + now apply (R2 ent').
Qed.

Lemma register_entityData file c d :
  entityData (register file c d) = entityData c
  /\ relationStubs (register file c d) = relationStubs c.
Proof.
  unfold register.
  repeat match goal with
  | |- context [match ?x with _ => _ end] => destruct x
  end; split; reflexivity.
Qed.

Lemma registry_registered names files c :
  (forall f, In f files -> In (fst f) names) ->
  registered names c ->
  registered names (fold_left registerFile files c).
Proof.
  intros Hn. apply fold_left_invariant.
  intros s f Hf Rs. unfold registerFile.
  apply fold_left_invariant; auto.
  intros s1 n _ R1. destruct n; simpl; auto.
  apply fold_left_invariant; auto.
  intros s2 d _ R2. apply register_registered; auto.
Qed.

Lemma registry_entityData files c :
  entityData (fold_left registerFile files c) = entityData c
  /\ relationStubs (fold_left registerFile files c) = relationStubs c.
Proof.
  apply (fold_left_invariant
           (fun c0 => entityData c0 = entityData c
                      /\ relationStubs c0 = relationStubs c)); auto.
  intros s f _ Rs. unfold registerFile.
  apply fold_left_invariant; auto.
  intros s1 n _ R1. destruct n; simpl; auto.
  apply fold_left_invariant; auto.
  intros s2 d _ [A B]. destruct (register_entityData (fst f) s2 d) as [A' B'].
  split; congruence.
Qed.

(** The second traversal reads the registry and never writes it. *)
Lemma tableDeclaration_registry c d args c' :
  tableDeclaration c d args = Ok c' ->
  var2entity c' = var2entity c /\ entity2file c' = entity2file c.
Proof.
  unfold tableDeclaration, bind. cbv zeta.
  destruct (match isObj (nth_error args 1) with
            | Some props => forEach columnProperty props []
            | None => Ok []
            end) as [cols|]; [|discriminate].
  destruct (tableExtras _ (nth_error args 2) cols) as [[cols' ixs]|];
    [|discriminate].
  intro H. injection H as <-.
  destruct (read _ (entityData c)); split; reflexivity.
Qed.

Lemma relationProperty_registry fromVar c rp :
  var2entity (relationProperty fromVar c rp) = var2entity c
  /\ entity2file (relationProperty fromVar c rp) = entity2file c.
Proof.
  unfold relationProperty.
  repeat match goal with
  | |- context [match ?x with _ => _ end] => destruct x
  end; split; reflexivity.
Qed.

Lemma relationsDeclaration_registry c args c' :
  relationsDeclaration c args = Ok c' ->
  var2entity c' = var2entity c /\ entity2file c' = entity2file c.
Proof.
  unfold relationsDeclaration, bind.
  destruct (ts.test isArrowFunction (nth_error args 1)); [|discriminate].
  assert (F : forall fromVar props,
             var2entity (fold_left (relationProperty fromVar) props c)
             = var2entity c
             /\ entity2file (fold_left (relationProperty fromVar) props c)
                = entity2file c).
  { intros fromVar props.
    apply (fold_left_invariant
             (fun c0 => var2entity c0 = var2entity c
                        /\ entity2file c0 = entity2file c)); auto.
    intros s a _ [A B].
    destruct (relationProperty_registry fromVar s a) as [A' B'].
    split; congruence. }
  repeat match goal with
  | |- context [match ?x with _ => _ end] => destruct x
  end; intro H; injection H as <-; auto.
Qed.

Lemma declaration_registered names c d c' :
  registered names c -> declaration c d = Ok c' -> registered names c'.
Proof.
  intros R. unfold declaration.
  destruct (decl_initializer d) as [init|];
    [|intro H; injection H as <-; exact R].
  destruct init; try (intro H; injection H as <-; exact R).
  unfold bind.
  destruct (if equals (escapedText init) "pgTable"
            then tableDeclaration c d arguments0 else Ok c) as [c1|] eqn:E1;
    [|discriminate].
  assert (R1 : registered names c1).
  { destruct (equals (escapedText init) "pgTable").
    - destruct (tableDeclaration_registry _ _ _ _ E1) as [A B].
      destruct R as [R1 R2]. split; rewrite ?A, ?B; assumption.
    - now injection E1 as <-. }
  destruct (equals (escapedText init) "relations").
  - intro H. destruct (relationsDeclaration_registry _ _ _ H) as [A B].
    destruct R1 as [R1 R2]. split; rewrite ?A, ?B; assumption.
  - intro H. now injection H as <-.
Qed.

Lemma collect_registered files c :
  collect files = Ok c -> registered (map fst files) c.
Proof.
  unfold collect.
  apply (forEach_invariant (registered (map fst files))).
  - intros s f s' _ Ss. unfold collectFile.
    apply (forEach_invariant (registered (map fst files))); auto.
    intros s1 n s1' _ S1. destruct n; simpl;
      [|intro H; injection H as <-; exact S1].
    apply (forEach_invariant (registered (map fst files))); auto.
    intros s2 d s2' _. apply declaration_registered.
  - apply registry_registered.
    + intros f Hf. now apply in_map.
    + split; [discriminate|intros ent file []].
Qed.

Lemma analyse_registered files c :
  analyse files = Ok c -> registered (map fst files) c.
Proof.
  unfold analyse, bind.
  destruct (collect files) as [c0|] eqn:E0; [|discriminate].
  destruct (forEach attach (resolve (relationStubs c0)) (entityData c0))
    as [data|]; [|discriminate].
  intro H. injection H as <-.
  destruct (collect_registered _ _ E0) as [R1 R2]. split; assumption.
Qed.

(** *** The keys of the entity model *)

Lemma plainKeys_set {V : Type} (k : string) (v : V) (o : Obj V) :
  plainKeys o -> inherited k = false -> plainKeys (set k v o).
Proof.
  intros P I k' Hin. apply in_map_iff in Hin. destruct Hin as ([k0 v0] & <- & Hin).
  destruct (In_set _ _ _ _ Hin) as [K|K].
  - now injection K as -> _.
  - apply P. now apply (in_map fst) in K.
Qed.

Lemma read_Absent {V : Type} (k : string) (o : Obj V) :
  read k o = Absent -> get k o = None /\ inherited k = false.
Proof.
  unfold read. destruct (get k o); [discriminate|].
  destruct (inherited k); [discriminate|]. auto.
Qed.

Lemma read_Proto {V : Type} (k m : string) (o : Obj V) :
  read k o = Proto m -> get k o = None /\ inherited k = true /\ m = k.
Proof.
  unfold read. destruct (get k o); [discriminate|].
  destruct (inherited k); [|discriminate]. intro H. now injection H as <-.
Qed.

Lemma tableDeclaration_plainKeys c d args c' :
  plainKeys (entityData c) -> tableDeclaration c d args = Ok c' ->
  plainKeys (entityData c').
Proof.
  intro P. unfold tableDeclaration, bind. cbv zeta.
  destruct (match isObj (nth_error args 1) with
            | Some props => forEach columnProperty props []
            | None => Ok []
            end) as [cols|]; [|discriminate].
  destruct (tableExtras _ (nth_error args 2) cols) as [[cols' ixs]|];
    [|discriminate].
  destruct (read (entityName c d) (entityData c)) as [ent| |] eqn:E;
    intro H; injection H as <-; simpl; auto.
  - apply read_Own in E. apply plainKeys_set; [exact P|].
    apply P. apply get_In in E. now apply (in_map fst) in E.
  - apply read_Absent in E. apply plainKeys_set; [exact P|]. now destruct E.
Qed.

Lemma collect_plainKeys files c :
  collect files = Ok c -> plainKeys (entityData c).
Proof.
  unfold collect.
  apply (forEach_invariant (fun c => plainKeys (entityData c))).
  - intros s f s' _ Ps. unfold collectFile.
    apply (forEach_invariant (fun c => plainKeys (entityData c))); auto.
    intros s1 n s1' _ Ps1. destruct n; simpl;
      [|intro H; injection H as <-; exact Ps1].
    apply (forEach_invariant (fun c => plainKeys (entityData c))); auto.
    intros s2 d s2' _ Ps2. unfold declaration.
    destruct (decl_initializer d) as [init|];
      [|intro H; injection H as <-; exact Ps2].
    destruct init; try (intro H; injection H as <-; exact Ps2).
    unfold bind.
    destruct (if equals (escapedText init) "pgTable"
              then tableDeclaration s2 d arguments0 else Ok s2) as [s3|] eqn:E3;
      [|discriminate].
    assert (Ps3 : plainKeys (entityData s3)).
    { destruct (equals (escapedText init) "pgTable").
      - now apply (tableDeclaration_plainKeys _ _ _ _ Ps2 E3).
      - now injection E3 as <-. }
    destruct (equals (escapedText init) "relations").
    + intro H. now rewrite (relationsDeclaration_entityData _ _ _ H).
    + intro H. now injection H as <-.
  - destruct (registry_entityData files emptyContext) as [-> _].
    intros k [].
Qed.

Lemma attach_plainKeys data r data' :
  plainKeys data -> attach data r = Ok data' -> plainKeys data'.
Proof.
  intro P. unfold attach.
  destruct (read (propertyKey (fromEntity r)) data) as [ent| |] eqn:E;
    try discriminate.
  apply read_Own in E.
  destruct (existsb _ (relations ent)); intro H; injection H as <-; auto.
  apply plainKeys_set; [exact P|].
  apply P. apply get_In in E. now apply (in_map fst) in E.
Qed.

Lemma analyse_plainKeys files c :
  analyse files = Ok c -> plainKeys (entityData c).
Proof.
  unfold analyse, bind.
  destruct (collect files) as [c0|] eqn:E0; [|discriminate].
  destruct (forEach attach (resolve (relationStubs c0)) (entityData c0))
    as [data|] eqn:E1; [|discriminate].
  intro H. injection H as <-. simpl.
  apply (forEach_invariant (@plainKeys Entity) attach
           (resolve (relationStubs c0))) with (s := entityData c0); auto.
  - intros s a s' _. apply attach_plainKeys.
  - now apply (collect_plainKeys files).
Qed.

(** *** The names of the output files *)

Lemma emitEntity_keys files m e m' tsFile :
  emitEntity files m e = Ok m' -> In tsFile (map fst m') ->
  tsFile = propertyKey (lookup (fst e) files) \/ In tsFile (map fst m).
Proof.
  unfold emitEntity.
  destruct (read _ m) as [schemas| |]; try discriminate;
    intro H; injection H as <-; intro Hin;
    apply in_map_iff in Hin; destruct Hin as ([k' v'] & <- & Hin);
    (destruct (In_set _ _ _ _ Hin) as [K|K];
     [injection K as -> _; now left|right; now apply (in_map fst) in K]).
Qed.

Lemma emit_keys c out k :
  emit c = Ok out ->
  In k (map fst out) ->
  exists entity,
    In entity (map fst (entityData c))
    /\ k = outputName (propertyKey (lookup entity (entity2file c))).
Proof.
  unfold emit, bind.
  destruct (forEach (emitEntity (entity2file c)) (entries (entityData c)) [])
    as [fileOutputMap|] eqn:Em; [|discriminate].
  intro H. injection H as <-.
  assert (M : forall tsFile, In tsFile (map fst fileOutputMap) ->
                exists entity, In entity (map fst (entityData c))
                  /\ tsFile = propertyKey (lookup entity (entity2file c))).
  { revert Em.
    apply (forEach_invariant
             (fun m => forall tsFile, In tsFile (map fst m) ->
                exists entity, In entity (map fst (entityData c))
                  /\ tsFile = propertyKey (lookup entity (entity2file c)))).
    - intros m e m' He Hm Hstep tsFile Hin.
      destruct (emitEntity_keys _ _ _ _ _ Hstep Hin) as [->|K].
      + exists (fst e). split; [|reflexivity].
        apply in_map. now apply In_entries.
      + now apply Hm.
    - intros tsFile []. }
  intro Hin.
  assert (O : exists tsFile, In tsFile (map fst fileOutputMap)
                             /\ k = outputName tsFile).
  { revert Hin.
    apply (fold_left_invariant
             (fun out => In k (map fst out) ->
                         exists tsFile, In tsFile (map fst fileOutputMap)
                                        /\ k = outputName tsFile)).
    - intros out e He Ho Hin.
      apply in_map_iff in Hin. destruct Hin as ([k' v'] & <- & Hin).
      destruct (In_set _ _ _ _ Hin) as [K|K].
      + injection K as -> _. exists (fst e). split; [|reflexivity].
        apply in_map. now apply In_entries.
      + apply Ho. now apply (in_map fst) in K.
    - intros []. }
  destruct O as (tsFile & Ht & ->).
  destruct (M _ Ht) as (entity & He & ->).
  exists entity. auto.
Qed.

(** X8.  Every key of the output map is the name of an input file with a
    final [.ts] replaced by [.js], or the string ["undefined"], which is the
    key for the entities that no [pgTable] declaration of the first
    traversal has given a file. *)
Theorem output_names files out k :
  convert files = Ok out ->
  In k (map fst out) ->
  k = "undefined"
  \/ exists file, In file (map fst files) /\ k = outputName file.
Proof.
  unfold convert, bind.
  destruct (analyse files) as [c|] eqn:E; [|discriminate].
  intros H Hin.
  destruct (emit_keys _ _ _ H Hin) as (entity & He & ->).
  pose proof (analyse_plainKeys _ _ E entity He) as I.
  unfold lookup, read. rewrite I.
  destruct (get entity (entity2file c)) as [file|] eqn:Ef; simpl; [|now left].
  right. exists file. split; [|reflexivity].
  destruct (analyse_registered _ _ E) as [_ R2].
  apply (R2 entity). now apply get_In.
Qed.

End OutputNames.

Lemma output_names_witness :
  "users.js" = "undefined"
  \/ exists file,
       In file (map fst [("users.ts", usersFile)])
       /\ "users.js" = outputName file.
Proof.
  destruct (@convert asciiHost [("users.ts", usersFile)]) as [out|] eqn:E;
    [|vm_compute in E; discriminate E].
  apply (@output_names asciiHost [("users.ts", usersFile)] out "users.js" E).
  vm_compute in E. injection E as <-. left. reflexivity.
Defined.

(** ** What the resolver keeps *)

Lemma pair_collected i j r1 r2 s k y :
  nth_error s i = Some r1 -> nth_error s j = Some r2 ->
  nth_error (pair i j r1 r2 s) k = Some y ->
  exists x,
    nth_error s k = Some x
    /\ collected y = collected x
    /\ (y = x \/ inverseSide y <> Null)
    /\ (refined x -> refined y).
Proof.
  intros H1 H2. unfold pair.
  destruct (equals (origKind r1) "many") eqn:M1;
  destruct (equals (origKind r2) "many") eqn:M2;
  destruct (equals (origKind r1) "one") eqn:O1;
  destruct (equals (origKind r2) "one") eqn:O2;
  cbn [andb];
  try destruct (truthy (joinColumnName r1)) eqn:J1;
  try destruct (truthy (joinColumnName r2)) eqn:J2;
  repeat rewrite nth_error_update;
  destruct (Nat.eqb_spec k i) as [Eki|Eki], (Nat.eqb_spec k j) as [Ekj|Ekj];
  try subst k; try subst j;
  try (rewrite H1 in H2; injection H2 as <-);
  rewrite ?H1, ?H2; cbn [option_map];
  try destruct (nth_error s k) as [x|]; intro H; try discriminate;
  injection H as <-; eexists; (split; [reflexivity|]);
  (split; [reflexivity|]);
  (split; [first [left; reflexivity | right; discriminate]|]);
  try apply equals_eq in M1; try apply equals_eq in M2;
  try apply equals_eq in O1; try apply equals_eq in O2;
  unfold refined; cbn;
  intros [R1 R2]; (split; [intro K; try discriminate K; auto|]);
  intro K; try discriminate K; auto;
  try (left; split; [assumption|reflexivity]);
  try (right; repeat split; assumption);
  try (destruct (R2 K) as [[A B]|[A [B C]]]; congruence).
Qed.

Lemma resolveAt_collected s m k y :
  nth_error (resolveAt s m) k = Some y ->
  exists x,
    nth_error s k = Some x
    /\ collected y = collected x
    /\ (y = x \/ inverseSide y <> Null)
    /\ (refined x -> refined y).
Proof.
  destruct (resolveAt_cases s m)
    as [->|(r1 & j & r2 & Hm & _ & _ & H2 & _ & ->)].
  - intro H. exists y. auto.
  - now apply pair_collected.
Qed.

Lemma turns_collected steps : forall s k y,
  nth_error (fold_left resolveAt steps s) k = Some y ->
  exists x,
    nth_error s k = Some x
    /\ collected y = collected x
    /\ (y = x \/ inverseSide y <> Null)
    /\ (refined x -> refined y).
Proof.
  induction steps as [|m steps IH]; intros s k y H; simpl in H.
  - exists y. auto.
  - destruct (IH _ _ _ H) as (x1 & H1 & C1 & U1 & R1).
    destruct (resolveAt_collected _ _ _ _ H1) as (x & Hx & C & U & R).
    exists x. split; [exact Hx|]. split; [congruence|]. split.
    + destruct U1 as [->|N]; auto.
    + auto.
Qed.

Lemma resolve_collected stubs :
  length (resolve stubs) = length stubs
  /\ forall i o, nth_error (resolve stubs) i = Some o ->
       exists r, nth_error stubs i = Some r
                 /\ collected o = collected r
                 /\ (inverseSide o = Null -> o = r).
Proof.
  split; [apply length_fold_resolveAt|].
  intros i o H. destruct (turns_collected _ _ _ _ H) as (r & Hr & C & U & _).
  exists r. split; [exact Hr|]. split; [exact C|].
  intros N. destruct U as [->|K]; [reflexivity|contradiction].
Qed.

(** X9.  The resolver keeps the number of stubs and their positions and, in
    each, everything that the collector set except [relType]; a stub whose
    [inverseSide] is still [null] afterwards is exactly as it was
    collected. *)
Theorem resolve_keeps_collected stubs :
  length (resolve stubs) = length stubs
  /\ forall i o, nth_error (resolve stubs) i = Some o ->
       exists r, nth_error stubs i = Some r
                 /\ collected o = collected r
                 /\ (inverseSide o = Null -> o = r).
Proof.
  split; [apply length_fold_resolveAt|].
  intros i o H. destruct (turns_collected _ _ _ _ H) as (r & Hr & C & U & _).
  exists r. split; [exact Hr|]. split; [exact C|].
  intros N. destruct U as [->|K]; [reflexivity|contradiction].
Qed.

Section RefinedStubs.

Context {host : Host}.

Lemma relationProperty_refined fromVar c rp :
  relationStubs (relationProperty fromVar c rp) = relationStubs c
  \/ exists r,
       relationStubs (relationProperty fromVar c rp) = (relationStubs c ++ [r])%list
       /\ refined r.
Proof.
  destruct rp as [| | | | | | | |pname init| | | | | |]; try (now left).
  destruct init as [| | | | | | | | | | |callee args| | |]; try (now left).
  destruct (nth_error args 0) as [target|] eqn:Harg.
  - destruct (truthy (escapedText target)) eqn:Ht.
    + right.
      destruct (relationProperty_pushes fromVar c pname callee args target
                  Harg Ht) as (r & Hr & Hty & _ & _ & _ & Ho).
      exists r. split; [exact Hr|]. split.
      * rewrite Hty. unfold inferRelType.
        repeat match goal with
        | |- context [if ?b then _ else _] => destruct b
        end; discriminate.
      * rewrite Ho. discriminate.
    + left. unfold relationProperty. rewrite Harg.
      now destruct (escapedText target) as [[|a t]|].
  - left. unfold relationProperty. now rewrite Harg.
Qed.

Lemma relationsDeclaration_refined c args c' :
  Forall refined (relationStubs c) -> relationsDeclaration c args = Ok c' ->
  Forall refined (relationStubs c').
Proof.
  intro F. unfold relationsDeclaration, bind.
  destruct (ts.test isArrowFunction (nth_error args 1)); [|discriminate].
  assert (K : forall fromVar props,
             Forall refined (relationStubs
                               (fold_left (relationProperty fromVar) props c))).
  { intros fromVar props.
    apply (fold_left_invariant (fun c0 => Forall refined (relationStubs c0)));
      auto.
    intros s rp _ Fs.
    destruct (relationProperty_refined fromVar s rp) as [->|(r & -> & Fr)]; auto.
    apply Forall_app. split; auto. }
  repeat match goal with
  | |- context [match ?x with _ => _ end] => destruct x
  end; intro H; injection H as <-; auto.
Qed.

Lemma collect_refined files c :
  collect files = Ok c -> Forall refined (relationStubs c).
Proof.
  unfold collect.
  apply (forEach_invariant (fun c => Forall refined (relationStubs c))).
  - intros s f s' _ Fs. unfold collectFile.
    apply (forEach_invariant (fun c => Forall refined (relationStubs c))); auto.
    intros s1 n s1' _ Fs1. destruct n; simpl;
      [|intro H; injection H as <-; exact Fs1].
    apply (forEach_invariant (fun c => Forall refined (relationStubs c))); auto.
    intros s2 d s2' _ Fs2. unfold declaration.
    destruct (decl_initializer d) as [init|];
      [|intro H; injection H as <-; exact Fs2].
    destruct init; try (intro H; injection H as <-; exact Fs2).
    unfold bind.
    destruct (if equals (escapedText init) "pgTable"
              then tableDeclaration s2 d arguments0 else Ok s2) as [s3|] eqn:E3;
      [|discriminate].
    assert (Fs3 : Forall refined (relationStubs s3)).
    { destruct (equals (escapedText init) "pgTable").
      - now rewrite (tableDeclaration_stubs _ _ _ _ E3).
      - now injection E3 as <-. }
    destruct (equals (escapedText init) "relations").
    + now apply relationsDeclaration_refined.
    + intro H. now injection H as <-.
  - apply (fold_left_invariant (fun c => Forall refined (relationStubs c))).
    + intros s f _ Fs. unfold registerFile.
      apply (fold_left_invariant (fun c => Forall refined (relationStubs c)));
        auto.
      intros s1 n _ Fs1. destruct n; simpl; auto.
      apply (fold_left_invariant (fun c => Forall refined (relationStubs c)));
        auto.
      intros s2 d _ Fs2. unfold register.
      repeat match goal with
      | |- context [match ?x with _ => _ end] => destruct x
      end; auto.
    + constructor.
Qed.

(** X10.  In the resolved stubs of any input, a many-to-many relation was
    declared with ["many"], and an owner is either a many-to-many relation
    declared with ["many"] or a one-to-one relation declared with ["one"]
    that has a join column. *)
Theorem resolved_relTypes files o :
  In o (resolve (stubsOf files)) ->
  (relType o = ManyToMany -> origKind o = Some "many")
  /\ (isOwner o = true ->
      (origKind o = Some "many" /\ relType o = ManyToMany)
      \/ (origKind o = Some "one" /\ relType o = OneToOne
          /\ truthy (joinColumnName o) = true)).
Proof.
  intro Hin. apply In_nth_error in Hin. destruct Hin as [i Hi].
  destruct (turns_collected _ _ _ _ Hi) as (r & Hr & _ & _ & R).
  assert (F : Forall refined (stubsOf files)).
  { unfold stubsOf. destruct (collect files) as [c|] eqn:E; [|constructor].
    now apply (collect_refined files). }
  apply R. apply nth_error_In in Hr. rewrite Forall_forall in F. now apply F.
Qed.

End RefinedStubs.

Lemma resolved_relTypes_witness :
  exists o,
    nth_error (resolve (@stubsOf asciiHost enrolmentFiles)) 0 = Some o
    /\ isOwner o = true
    /\ origKind o = Some "many" /\ relType o = ManyToMany.
Proof.
  destruct (nth_error (resolve (@stubsOf asciiHost enrolmentFiles)) 0)
    as [o|] eqn:E; [|vm_compute in E; discriminate E].
  exists o. split; [reflexivity|].
  destruct (@resolved_relTypes asciiHost enrolmentFiles o
              (nth_error_In _ 0 E)) as [_ H].
  assert (W : isOwner o = true).
  { vm_compute in E. injection E as <-. reflexivity. }
  split; [exact W|].
  destruct (H W) as [K|(K & _)]; [exact K|].
  vm_compute in E. injection E as <-. discriminate K.
Defined.

(** *** Mutual inverses *)

Lemma reverseOf_entities r1 r2 :
  reverseOf r1 r2 = true -> reverseEntities r1 r2 = true.
Proof.
  rewrite reverseOf_split. intro H. now apply andb_true_iff in H.
Qed.

Lemma reverseEntities_collected a a' b b' :
  collected a' = collected a -> collected b' = collected b ->
  reverseEntities a' b' = reverseEntities a b.
Proof.
  unfold collected, reverseEntities. intros Ha Hb.
  injection Ha as A1 _ _ A2 _ _ _ _ _ _ _.
  injection Hb as B1 _ _ B2 _ _ _ _ _ _ _.
  now rewrite A1, A2, B1, B2.
Qed.

Lemma collected_localName a b : collected a = collected b -> localName a = localName b.
Proof. unfold collected. intro H. now injection H. Qed.

Lemma mutual_resolveAt s m : Mutual s -> Mutual (resolveAt s m).
Proof.
  intros [G M]. split; [now apply good_resolveAt|].
  destruct (resolveAt_cases s m)
    as [->|(r1 & j & r2 & Hm & Hp1 & Hj & H2 & Hp2 & E)]; [exact M|].
  rewrite E.
  destruct (findIndex_Some _ _ _ Hj) as (r2' & H2' & Hrev & _).
  rewrite H2 in H2'. injection H2' as <-.
  apply reverseOf_entities in Hrev.
  destruct (G _ _ Hm) as [N1 _]. destruct (G _ _ H2) as [N2 _].
  destruct (pair_inverse_first m j r1 r2 s Hm H2) as (o1 & Ho1 & I1).
  destruct (pair_inverse_second m j r1 r2 s Hm H2) as (o2 & Ho2 & I2).
  destruct (pair_collected _ _ _ _ _ _ _ Hm H2 Ho1) as (x1 & Hx1 & C1 & _).
  destruct (pair_collected _ _ _ _ _ _ _ Hm H2 Ho2) as (x2 & Hx2 & C2 & _).
  rewrite Hm in Hx1. injection Hx1 as <-.
  rewrite H2 in Hx2. injection Hx2 as <-.
  intros i o Hi.
  destruct (Nat.eq_dec i m) as [->|Nm].
  { rewrite Ho1 in Hi. injection Hi as <-. right. exists j, o2.
    split; [exact Ho2|].
    rewrite I1, I2, (collected_localName _ _ C1), (collected_localName _ _ C2).
    repeat split. now rewrite (reverseEntities_collected _ _ _ _ C1 C2). }
  destruct (Nat.eq_dec i j) as [->|Nj].
  { rewrite Ho2 in Hi. injection Hi as <-. right. exists m, o1.
    split; [exact Ho1|].
    rewrite I1, I2, (collected_localName _ _ C1), (collected_localName _ _ C2).
    repeat split.
    rewrite (reverseEntities_collected _ _ _ _ C2 C1).
    now rewrite reverseEntities_sym. }
  rewrite pair_other in Hi by assumption.
  destruct (M _ _ Hi) as [Z|(j' & p & Hp & Io & Ip & Rv)]; [now left|].
  right. exists j', p. repeat split; auto.
  assert (Pp : paired p = true).
  { unfold paired. rewrite Ip. destruct (G _ _ Hi) as [No _]. exact No. }
  rewrite pair_other; [exact Hp| |]; intros ->; congruence.
Qed.

(** X11.  For stubs as collected, all locally named, every resolved stub
    that has an inverse side names a resolved stub that names it back, and
    the two relate the same entities in opposite directions. *)
Theorem resolved_inverses_are_mutual stubs i o :
  Forall fresh stubs -> Forall named stubs ->
  nth_error (resolve stubs) i = Some o ->
  inverseSide o = Null
  \/ exists j p,
       nth_error (resolve stubs) j = Some p
       /\ inverseSide o = NotNull (localName p)
       /\ inverseSide p = NotNull (localName o)
       /\ fromEntity p = Some (toEntity o)
       /\ Some (toEntity p) = fromEntity o.
Proof.
  intros F N H.
  assert (M : Mutual (resolve stubs)).
  { unfold resolve. apply fold_left_invariant.
    - intros s m _. apply mutual_resolveAt.
    - split; [now apply fresh_named_good|].
      intros k x Hx. left. apply nth_error_In in Hx.
      rewrite Forall_forall in F. now destruct (F x Hx). }
  destruct M as [_ M]. destruct (M _ _ H) as [Z|(j & p & Hp & Io & Ip & Rv)];
    [now left|].
  right. exists j, p. repeat split; auto.
  - unfold reverseEntities in Rv. apply andb_true_iff in Rv.
    destruct Rv as [A _]. now apply same_eq in A.
  - unfold reverseEntities in Rv. apply andb_true_iff in Rv.
    destruct Rv as [_ B]. now apply same_eq in B.
Qed.

Lemma resolved_inverses_are_mutual_witness :
  exists o,
    nth_error (resolve [coursesStub; studentsStub]) 0 = Some o
    /\ (inverseSide o = Null
        \/ exists j p,
             nth_error (resolve [coursesStub; studentsStub]) j = Some p
             /\ inverseSide o = NotNull (localName p)
             /\ inverseSide p = NotNull (localName o)
             /\ fromEntity p = Some (toEntity o)
             /\ Some (toEntity p) = fromEntity o).
Proof.
  eexists. split; [reflexivity|].
  apply (resolved_inverses_are_mutual [coursesStub; studentsStub] 0).
  - repeat constructor.
  - repeat constructor.
  - reflexivity.
Defined.

(** ** Attaching the relations *)

Lemma attach_presence data r data' :
  attach data r = Ok data' ->
  forall k, get k data' = None <-> get k data = None.
Proof.
  unfold attach.
  destruct (read (propertyKey (fromEntity r)) data) as [ent| |] eqn:E;
    try discriminate.
  apply read_Own in E.
  destruct (existsb _ (relations ent)); intro H; injection H as <-;
    [tauto|].
  intro k. destruct (String.eqb_spec k (propertyKey (fromEntity r))) as [->|N].
  - rewrite get_set_same, E. split; discriminate.
  - now rewrite get_set_other.
Qed.

Lemma attach_all_returns stubs : forall data,
  returns (forEach attach stubs data) <-> Forall (hasEntity data) stubs.
Proof.
  induction stubs as [|r stubs IH]; intro data; simpl.
  - split; [constructor|]. intros _. now exists data.
  - split.
    + intros [d H].
      destruct (attach data r) as [data1|] eqn:E; simpl in H; [|discriminate].
      assert (Hr : hasEntity data r).
      { unfold hasEntity, attach, read in *.
        destruct (get (propertyKey (fromEntity r)) data); [discriminate|].
        destruct (inherited _); discriminate. }
      constructor; [exact Hr|].
      assert (F : Forall (hasEntity data1) stubs) by (apply IH; now exists d).
      revert F. apply Forall_impl. intros x Hx. unfold hasEntity in *.
      intro K. apply Hx. now apply (attach_presence _ _ _ E).
    + intro H. inversion H as [|r' l Hr Hl]; subst.
      unfold hasEntity in Hr.
      destruct (attach data r) as [data1|] eqn:E.
      * simpl. apply IH. revert Hl. apply Forall_impl. intros x Hx.
        unfold hasEntity in *. intro K. apply Hx.
        now apply (attach_presence _ _ _ E).
      * exfalso. unfold attach, read in E.
        destruct (get (propertyKey (fromEntity r)) data); [|now apply Hr].
        destruct (existsb _ _); discriminate.
Qed.

Lemma collected_fromEntity a b : collected a = collected b -> fromEntity a = fromEntity b.
Proof. unfold collected. intro H. now injection H. Qed.

Section Attachment.

Context {host : Host}.

(** *** When the conversion returns *)

Lemma In_insertByIndex_intro {V : Type} n m (e e' : string * V) l :
  (n, e) = (m, e') \/ In (m, e') l -> In (m, e') (insertByIndex n e l).
Proof.
  induction l as [|[m' x] l IH]; simpl.
  - intros [H|[]]. now left.
  - destruct (N.ltb n m'); simpl.
    + tauto.
    + intros [H|[H|H]]; auto.
Qed.

Lemma In_indexed_intro {V : Type} (o : Obj V) n e :
  In e o -> arrayIndex (fst e) = Some n -> In (n, e) (indexed o).
Proof.
  induction o as [|[k v] o IH]; simpl; [tauto|].
  intros [<-|H] Hn.
  - simpl in Hn. rewrite Hn. apply In_insertByIndex_intro. now left.
  - destruct (arrayIndex k); auto.
    apply In_insertByIndex_intro. right. now apply IH.
Qed.

(** [Object.entries] lists every property of the object. *)
Lemma In_entries_intro {V : Type} (o : Obj V) (e : string * V) :
  In e o -> In e (entries o).
Proof.
  intro H. unfold entries. apply in_or_app.
  destruct (arrayIndex (fst e)) as [n|] eqn:E.
  - left. apply in_map_iff. exists (n, e). split; [reflexivity|].
    now apply In_indexed_intro.
  - right. unfold stringKeys. apply filter_In. split; [exact H|].
    now rewrite E.
Qed.

Lemma attach_keys data r data' :
  attach data r = Ok data' -> map fst data' = map fst data.
Proof.
  unfold attach.
  destruct (read (propertyKey (fromEntity r)) data) as [ent| |] eqn:E;
    try discriminate.
  apply read_Own in E.
  destruct (existsb _ (relations ent)); intro H; injection H as <-;
    [reflexivity|].
  now apply (keys_set_present _ _ ent).
Qed.

Lemma attach_all_keys stubs : forall data data',
  forEach attach stubs data = Ok data' -> map fst data' = map fst data.
Proof.
  induction stubs as [|r stubs IH]; intros data data' H; simpl in H.
  - now injection H as <-.
  - destruct (attach data r) as [data1|] eqn:E; simpl in H; [|discriminate].
    rewrite (IH _ _ H). exact (attach_keys _ _ _ E).
Qed.

Lemma emitEntity_returns files m e :
  plainKeys m ->
  (returns (emitEntity files m e) <-> FileOk files (fst e))
  /\ forall m', emitEntity files m e = Ok m' -> plainKeys m'.
Proof.
  intro P. unfold emitEntity, FileOk.
  set (tsFile := propertyKey (lookup (fst e) files)).
  destruct (read tsFile m) as [schemas| |] eqn:E.
  - apply read_Own in E.
    assert (I : inherited tsFile = false).
    { apply P. apply get_In in E. now apply (in_map fst) in E. }
    split; [split; [auto|intros _; eexists; reflexivity]|].
    intros m' H. injection H as <-. now apply plainKeys_set.
  - apply read_Proto in E. destruct E as (_ & I & _). split.
    + split; [intros [x H]; discriminate|congruence].
    + discriminate.
  - apply read_Absent in E. destruct E as [_ I].
    split; [split; [auto|intros _; eexists; reflexivity]|].
    intros m' H. injection H as <-. now apply plainKeys_set.
Qed.

Lemma emitEntities_return files l : forall m,
  plainKeys m ->
  (returns (forEach (emitEntity files) l m)
   <-> Forall (fun e => FileOk files (fst e)) l).
Proof.
  induction l as [|e l IH]; intros m P; simpl.
  - split; [constructor|]. intros _. now exists m.
  - destruct (emitEntity_returns files m e P) as [R K]. split.
    + intros [x H].
      destruct (emitEntity files m e) as [m1|] eqn:E; simpl in H;
        [|discriminate].
      constructor.
      * apply R. now exists m1.
      * apply (IH m1); [now apply K|]. now exists x.
    + intro H. inversion H as [|e' l' He Hl]; subst.
      apply R in He. destruct He as [m1 E]. rewrite E. simpl.
      apply IH; [now apply K|exact Hl].
Qed.

Lemma emit_returns c :
  returns (emit c)
  <-> forall entity, In entity (map fst (entityData c)) ->
                     FileOk (entity2file c) entity.
Proof.
  unfold emit, bind.
  pose proof (emitEntities_return (entity2file c) (entries (entityData c)) [])
    as R.
  assert (P0 : plainKeys (@nil (string * list string))) by (intros k []).
  specialize (R P0). rewrite Forall_forall in R.
  assert (K : (forall e, In e (entries (entityData c)) ->
                         FileOk (entity2file c) (fst e))
              <-> forall entity, In entity (map fst (entityData c)) ->
                                 FileOk (entity2file c) entity).
  { split.
    - intros H entity Hin. apply in_map_iff in Hin.
      destruct Hin as (e & <- & He). apply H. now apply In_entries_intro.
    - intros H e He. apply H. apply in_map. now apply In_entries. }
  rewrite <- K, <- R.
  destruct (forEach (emitEntity (entity2file c)) (entries (entityData c)) [])
    as [m|].
  - split; intros _; eexists; reflexivity.
  - split; intros [x H]; discriminate.
Qed.

(** X12.  When the second traversal succeeds, the conversion returns
    exactly when every collected stub has an entity for its source and no
    entity has a file whose name is the name of a member of
    [Object.prototype]; otherwise attaching the stubs throws, or the
    emitter does when it pushes the text of the entity. *)
Theorem convert_returns_iff files c :
  collect files = Ok c ->
  (returns (convert files)
   <-> Forall (hasEntity (entityData c)) (relationStubs c)
       /\ forall entity file,
            In entity (map fst (entityData c)) ->
            get entity (entity2file c) = Some file ->
            inherited file = false).
Proof.
  intro E. unfold convert, analyse, bind. rewrite E.
  pose proof (attach_all_returns (resolve (relationStubs c)) (entityData c)) as A.
  assert (R : Forall (hasEntity (entityData c)) (resolve (relationStubs c))
              <-> Forall (hasEntity (entityData c)) (relationStubs c)).
  { destruct (resolve_collected (relationStubs c)) as [L K].
    rewrite !Forall_forall. split; intros H x Hx.
    - apply In_nth_error in Hx. destruct Hx as [i Hi].
      assert (Hlt : i < length (resolve (relationStubs c))).
      { rewrite L. apply nth_error_Some. congruence. }
      apply nth_error_Some in Hlt.
      destruct (nth_error (resolve (relationStubs c)) i) as [o|] eqn:Ho;
        [|now destruct Hlt].
      destruct (K _ _ Ho) as (r & Hr & C & _).
      rewrite Hi in Hr. injection Hr as <-.
      unfold hasEntity. rewrite <- (collected_fromEntity _ _ C).
      apply H. now apply nth_error_In in Ho.
    - apply In_nth_error in Hx. destruct Hx as [i Hi].
      destruct (K _ _ Hi) as (r & Hr & C & _).
      unfold hasEntity. rewrite (collected_fromEntity _ _ C).
      apply H. now apply nth_error_In in Hr. }
  rewrite <- R, <- A.
  pose proof (collect_plainKeys _ _ E) as P.
  destruct (forEach attach (resolve (relationStubs c)) (entityData c))
    as [data|] eqn:Ea.
  2:{ split; [intros [x H]; discriminate|].
      intros [[x H] _]. discriminate. }
  rewrite emit_returns. simpl.
  rewrite (attach_all_keys _ _ _ Ea).
  assert (F : forall entity, In entity (map fst (entityData c)) ->
                (FileOk (entity2file c) entity
                 <-> forall file, get entity (entity2file c) = Some file ->
                                  inherited file = false)).
  { intros entity Hin. unfold FileOk, lookup, read. rewrite (P _ Hin).
    destruct (get entity (entity2file c)) as [file|]; simpl.
    - split; [intros H f K; now injection K as <-|auto].
    - split; [discriminate|reflexivity]. }
  split.
  - intro H. split; [eexists; reflexivity|].
    intros entity file Hin. now apply F, H.
  - intros [_ H] entity Hin. apply F; [exact Hin|].
    intro file. now apply H.
Qed.

(** *** The relations of an entity *)

Lemma existsb_localName r rels :
  existsb (fun x => opt_eqb (localName x) (localName r)) rels = false ->
  ~ In (localName r) (map localName rels).
Proof.
  intros H Hin. apply in_map_iff in Hin. destruct Hin as (x & Hx & Hin).
  assert (K : existsb (fun x => opt_eqb (localName x) (localName r)) rels = true).
  { apply existsb_exists. exists x. split; [exact Hin|]. now apply opt_eqb_eq. }
  congruence.
Qed.

Lemma NoDup_snoc {A : Type} (l : list A) (a : A) :
  NoDup l -> ~ In a l -> NoDup (l ++ [a]).
Proof.
  intros N Ha. induction N as [|x l Hx N IH]; simpl.
  - constructor; [tauto|constructor].
  - constructor.
    + intro K. apply in_app_or in K. destruct K as [K|[K|[]]]; [tauto|].
      subst. apply Ha. now left.
    + apply IH. intro K. apply Ha. now right.
Qed.

Lemma attach_distinct stubs data r data' :
  In r stubs ->
  (forall entity ent, In (entity, ent) data -> distinctNames stubs entity ent) ->
  attach data r = Ok data' ->
  forall entity ent, In (entity, ent) data' -> distinctNames stubs entity ent.
Proof.
  intros Hr D. unfold attach.
  destruct (read (propertyKey (fromEntity r)) data) as [ent0| |] eqn:E;
    try discriminate.
  apply read_Own in E.
  destruct (existsb _ (relations ent0)) eqn:Ex; intro H; injection H as <-;
    [exact D|].
  intros entity ent Hin. destruct (In_set _ _ _ _ Hin) as [K|K];
    [|now apply D].
  injection K as -> ->.
  destruct (D _ _ (get_In _ _ _ E)) as [N M]. split; simpl.
  - rewrite map_app. simpl. apply NoDup_snoc; [exact N|].
    now apply existsb_localName.
  - intros x Hx. apply in_app_or in Hx. destruct Hx as [Hx|[<-|[]]]; auto.
Qed.

Lemma tableDeclaration_relations c d args c' :
  (forall entity ent, In (entity, ent) (entityData c) -> relations ent = []) ->
  tableDeclaration c d args = Ok c' ->
  forall entity ent, In (entity, ent) (entityData c') -> relations ent = [].
Proof.
  intros P. unfold tableDeclaration, bind. cbv zeta.
  destruct (match isObj (nth_error args 1) with
            | Some props => forEach columnProperty props []
            | None => Ok []
            end) as [cols|]; [|discriminate].
  destruct (tableExtras _ (nth_error args 2) cols) as [[cols' ixs]|];
    [|discriminate].
  destruct (read (entityName c d) (entityData c)) as [old| |] eqn:Eold;
    intro H; injection H as <-; simpl; [| exact P |];
    intros entity ent Hin;
    (destruct (In_set _ _ _ _ Hin) as [K|K]; [|now apply (P entity)]);
    injection K as -> ->; simpl; [|reflexivity].
  apply read_Own in Eold. apply (P _ _ (get_In _ _ _ Eold)).
Qed.

Lemma collect_relations files c :
  collect files = Ok c ->
  forall entity ent, In (entity, ent) (entityData c) -> relations ent = [].
Proof.
  unfold collect.
  apply (forEach_invariant
           (fun c => forall entity ent, In (entity, ent) (entityData c) ->
                                        relations ent = [])).
  - intros s f s' _ Ps. unfold collectFile.
    apply (forEach_invariant
             (fun c => forall entity ent, In (entity, ent) (entityData c) ->
                                          relations ent = [])); auto.
    intros s1 n s1' _ Ps1. destruct n; simpl;
      [|intro H; injection H as <-; exact Ps1].
    apply (forEach_invariant
             (fun c => forall entity ent, In (entity, ent) (entityData c) ->
                                          relations ent = [])); auto.
    intros s2 d s2' _ Ps2. unfold declaration.
    destruct (decl_initializer d) as [init|];
      [|intro H; injection H as <-; exact Ps2].
    destruct init; try (intro H; injection H as <-; exact Ps2).
    unfold bind.
    destruct (if equals (escapedText init) "pgTable"
              then tableDeclaration s2 d arguments0 else Ok s2) as [s3|] eqn:E3;
      [|discriminate].
    assert (Ps3 : forall entity ent, In (entity, ent) (entityData s3) ->
                                     relations ent = []).
    { destruct (equals (escapedText init) "pgTable").
      - now apply (tableDeclaration_relations _ _ _ _ Ps2 E3).
      - now injection E3 as <-. }
    destruct (equals (escapedText init) "relations").
    + intro H. now rewrite (relationsDeclaration_entityData _ _ _ H).
    + intro H. now injection H as <-.
  - destruct (registry_entityData files emptyContext) as [-> _].
    intros entity ent [].
Qed.

(** X13.  In the model that the emitter prints, the relations of an entity
    have pairwise different local names, and each is a resolved stub whose
    source is that entity. *)
Theorem attached_relations files c entity ent :
  analyse files = Ok c ->
  In (entity, ent) (entityData c) ->
  NoDup (map localName (relations ent))
  /\ forall r, In r (relations ent) ->
               In r (relationStubs c) /\ propertyKey (fromEntity r) = entity.
Proof.
  unfold analyse, bind.
  destruct (collect files) as [c0|] eqn:E0; [|discriminate].
  destruct (forEach attach (resolve (relationStubs c0)) (entityData c0))
    as [data|] eqn:E1; [|discriminate].
  intro H. injection H as <-. simpl. revert entity ent.
  change (forall entity ent, In (entity, ent) data ->
            distinctNames (resolve (relationStubs c0)) entity ent).
  revert E1.
  apply (forEach_invariant
           (fun d => forall entity ent, In (entity, ent) d ->
                       distinctNames (resolve (relationStubs c0)) entity ent)).
  - intros s r s' Hr Ps. now apply attach_distinct.
  - intros entity ent Hin. unfold distinctNames.
    rewrite (collect_relations _ _ E0 _ _ Hin).
    split; [constructor|intros r []].
Qed.

End Attachment.

Lemma convert_returns_iff_witness :
  returns (@convert asciiHost [("users.ts", usersFile)]).
Proof.
  apply (@convert_returns_iff asciiHost [("users.ts", usersFile)] usersModel).
  - vm_compute. reflexivity.
  - split; [constructor|].
    intros entity file [<-|[]] H. injection H as <-. reflexivity.
Defined.

(** A file named like a member of [Object.prototype]: the emitter throws
    when it pushes the text of the first entity of the file. *)
Lemma inherited_file_name_throws :
  @convert asciiHost [("constructor", usersFile)] = Throw push_not_a_function.
Proof. vm_compute. reflexivity. Qed.

Lemma attached_relations_witness :
  exists c ent,
    @analyse asciiHost enrolmentFiles = Ok c
    /\ In ("Students", ent) (entityData c)
    /\ map localName (relations ent) = [Some "courses"]
    /\ NoDup (map localName (relations ent))
    /\ forall r, In r (relations ent) ->
                 In r (relationStubs c)
                 /\ propertyKey (fromEntity r) = "Students".
Proof.
  destruct (@analyse asciiHost enrolmentFiles) as [c|] eqn:E;
    [|vm_compute in E; discriminate E].
  destruct (get "Students" (entityData c)) as [ent|] eqn:G;
    [|vm_compute in E; injection E as <-; discriminate G].
  exists c, ent. split; [reflexivity|].
  split; [exact (get_In _ _ _ G)|].
  split; [vm_compute in E; injection E as <-; vm_compute in G;
          injection G as <-; reflexivity|].
  exact (@attached_relations asciiHost enrolmentFiles c "Students" ent E
           (get_In _ _ _ G)).
Defined.

(** ** Nullable columns, from the declaration to the output (C7) *)
















Section Declared.

Context {host : Host}.















End Declared.

Section Nullable.

Context {host : Host}.


End Nullable.



(** ** Output names, quoting and empty inputs *)

(** *** Strings *)

Lemma string_app_nil_r (s : string) : s ++ "" = s.
Proof. induction s as [|c s IH]; simpl; congruence. Qed.

Lemma string_app_assoc (a b c : string) : (a ++ b) ++ c = a ++ (b ++ c).
Proof. induction a as [|x a IH]; simpl; congruence. Qed.

Lemma rev_string_app (a b : string) :
  rev_string (a ++ b) = rev_string b ++ rev_string a.
Proof.
  induction a as [|c a IH]; simpl.
  - now rewrite string_app_nil_r.
  - now rewrite IH, string_app_assoc.
Qed.

Lemma rev_string_involutive (s : string) : rev_string (rev_string s) = s.
Proof.
  induction s as [|c s IH]; simpl; [reflexivity|].
  rewrite rev_string_app. simpl. now rewrite IH.
Qed.

Lemma starts_with_app (p s : string) : starts_with p (p ++ s) = true.
Proof.
  induction p as [|c p IH]; simpl; [reflexivity|].
  now rewrite Ascii.eqb_refl.
Qed.

Lemma ends_with_app (p s : string) : ends_with p (s ++ p) = true.
Proof. unfold ends_with. rewrite rev_string_app. apply starts_with_app. Qed.

Lemma string_length_app (a b : string) :
  String.length (a ++ b) = String.length a + String.length b.
Proof. induction a as [|c a IH]; simpl; congruence. Qed.

Lemma substring_prefix (a b : string) :
  substring 0 (String.length a) (a ++ b) = a.
Proof.
  induction a as [|c a IH]; simpl.
  - now destruct b.
  - now rewrite IH.
Qed.

Lemma all_chars_app f (a b : string) :
  all_chars f (a ++ b) = all_chars f a && all_chars f b.
Proof.
  induction a as [|c a IH]; simpl; [reflexivity|].
  now rewrite IH, andb_assoc.
Qed.

(** *** The name of an output file *)

(** X14.  The output name of a file [base.ts] is [base.js], whatever
    [base] is: only the final extension is replaced, also when [base] holds
    [.ts] itself. *)
Theorem outputName_replaces_extension (base : string) :
  outputName (base ++ ".ts") = base ++ ".js".
Proof.
  unfold outputName. rewrite ends_with_app, string_length_app. simpl.
  replace (String.length base + 3 - 3) with (String.length base) by lia.
  now rewrite substring_prefix.
Qed.

(** *** Quoting *)

Lemma quoted_quote (t : string) :
  quoted (quote t) = all_chars (fun c => negb (lineTerminator c)) t.
Proof.
  unfold quoted, quote.
  assert (L : Nat.leb 2 (String.length ("'" ++ t ++ "'")) = true).
  { simpl. rewrite string_length_app. simpl.
    replace (String.length t + 1) with (S (String.length t)) by lia.
    reflexivity. }
  rewrite L.
  change ("'" ++ t ++ "'") with ("'" ++ (t ++ "'")) at 1.
  rewrite starts_with_app.
  rewrite <- string_app_assoc, ends_with_app.
  rewrite string_app_assoc.
  rewrite all_chars_app, all_chars_app. simpl.
  now rewrite andb_true_r.
Qed.

Section Printing.

Context {host : Host}.

(** X15.  For every key but [enum], a string value that is already in
    single quotes is printed as it is, unless it holds a line terminator:
    then it is put in quotes once more. *)
Theorem printColumnField_quoted k t cfg :
  String.eqb k "enum" = false ->
  printColumnField k (VString (quote t)) cfg
  = if all_chars (fun c => negb (lineTerminator c)) t
    then "        " ++ k ++ ": " ++ quote t ++ ","
    else "        " ++ k ++ ": '" ++ quote t ++ "',".
Proof.
  intro Hk. unfold printColumnField. rewrite Hk, quoted_quote.
  now destruct (all_chars _ t).
Qed.

(** *** Files that declare nothing *)

Lemma register_noCall file c d : noCall d -> register file c d = c.
Proof.
  unfold noCall, register. destruct (decl_initializer d) as [init|]; auto.
  destruct init; auto. discriminate.
Qed.

Lemma declaration_noCall c d : noCall d -> declaration c d = Ok c.
Proof.
  unfold noCall, declaration. destruct (decl_initializer d) as [init|]; auto.
  destruct init; auto. discriminate.
Qed.

Lemma fold_left_fixed {A S : Type} (f : S -> A -> S) (l : list A) (s : S) :
  (forall a, In a l -> f s a = s) -> fold_left f l s = s.
Proof.
  induction l as [|a l IH]; simpl; intro H; [reflexivity|].
  rewrite (H a (or_introl eq_refl)). apply IH. intros b Hb. apply H. now right.
Qed.

Lemma forEach_fixed {A S : Type} (f : S -> A -> result S) (l : list A) (s : S) :
  (forall a, In a l -> f s a = Ok s) -> forEach f l s = Ok s.
Proof.
  induction l as [|a l IH]; simpl; intro H; [reflexivity|].
  rewrite (H a (or_introl eq_refl)). simpl. apply IH.
  intros b Hb. apply H. now right.
Qed.

(** X16.  Files in which no variable is initialized by a call, among them
    the empty list of files and files without statements, are converted to
    the empty map: no output file is written for them. *)
Theorem convert_nothing_declared files :
  Forall declaresNothing files -> convert files = Ok [].
Proof.
  intro F. rewrite Forall_forall in F.
  assert (R : fold_left registerFile files emptyContext = emptyContext).
  { apply fold_left_fixed. intros f Hf. unfold registerFile.
    apply fold_left_fixed. intros n Hn. destruct n as [ds|]; simpl; auto.
    apply fold_left_fixed. intros d Hd. apply register_noCall.
    now apply (F f Hf ds). }
  assert (C : collect files = Ok emptyContext).
  { unfold collect. rewrite R. apply forEach_fixed. intros f Hf.
    unfold collectFile. apply forEach_fixed. intros n Hn.
    destruct n as [ds|]; simpl; auto.
    apply forEach_fixed. intros d Hd. apply declaration_noCall.
    now apply (F f Hf ds). }
  unfold convert, analyse. rewrite C. reflexivity.
Qed.

(** *** A table declared again *)


End Printing.

Lemma printColumnField_quoted_witness :
  @printColumnField asciiHost "default" (VString "'active'") textColumn
  = "        default: 'active',".
Proof.
  exact (@printColumnField_quoted asciiHost "default" "active" textColumn eq_refl).
Defined.

Lemma convert_nothing_declared_witness :
  @convert asciiHost [("version.ts", versionFile)] = Ok [].
Proof.
  apply (@convert_nothing_declared asciiHost).
  repeat constructor. intros ds d [H|[]]. injection H as <-.
  intros [<-|[]]. reflexivity.
Defined.


(** ** Entity names and join columns *)

(** *** Entity names *)

Lemma drop_while_app f (a b : string) :
  drop_while f (a ++ b)
  = if all_chars f a then drop_while f b else drop_while f a ++ b.
Proof.
  induction a as [|c a IH]; simpl; [reflexivity|].
  destruct (f c); simpl; [exact IH|reflexivity].
Qed.

Lemma drop_while_all f (a : string) :
  all_chars f a = true -> drop_while f a = "".
Proof.
  induction a as [|c a IH]; simpl; [reflexivity|].
  destruct (f c); simpl; [exact IH|discriminate].
Qed.

Lemma stripUnderscores_leading s :
  stripUnderscores (String "_" s) = stripUnderscores s.
Proof. reflexivity. Qed.

Lemma stripUnderscores_trailing s :
  stripUnderscores (s ++ "_") = stripUnderscores s.
Proof.
  unfold stripUnderscores. f_equal.
  rewrite drop_while_app.
  destruct (all_chars is_underscore s) eqn:E.
  - now rewrite (drop_while_all _ _ E).
  - rewrite rev_string_app. reflexivity.
Qed.

Section JoinColumn.

Context {host : Host}.

(** X18.  An underscore before or after a table name does not show in the
    entity name: [snakeToPascal] gives the name of the table without it. *)
Theorem snakeToPascal_ignores_outer_underscores s :
  snakeToPascal (String "_" s) = snakeToPascal s
  /\ snakeToPascal (s ++ "_") = snakeToPascal s.
Proof.
  unfold snakeToPascal. split.
  - now rewrite stripUnderscores_leading.
  - now rewrite stripUnderscores_trailing.
Qed.

(** *** The join column *)

Lemma relationOption_key st p :
  fieldsProperty p = false ->
  snd (relationOption st p) = snd st
  /\ joinColumnName (fst (relationOption st p)) = joinColumnName (fst st).
Proof.
  destruct st as [r fk]. destruct p; try (split; reflexivity).
  unfold relationOption, fieldsProperty. intro H.
  destruct p2; try rewrite H;
    repeat match goal with
    | |- context [match ?x with _ => _ end] => destruct x
    end; split; reflexivity.
Qed.

Lemma fold_relationOption_key props : forall st,
  existsb fieldsProperty props = false ->
  snd (fold_left relationOption props st) = snd st
  /\ joinColumnName (fst (fold_left relationOption props st))
     = joinColumnName (fst st).
Proof.
  induction props as [|p props IH]; intros st H; simpl; [split; reflexivity|].
  simpl in H. apply orb_false_iff in H. destruct H as [Hp Hps].
  destruct (IH (relationOption st p) Hps) as [A B].
  destruct (relationOption_key st p Hp) as [A' B'].
  split; congruence.
Qed.

(** X19.  For a relation-builder call that the collector keeps and whose
    options have no [fields] array: the stub has a join column exactly when
    the first column of the target entity that references the variable of
    the source has a non-empty key; a target without entity data gives
    none. *)
Theorem join_column_without_fields fromVar c pname callee args target :
  nth_error args 0 = Some target ->
  truthy (escapedText target) = true ->
  hasFields (nth_error args 1) = false ->
  exists r,
    relationStubs (relationProperty fromVar c
                     (PropertyAssignment pname (CallExpression callee args)))
    = (relationStubs c ++ [r])%list
    /\ (joinColumnName r = None
        <-> truthy (referencingColumn fromVar (targetColumns c (toEntity r)))
            = false)
    /\ (get (stringOf (toEntity r)) (entityData c) = None ->
        joinColumnName r = None).
Proof.
  intros Harg Htruthy Hfields. unfold relationProperty. rewrite Harg.
  destruct (escapedText target) as [[|a targ]|]; try discriminate.
  set (r0 := {| fromEntity := _ |}).
  destruct (match isObj (nth_error args 1) with
            | Some props => fold_left relationOption props (r0, Null)
            | None => (r0, Null)
            end) as [r1 fk] eqn:E.
  assert (C : core r1 = core r0 /\ fk = Null /\ joinColumnName r1 = None).
  { unfold hasFields in Hfields.
    destruct (isObj (nth_error args 1)) as [props|].
    - destruct (fold_relationOption_key props (r0, Null) Hfields) as [A B].
      rewrite E in A, B. simpl in A, B. repeat split; auto.
      change r1 with (fst (r1, fk)). rewrite <- E.
      apply fold_relationOption_core.
    - injection E as <- <-. repeat split. }
  destruct C as (C & -> & J).
  unfold core in C. injection C as C1 C2 C3 C4 C5 C6 C7 C8 C9.
  cbn [truthyKey].
  fold (targetColumns c (toEntity r1)).
  destruct (referencingColumn fromVar (targetColumns c (toEntity r1)))
    as [[|x colName]|] eqn:Eref.
  - eexists. split; [reflexivity|].
    match goal with
    | |- (joinColumnName ?R = None <-> _) /\ _ =>
        assert (Ht : toEntity R = toEntity r1);
        [|assert (Hj : joinColumnName R = None)]
    end.
    { repeat match goal with
      | |- context [match ?x with _ => _ end] => destruct x
      end; simpl; reflexivity. }
    { repeat match goal with
      | |- context [match ?x with _ => _ end] => destruct x
      end; simpl; auto. }
    rewrite Ht, Hj, Eref. repeat split; auto.
  - eexists. split; [reflexivity|].
    match goal with
    | |- (joinColumnName ?R = None <-> _) /\ _ =>
        assert (Ht : toEntity R = toEntity r1);
        [|assert (Hj : joinColumnName R <> None)]
    end.
    { repeat match goal with
      | |- context [match ?x with _ => _ end] => destruct x
      end; simpl; reflexivity. }
    { repeat match goal with
      | |- context [match ?x with _ => _ end] => destruct x
      end; simpl; discriminate. }
    rewrite Ht, Eref. split.
    + split; [intro K; contradiction|discriminate].
    + intro G. exfalso. unfold targetColumns, entityColumns, read in Eref.
      rewrite G in Eref. destruct (inherited _); discriminate.
  - eexists. split; [reflexivity|].
    match goal with
    | |- (joinColumnName ?R = None <-> _) /\ _ =>
        assert (Ht : toEntity R = toEntity r1);
        [|assert (Hj : joinColumnName R = None)]
    end.
    { repeat match goal with
      | |- context [match ?x with _ => _ end] => destruct x
      end; simpl; reflexivity. }
    { repeat match goal with
      | |- context [match ?x with _ => _ end] => destruct x
      end; simpl; auto. }
    rewrite Ht, Hj, Eref. repeat split; auto.
Qed.

End JoinColumn.

Lemma join_column_without_fields_witness :
  exists r,
    relationStubs (@relationProperty asciiHost (Some "profiles") emptyContext
                     partnerProperty) = [r]
    /\ joinColumnName r = None.
Proof.
  destruct (@join_column_without_fields asciiHost (Some "profiles") emptyContext
              (Identifier "partner") (Identifier "oneToOne")
              [Identifier "users"] (Identifier "users")
              eq_refl eq_refl eq_refl) as (r & Hr & _ & H).
  exists r. split; [exact Hr|]. apply H. 
  unfold partnerProperty, prop, call in Hr. simpl in Hr.
  injection Hr as <-. reflexivity.
Defined.
